(** * A verified model of the address-book assistant ([main.py])

    The development embeds the data model of [main.py] (fields, records,
    the address book) together with the parts of the Python runtime the
    program relies on ([str.isdigit], [datetime.strptime], [date]
    arithmetic), and proves the properties of the validators, of the record
    and book operations and of the upcoming-birthdays query. *)

From Stdlib Require Import ZArith NArith String Ascii List Lia Bool.
From stdpp Require Import base decidable option numbers list.

Local Open Scope Z_scope.

(** ** Python strings

    A Python [str] is a sequence of Unicode code points; [len] counts code
    points.  ASCII literals of the program are written as Rocq strings and
    injected with [py]. *)

Abbreviation pystr := (list N).

Fixpoint py (s : string) : pystr :=
  match s with
  | EmptyString => []
  | String a s' => N_of_ascii a :: py s'
  end.

Definition str_eqb (a b : pystr) : bool := bool_decide (a = b).

(** ** The Unicode character database, as far as the program consults it *)

Module Unicode.

(** Inclusive code-point ranges of the characters with
    [Numeric_Type=Decimal] (general category [Nd]), Unicode 14.0.  Every
    range is a union of runs of ten characters standing for 0..9. *)
Definition decimal_ranges : list (N * N) :=
  [ (48, 57); (1632, 1641); (1776, 1785); (1984, 1993); (2406, 2415);
    (2534, 2543); (2662, 2671); (2790, 2799); (2918, 2927); (3046, 3055);
    (3174, 3183); (3302, 3311); (3430, 3439); (3558, 3567); (3664, 3673);
    (3792, 3801); (3872, 3881); (4160, 4169); (4240, 4249); (6112, 6121);
    (6160, 6169); (6470, 6479); (6608, 6617); (6784, 6793); (6800, 6809);
    (6992, 7001); (7088, 7097); (7232, 7241); (7248, 7257); (42528, 42537);
    (43216, 43225); (43264, 43273); (43472, 43481); (43504, 43513);
    (43600, 43609); (44016, 44025); (65296, 65305); (66720, 66729);
    (68912, 68921); (69734, 69743); (69872, 69881); (69942, 69951);
    (70096, 70105); (70384, 70393); (70736, 70745); (70864, 70873);
    (71248, 71257); (71360, 71369); (71472, 71481); (71904, 71913);
    (72016, 72025); (72784, 72793); (73040, 73049); (73120, 73129);
    (92768, 92777); (92864, 92873); (93008, 93017); (120782, 120831);
    (123200, 123209); (123632, 123641); (125264, 125273);
    (130032, 130041) ]%N.

(** Characters with [Numeric_Type=Digit] that are not decimal:
    superscripts, subscripts, circled and parenthesised digits and the
    like (Unicode 14.0). *)
Definition other_digit_ranges : list (N * N) :=
  [ (178, 179); (185, 185); (4969, 4977); (6618, 6618); (8304, 8304);
    (8308, 8313); (8320, 8329); (9312, 9320); (9332, 9340); (9352, 9360);
    (9450, 9450); (9461, 9469); (9471, 9471); (10102, 10110);
    (10112, 10120); (10122, 10130); (68160, 68163); (69216, 69224);
    (69714, 69722); (127232, 127242) ]%N.

Definition in_range (c : N) (r : N * N) : bool :=
  ((fst r <=? c) && (c <=? snd r))%N.

Definition in_ranges (rs : list (N * N)) (c : N) : bool :=
  existsb (in_range c) rs.

(** [str.isdecimal] on one character; also the class [\d] of the [re]
    module on [str] patterns. *)
Definition isdecimal (c : N) : bool := in_ranges decimal_ranges c.

(** [str.isdigit] on one character: [Numeric_Type] is [Digit] or
    [Decimal]. *)
Definition isdigit (c : N) : bool :=
  isdecimal c || in_ranges other_digit_ranges c.

(** The characters [0] .. [9] of ASCII. *)
Definition is_ascii_digit (c : N) : bool := ((48 <=? c) && (c <=? 57))%N.

(** The decimal value of a decimal character, [None] for any other. *)
Definition decimal_value (c : N) : option Z :=
  match find (in_range c) decimal_ranges with
  | Some (lo, _) => Some (Z.of_N ((c - lo) mod 10))
  | None => None
  end.

End Unicode.

(** [str.isdigit]: all characters are digits and there is at least one. *)
Definition str_isdigit (s : pystr) : bool :=
  negb (bool_decide (s = [])) && forallb Unicode.isdigit s.

(** ** Exceptions and results *)

Inductive exn : Type :=
| ValueError (msg : string)
| KeyError (msg : string)
| IndexError (msg : string)
| OverflowError (msg : string).

Inductive result (A : Type) : Type :=
| Return (a : A)
| Raise (e : exn).
Arguments Return {A} a.
Arguments Raise {A} e.

Definition rbind {A B} (r : result A) (k : A -> result B) : result B :=
  match r with
  | Return a => k a
  | Raise e => Raise e
  end.

Declare Scope result_scope.
Delimit Scope result_scope with result.
Notation "x <- c1 ;; c2" := (rbind c1 (fun x => c2))
  (at level 100, c1 at next level, right associativity) : result_scope.

(** [try: body except ValueError: raise ValueError(msg)] *)
Definition reraise_ValueError {A} (body : result A) (msg : string) : result A :=
  match body with
  | Raise (ValueError _) => Raise (ValueError msg)
  | r => r
  end.

(** ** The [date] type of the [datetime] module

    The definitions follow CPython's reference implementation of the
    proleptic Gregorian calendar; Python's [//] and [%] on a positive
    divisor are [Z.div] and [Z.modulo]. *)

Module datetime.

Definition MINYEAR : Z := 1.
Definition MAXYEAR : Z := 9999.
Definition MAXORDINAL : Z := 3652059.

Record date : Type := mkdate { year : Z; month : Z; day : Z }.

Definition is_leap (y : Z) : bool :=
  (y mod 4 =? 0) && (negb (y mod 100 =? 0) || (y mod 400 =? 0)).

Definition DAYS_IN_MONTH : list Z :=
  [-1; 31; 28; 31; 30; 31; 30; 31; 31; 30; 31; 30; 31].

Definition DAYS_BEFORE_MONTH : list Z :=
  [-1; 0; 31; 59; 90; 120; 151; 181; 212; 243; 273; 304; 334].

(** Indexing of the two tables; the callers pass a month in 1..12. *)
Definition at_month (tbl : list Z) (m : Z) : Z := nth (Z.to_nat m) tbl (-1).

Definition days_before_year (y : Z) : Z :=
  let y := y - 1 in y * 365 + y / 4 - y / 100 + y / 400.

Definition days_in_month (y m : Z) : Z :=
  if (m =? 2) && is_leap y then 29 else at_month DAYS_IN_MONTH m.

Definition days_before_month (y m : Z) : Z :=
  at_month DAYS_BEFORE_MONTH m + (if (2 <? m) && is_leap y then 1 else 0).

Definition ymd2ord (y m d : Z) : Z :=
  days_before_year y + days_before_month y m + d.

Definition DI400Y : Z := 146097.
Definition DI100Y : Z := 36524.
Definition DI4Y : Z := 1461.

Definition ord2ymd (n : Z) : date :=
  let n := n - 1 in
  let n400 := n / DI400Y in
  let n := n mod DI400Y in
  let y := n400 * 400 + 1 in
  let n100 := n / DI100Y in
  let n := n mod DI100Y in
  let n4 := n / DI4Y in
  let n := n mod DI4Y in
  let n1 := n / 365 in
  let n := n mod 365 in
  let y := y + n100 * 100 + n4 * 4 + n1 in
  if (n1 =? 4) || (n100 =? 4) then mkdate (y - 1) 12 31
  else
    let leapyear := (n1 =? 3) && (negb (n4 =? 24) || (n100 =? 3)) in
    let m := Z.shiftr (n + 50) 5 in
    let preceding :=
      at_month DAYS_BEFORE_MONTH m + (if (2 <? m) && leapyear then 1 else 0) in
    if n <? preceding then
      let m := m - 1 in
      let preceding :=
        preceding
        - (at_month DAYS_IN_MONTH m + (if (m =? 2) && leapyear then 1 else 0)) in
      mkdate y m (n - preceding + 1)
    else mkdate y m (n - preceding + 1).

(** The invariant of every [date] object. *)
Definition valid (d : date) : Prop :=
  MINYEAR <= year d <= MAXYEAR /\ 1 <= month d <= 12 /\
  1 <= day d <= days_in_month (year d) (month d).

(** [date(year, month, day)] *)
Definition new (y m d : Z) : result date :=
  if negb ((MINYEAR <=? y) && (y <=? MAXYEAR)) then
    Raise (ValueError "year is out of range")
  else if negb ((1 <=? m) && (m <=? 12)) then
    Raise (ValueError "month must be in 1..12")
  else if negb ((1 <=? d) && (d <=? days_in_month y m)) then
    Raise (ValueError "day is out of range for month")
  else Return (mkdate y m d).

Definition toordinal (d : date) : Z := ymd2ord (year d) (month d) (day d).

Definition fromordinal (n : Z) : date := ord2ymd n.

(** [d.replace(year=y)] *)
Definition replace_year (d : date) (y : Z) : result date :=
  new y (month d) (day d).

(** [a < b]: comparison of the tuples (year, month, day). *)
Definition lt (a b : date) : bool :=
  (year a <? year b) ||
  ((year a =? year b) &&
     ((month a <? month b) || ((month a =? month b) && (day a <? day b)))).

(** [d + timedelta(days=n)] *)
Definition add_days (d : date) (n : Z) : result date :=
  let o := toordinal d + n in
  if (0 <? o) && (o <=? MAXORDINAL) then Return (fromordinal o)
  else Raise (OverflowError "date value out of range").

(** [(a - b).days] *)
Definition sub_days (a b : date) : Z := toordinal a - toordinal b.

(** [d.weekday()]: Monday is 0, Sunday is 6. *)
Definition weekday (d : date) : Z := (toordinal d + 6) mod 7.

Definition digit (n : Z) : N := (48 + Z.to_N (n mod 10))%N.

(** [d.strftime("%d.%m.%Y")].  The day and the month are zero-padded to
    two digits and the year to four, as the documentation of [%Y] gives
    it; for the years below 1000 some C libraries write fewer digits, so
    the properties of the text are stated from the year 1000 on. *)
Definition strftime_dmY (d : date) : pystr :=
  [digit (day d / 10); digit (day d)] ++ [46%N] ++
  [digit (month d / 10); digit (month d)] ++ [46%N] ++
  [digit (year d / 1000); digit (year d / 100); digit (year d / 10);
   digit (year d)].

End datetime.

(** ** Regular expressions of [_strptime], by lists of successes

    A pattern maps the input to the list of its matches, each a pair of the
    matched text and the rest of the input, in the order in which the
    backtracking matcher of [re] tries them.  The first match of a pattern
    is the head of the list. *)

Module re.

Definition pattern : Type := pystr -> list (pystr * pystr).

Definition chr (p : N -> bool) : pattern :=
  fun s => match s with
           | c :: r => if p c then [([c], r)] else []
           | [] => []
           end.

Definition lit (c : N) : pattern := chr (N.eqb c).

Definition rng (lo hi : N) : pattern :=
  chr (fun c => (lo <=? c) && (c <=? hi))%N.

(** [\d] *)
Definition d : pattern := chr Unicode.isdecimal.

Definition seq (p q : pattern) : pattern :=
  fun s => '(a, r) ← p s; '(b, r') ← q r; [(a ++ b, r')].

Definition alt (p q : pattern) : pattern := fun s => p s ++ q s.

End re.

Module strptime.

Import re.

Definition c0 : N := 48.
Definition c1 : N := 49.
Definition c2 : N := 50.
Definition c3 : N := 51.
Definition c9 : N := 57.
Definition dot : N := 46.
Definition space : N := 32.

(** [%d]: [3[0-1]|[1-2]\d|0[1-9]|[1-9]| [1-9]] *)
Definition re_d : pattern :=
  alt (seq (lit c3) (rng c0 c1))
    (alt (seq (rng c1 c2) d)
       (alt (seq (lit c0) (rng c1 c9))
          (alt (rng c1 c9) (seq (lit space) (rng c1 c9))))).

(** [%m]: [1[0-2]|0[1-9]|[1-9]] *)
Definition re_m : pattern :=
  alt (seq (lit c1) (rng c0 c2)) (alt (seq (lit c0) (rng c1 c9)) (rng c1 c9)).

(** [%Y]: [\d\d\d\d] *)
Definition re_Y : pattern := seq d (seq d (seq d d)).

(** The compiled format ["%d.%m.%Y"]: the groups [d], [m], [Y] and the
    unmatched rest of the input.  The flag [IGNORECASE], with which
    [_strptime] compiles it, changes nothing for digits, dots and blanks. *)
Definition format_regex (s : pystr) : list (pystr * pystr * pystr * pystr) :=
  '(gd, r1) ← re_d s; '(_, r2) ← lit dot r1;
  '(gm, r3) ← re_m r2; '(_, r4) ← lit dot r3;
  '(gY, r5) ← re_Y r4; [(gd, gm, gY, r5)].

Fixpoint lstrip (s : pystr) : pystr :=
  match s with
  | c :: r => if (c =? space)%N then lstrip r else s
  | [] => []
  end.

Fixpoint digits_value (acc : Z) (s : pystr) : option Z :=
  match s with
  | [] => Some acc
  | c :: r =>
      match Unicode.decimal_value c with
      | Some v => digits_value (10 * acc + v) r
      | None => None
      end
  end.

(** [int(s)] on the texts a group can capture: blanks are stripped and the
    remaining characters must be decimal digits. *)
Definition int (s : pystr) : result Z :=
  match lstrip s with
  | [] => Raise (ValueError "invalid literal for int() with base 10")
  | t => match digits_value 0 t with
         | Some v => Return v
         | None => Raise (ValueError "invalid literal for int() with base 10")
         end
  end.

(** [datetime.strptime(data_string, "%d.%m.%Y").date()] *)
Definition strptime_dmY (data_string : pystr) : result datetime.date :=
  match format_regex data_string with
  | [] => Raise (ValueError "time data does not match format")
  | (gd, gm, gY, rest) :: _ =>
      match rest with
      | _ :: _ => Raise (ValueError "unconverted data remains")
      | [] =>
          (y <- int gY ;; m <- int gm ;; d <- int gd ;;
           datetime.new y m d)%result
      end
  end.

End strptime.

(** ** Fields *)

(** [class Field]: an object with one attribute [value]; [Name], [Phone]
    and [Birthday] are its subclasses and add no attribute. *)
Record Field : Type := mkField { value : pystr }.

(** [Field.__str__] *)
Definition Field_str (f : Field) : pystr := value f.

(** [Name(value)] *)
Definition Name_init (v : pystr) : Field := mkField v.

(** [Phone(value)]; [str(value)] is the identity on a [str]. *)
Definition Phone_init (v : pystr) : result Field :=
  if negb (str_isdigit v && bool_decide (length v = 10%nat)) then
    Raise (ValueError "Phone number must contain exactly 10 digits.")
  else Return (mkField v).

(** [Birthday(value)] *)
Definition Birthday_init (v : pystr) : result Field :=
  reraise_ValueError
    (_ <- strptime.strptime_dmY v ;; Return (mkField v))%result
    "Invalid date format. Use DD.MM.YYYY".

(** ** Records

    A method is a function of the state of [self] that gives the outcome of
    the call and the state of [self] after it. *)

Record record : Type :=
  mkRecord { name : Field; phones : list Field; birthday : option Field }.

Definition set_phones (ps : list Field) (self : record) : record :=
  mkRecord (name self) ps (birthday self).

Definition set_birthday (b : option Field) (self : record) : record :=
  mkRecord (name self) (phones self) b.

(** [Record(name)] *)
Definition Record_init (n : pystr) : record := mkRecord (Name_init n) [] None.

(** [Record.add_phone] *)
Definition Record_add_phone (phone : pystr) (self : record)
  : result unit * record :=
  match Phone_init phone with
  | Return p => (Return tt, set_phones (phones self ++ [p]) self)
  | Raise e => (Raise e, self)
  end.

(** The loop of [Record.edit_phone]: [rest] are the items of
    [enumerate(self.phones)] still to visit, the first of them at index
    [i]. *)
Fixpoint edit_phone_loop (old_phone new_phone : pystr) (i : nat)
    (rest : list Field) (self : record) : result unit * record :=
  match rest with
  | [] => (Raise (ValueError "Old phone not found."), self)
  | p :: rest' =>
      if str_eqb (value p) old_phone then
        match Phone_init new_phone with
        | Return q => (Return tt, set_phones (<[i := q]> (phones self)) self)
        | Raise e => (Raise e, self)
        end
      else edit_phone_loop old_phone new_phone (S i) rest' self
  end.

(** [Record.edit_phone] *)
Definition Record_edit_phone (old_phone new_phone : pystr) (self : record)
  : result unit * record :=
  edit_phone_loop old_phone new_phone 0 (phones self) self.

(** [Record.find_phone] *)
Definition Record_find_phone (phone : pystr) (self : record) : option Field :=
  find (fun p => str_eqb (value p) phone) (phones self).

(** [Record.add_birthday] *)
Definition Record_add_birthday (birthday_str : pystr) (self : record)
  : result unit * record :=
  match Birthday_init birthday_str with
  | Return b => (Return tt, set_birthday (Some b) self)
  | Raise e => (Raise e, self)
  end.

(** ** The store: record objects and the address book

    Records are objects: the book's dictionary and the local variables of
    the command handlers hold references to them.  The heap only grows;
    [data] is the [dict] of the one [AddressBook], in insertion order. *)

Abbreviation loc := nat.

Abbreviation dict := (list (list N * nat)).

Record state : Type := mkState { heap : list record; data : dict }.

(** [d.get(k)] *)
Fixpoint dict_get (k : pystr) (d : dict) : option loc :=
  match d with
  | [] => None
  | (k', v) :: r => if str_eqb k' k then Some v else dict_get k r
  end.

(** [d[k] = v]: a present key keeps its position, a new key goes last. *)
Fixpoint dict_set (k : pystr) (v : loc) (d : dict) : dict :=
  match d with
  | [] => [(k, v)]
  | (k', v') :: r =>
      if str_eqb k' k then (k', v) :: r else (k', v') :: dict_set k v r
  end.

(** [del d[k]], for a key that is present. *)
Fixpoint dict_del (k : pystr) (d : dict) : dict :=
  match d with
  | [] => []
  | (k', v') :: r => if str_eqb k' k then r else (k', v') :: dict_del k r
  end.

(** [k in d] *)
Definition dict_in (k : pystr) (d : dict) : bool :=
  match dict_get k d with Some _ => true | None => false end.

(** A program runs on a state and ends with a value or an exception, in a
    new state; [None] stands for a dangling reference, which no execution
    of the program reaches. *)
Definition Prog (A : Type) : Type := state -> option (result A * state).

Definition ret {A} (a : A) : Prog A := fun s => Some (Return a, s).

Definition raise {A} (e : exn) : Prog A := fun s => Some (Raise e, s).

Definition bind {A B} (m : Prog A) (k : A -> Prog B) : Prog B :=
  fun s =>
    match m s with
    | Some (Return a, s') => k a s'
    | Some (Raise e, s') => Some (Raise e, s')
    | None => None
    end.

Declare Scope prog_scope.
Delimit Scope prog_scope with prog.
Notation "x <~ c1 ;; c2" := (bind c1 (fun x => c2))
  (at level 100, c1 at next level, right associativity) : prog_scope.
Notation "c1 ;;; c2" := (bind c1 (fun _ => c2))
  (at level 100, right associativity) : prog_scope.

(** Creation of a record object. *)
Definition alloc (r : record) : Prog loc :=
  fun s => Some (Return (length (heap s)), mkState (heap s ++ [r]) (data s)).

(** Reading an object. *)
Definition deref (l : loc) : Prog record :=
  fun s => match heap s !! l with
           | Some r => Some (Return r, s)
           | None => None
           end.

(** A method call on the object at [l]. *)
Definition call {A} (l : loc) (method : record -> result A * record) : Prog A :=
  fun s => match heap s !! l with
           | Some r =>
               let (res, r') := method r in
               Some (res, mkState (<[l := r']> (heap s)) (data s))
           | None => None
           end.

Definition get_data : Prog dict := fun s => Some (Return (data s), s).

Definition put_data (d : dict) : Prog unit :=
  fun s => Some (Return tt, mkState (heap s) d).

(** [AddressBook.add_record] *)
Definition AddressBook_add_record (rec : loc) : Prog unit :=
  (r <~ deref rec ;;
   d <~ get_data ;;
   put_data (dict_set (value (name r)) rec d))%prog.

(** [AddressBook.find] *)
Definition AddressBook_find (n : pystr) : Prog (option loc) :=
  (d <~ get_data ;; ret (dict_get n d))%prog.

(** [AddressBook.delete] *)
Definition AddressBook_delete (n : pystr) : Prog unit :=
  (d <~ get_data ;;
   if dict_in n d then put_data (dict_del n d)
   else raise (KeyError "Contact not found."))%prog.

(** ** The upcoming-birthdays query *)

(** An item of the result: [{"name": ..., "birthday": ...}]. *)
Record entry : Type := mkEntry { entry_name : pystr; entry_birthday : pystr }.

(** The body of the loop of [get_upcoming_birthdays] for one record; the
    result is the list [upcoming] after the iteration. *)
Definition upcoming_body (today : datetime.date) (days : Z) (r : record)
    (upcoming : list entry) : result (list entry) :=
  match birthday r with
  | None => Return upcoming
  | Some b =>
      (bday_date <- strptime.strptime_dmY (value b) ;;
       bday_this_year <- datetime.replace_year bday_date (datetime.year today) ;;
       bday_this_year <-
         (if datetime.lt bday_this_year today
          then datetime.replace_year bday_this_year (datetime.year today + 1)
          else Return bday_this_year) ;;
       let delta_days := datetime.sub_days bday_this_year today in
       if (0 <=? delta_days) && (delta_days <=? days) then
         congrat_date <-
           (if datetime.weekday bday_this_year =? 5
            then datetime.add_days bday_this_year 2
            else if datetime.weekday bday_this_year =? 6
                 then datetime.add_days bday_this_year 1
                 else Return bday_this_year) ;;
         Return (upcoming ++
                   [mkEntry (value (name r)) (datetime.strftime_dmY congrat_date)])
       else Return upcoming)%result
  end.

(** [for record in self.data.values(): ...] *)
Fixpoint upcoming_loop (today : datetime.date) (days : Z) (values : list loc)
    (upcoming : list entry) : Prog (list entry) :=
  match values with
  | [] => ret upcoming
  | l :: values' =>
      (r <~ deref l ;;
       match upcoming_body today days r upcoming with
       | Return upcoming' => upcoming_loop today days values' upcoming'
       | Raise e => raise e
       end)%prog
  end.

(** [AddressBook.get_upcoming_birthdays]; [today] stands for the value of
    [date.today()], and [days = None] for a call without the argument. *)
Definition AddressBook_get_upcoming_birthdays (today : datetime.date)
    (days : option Z) : Prog (list entry) :=
  let days := default 7 days in
  (d <~ get_data ;; upcoming_loop today days (map snd d) [])%prog.

(** ** Command handlers *)

(** [str(e)] for a [KeyError] with one string argument is the [repr] of the
    argument (the messages of the program need no escaping). *)
Definition KeyError_str (msg : string) : pystr :=
  py "'" ++ py msg ++ py "'".

(** The decorator [input_error]. *)
Definition input_error (func : Prog pystr) : Prog pystr :=
  fun s =>
    match func s with
    | Some (Raise (IndexError _), s') =>
        Some (Return (py "Not enough arguments."), s')
    | Some (Raise (KeyError msg), s') =>
        Some (Return (if bool_decide (KeyError_str msg = [])
                      then py "Contact not found." else KeyError_str msg), s')
    | Some (Raise (ValueError msg), s') => Some (Return (py msg), s')
    | o => o
    end.

(** [args[i]] *)
Definition index (args : list pystr) (i : nat) : Prog pystr :=
  match args !! i with
  | Some a => ret a
  | None => raise (IndexError "list index out of range")
  end.

(** [add_contact], before decoration. *)
Definition add_contact_body (args : list pystr) : Prog pystr :=
  (n <~ index args 0 ;;
   phone <~ index args 1 ;;
   found <~ AddressBook_find n ;;
   match found with
   | None =>
       rec <~ alloc (Record_init n) ;;
       AddressBook_add_record rec ;;;
       call rec (Record_add_phone phone) ;;;
       ret (py "Contact added.")
   | Some rec =>
       call rec (Record_add_phone phone) ;;;
       ret (py "Contact updated.")
   end)%prog.

(** [add_contact] *)
Definition add_contact (args : list pystr) : Prog pystr :=
  input_error (add_contact_body args).

(** [change_contact], before decoration. *)
Definition change_contact_body (args : list pystr) : Prog pystr :=
  (n <~ index args 0 ;;
   old_phone <~ index args 1 ;;
   new_phone <~ index args 2 ;;
   found <~ AddressBook_find n ;;
   match found with
   | None => raise (KeyError "Contact not found.")
   | Some rec =>
       call rec (Record_edit_phone old_phone new_phone) ;;;
       ret (py "Phone changed.")
   end)%prog.

(** [change_contact] *)
Definition change_contact (args : list pystr) : Prog pystr :=
  input_error (change_contact_body args).

(** [add_birthday], before decoration. *)
Definition add_birthday_body (args : list pystr) : Prog pystr :=
  (n <~ index args 0 ;;
   birthday_str <~ index args 1 ;;
   found <~ AddressBook_find n ;;
   match found with
   | None => raise (KeyError "Contact not found.")
   | Some rec =>
       call rec (Record_add_birthday birthday_str) ;;;
       ret (py "Birthday added.")
   end)%prog.

(** [add_birthday] *)
Definition add_birthday (args : list pystr) : Prog pystr :=
  input_error (add_birthday_body args).

(** [sep.join(items)] *)
Fixpoint str_join (sep : pystr) (items : list pystr) : pystr :=
  match items with
  | [] => []
  | [x] => x
  | x :: rest => x ++ sep ++ str_join sep rest
  end.

(** [birthdays], before decoration; [today] stands for [date.today()]. *)
Definition birthdays_body (today : datetime.date) (args : list pystr)
  : Prog pystr :=
  (upcoming <~ AddressBook_get_upcoming_birthdays today None ;;
   match upcoming with
   | [] => ret (py "No birthdays in the next 7 days.")
   | _ =>
       ret (str_join [10%N]
              (map (fun item => entry_name item ++ py ": " ++ entry_birthday item)
                 upcoming))
   end)%prog.

(** [birthdays] *)
Definition birthdays (today : datetime.date) (args : list pystr) : Prog pystr :=
  input_error (birthdays_body today args).

(** The state after a sequence of commands, whatever they answer. *)
Fixpoint session (commands : list (Prog pystr)) (s : state) : option state :=
  match commands with
  | [] => Some s
  | c :: commands' =>
      match c s with
      | Some (_, s') => session commands' s'
      | None => None
      end
  end.

(** ** Well-formed states

    The keys of a [dict] are distinct and every reference it holds is
    alive. *)
Definition wf (s : state) : Prop :=
  NoDup (map fst (data s)) /\
  Forall (fun kl => (snd kl < length (heap s))%nat) (data s).

Definition empty_book : state := mkState [] [].

(** The records of the book, in the order of [self.data.values()]. *)
Definition values (s : state) : list record :=
  omap (fun kl => heap s !! snd kl) (data s).

(** * The rest of the program *)

(** ** More of the runtime: white space, [split], [strip], [list.remove] *)

(** Inclusive code-point ranges of the characters for which [str.isspace]
    holds (Unicode 14.0). *)
Definition whitespace_ranges : list (N * N) :=
  [ (9, 13); (28, 32); (133, 133); (160, 160); (5760, 5760); (8192, 8202);
    (8232, 8233); (8239, 8239); (8287, 8287); (12288, 12288) ]%N.

(** [str.isspace] on one character. *)
Definition isspace (c : N) : bool := Unicode.in_ranges whitespace_ranges c.

(** The scan of [s.split()]: [word] is the word being read. *)
Fixpoint split_from (word s : pystr) : list pystr :=
  match s with
  | [] => match word with [] => [] | _ => [word] end
  | c :: r =>
      if isspace c then
        match word with
        | [] => split_from [] r
        | _ => word :: split_from [] r
        end
      else split_from (word ++ [c]) r
  end.

(** [s.split()]: the words of [s] between runs of white space. *)
Definition str_split (s : pystr) : list pystr := split_from [] s.

(** [s.lstrip()] *)
Fixpoint str_lstrip (s : pystr) : pystr :=
  match s with
  | c :: r => if isspace c then str_lstrip r else s
  | [] => []
  end.

(** [s.strip()] *)
Definition str_strip (s : pystr) : pystr :=
  reverse (str_lstrip (reverse (str_lstrip s))).

#[global] Instance Field_eq_dec : EqDecision Field.
Proof. solve_decision. Defined.

(** [l.remove(x)]: the first item equal to [x] goes.  A [Phone] is equal
    to itself only; the methods never store one object twice, so the
    first item identical to [x] is the first item with the value of
    [x]. *)
Fixpoint py_list_remove (x : Field) (l : list Field) : list Field :=
  match l with
  | [] => []
  | y :: l' => if bool_decide (y = x) then l' else y :: py_list_remove x l'
  end.

(** ** The other methods of a record *)

(** The loop of [Record.remove_phone]. *)
Fixpoint remove_phone_loop (phone : pystr) (rest : list Field) (self : record)
  : result unit * record :=
  match rest with
  | [] => (Raise (ValueError "Phone not found."), self)
  | p :: rest' =>
      if str_eqb (value p) phone then
        (Return tt, set_phones (py_list_remove p (phones self)) self)
      else remove_phone_loop phone rest' self
  end.

(** [Record.remove_phone] *)
Definition Record_remove_phone (phone : pystr) (self : record)
  : result unit * record :=
  remove_phone_loop phone (phones self) self.

(** [Record.__str__] *)
Definition Record_str (self : record) : pystr :=
  let phones_text :=
    match phones self with
    | [] => py "No phones"
    | _ => str_join (py "; ") (map value (phones self))
    end in
  let bday :=
    match birthday self with
    | Some b => value b
    | None => py "No birthday"
    end in
  py "Contact name: " ++ value (name self) ++ py ", phones: " ++ phones_text
  ++ py ", birthday: " ++ bday.

(** ** The other command handlers *)

(** The objects behind a list of references. *)
Fixpoint deref_all (ls : list loc) : Prog (list record) :=
  match ls with
  | [] => ret []
  | l :: ls' =>
      (r <~ deref l ;; rs <~ deref_all ls' ;; ret (r :: rs))%prog
  end.

(** [show_phone], before decoration. *)
Definition show_phone_body (args : list pystr) : Prog pystr :=
  (n <~ index args 0 ;;
   found <~ AddressBook_find n ;;
   match found with
   | None => raise (KeyError "Contact not found.")
   | Some rec =>
       r <~ deref rec ;;
       match phones r with
       | [] => ret (py "No phones for this contact.")
       | _ => ret (str_join (py "; ") (map value (phones r)))
       end
   end)%prog.

(** [show_phone] *)
Definition show_phone (args : list pystr) : Prog pystr :=
  input_error (show_phone_body args).

(** [show_all], before decoration. *)
Definition show_all_body : Prog pystr :=
  (d <~ get_data ;;
   match d with
   | [] => ret (py "AddressBook is empty.")
   | _ =>
       rs <~ deref_all (map snd d) ;;
       ret (str_join [10%N] (map Record_str rs))
   end)%prog.

(** [show_all] *)
Definition show_all : Prog pystr := input_error show_all_body.

(** [show_birthday], before decoration. *)
Definition show_birthday_body (args : list pystr) : Prog pystr :=
  (n <~ index args 0 ;;
   found <~ AddressBook_find n ;;
   match found with
   | None => raise (KeyError "Contact not found.")
   | Some rec =>
       r <~ deref rec ;;
       match birthday r with
       | None => ret (py "Birthday is not set.")
       | Some b => ret (value b)
       end
   end)%prog.

(** [show_birthday] *)
Definition show_birthday (args : list pystr) : Prog pystr :=
  input_error (show_birthday_body args).

(** ** The interactive loop *)

(** How a run of [main] ends. *)
Inductive ending : Type :=
| Closed (saved : state)
| Uncaught (e : exn) (book : state)
| EndOfInput (book : state).

Section main.

(** [str.lower], which the Unicode character database and the rule of the
    final sigma determine, is a parameter. *)
Variable lower : pystr -> pystr.

(** [parse_input] *)
Definition parse_input (user_input : pystr) : pystr * list pystr :=
  let parts := str_split user_input in
  let cmd := match parts with p :: _ => lower p | [] => [] end in
  let args := drop 1 parts in
  (cmd, args).

(** The branches of the loop of [main] that print an answer; [today]
    stands for [date.today()]. *)
Definition main_command (today : datetime.date) (command : pystr)
    (args : list pystr) : Prog pystr :=
  if str_eqb command (py "hello") then ret (py "How can I help you?")
  else if str_eqb command (py "add") then add_contact args
  else if str_eqb command (py "change") then change_contact args
  else if str_eqb command (py "phone") then show_phone args
  else if str_eqb command (py "all") then show_all
  else if str_eqb command (py "add-birthday") then add_birthday args
  else if str_eqb command (py "show-birthday") then show_birthday args
  else if str_eqb command (py "birthdays") then birthdays today args
  else ret (py "Invalid command.").

(** The loop of [main] on the lines that [input] returns, each with the
    date of the day when it is read; [printed] are the texts given to
    [print] so far (the prompt of [input] is not among them).  The loop
    ends at [close] or [exit], where [save_data] receives the book, with
    an exception that no handler catches, or with the [EOFError] of
    [input] when the lines are exhausted. *)
Fixpoint main_loop (inputs : list (pystr * datetime.date))
    (printed : list pystr) (book : state) : option (list pystr * ending) :=
  match inputs with
  | [] => Some (printed, EndOfInput book)
  | (line, today) :: inputs' =>
      let user_input := str_strip line in
      let '(command, args) := parse_input user_input in
      if str_eqb command (py "close") || str_eqb command (py "exit") then
        Some (printed ++ [py "Good bye!"], Closed book)
      else
        match main_command today command args book with
        | Some (Return answer, book') =>
            main_loop inputs' (printed ++ [answer]) book'
        | Some (Raise e, book') => Some (printed, Uncaught e book')
        | None => None
        end
  end.

(** [main], after [load_data] has returned [book]. *)
Definition main (book : state) (inputs : list (pystr * datetime.date))
  : option (list pystr * ending) :=
  main_loop inputs [py "Welcome to the assistant bot!"] book.

End main.

(** * The statements: predicates and sample data *)

(** ** Validators *)

(** The condition under which [Phone] accepts its argument. *)
Definition ten_digits (raw : pystr) : Prop :=
  Forall (fun c => Unicode.isdigit c = true) raw /\ length raw = 10%nat.

(** The reading of C4 as the specification words it: the accepted strings
    are those of ten decimal digit characters. *)
Definition only_decimal_digits (raw : pystr) : Prop :=
  Forall (fun c => Unicode.isdecimal c = true) raw /\ length raw = 10%nat.

(** Ten times SUPERSCRIPT TWO (U+00B2). *)
Definition superscript_twos : pystr := repeat 178%N 10.

(** The exact pattern DD.MM.YYYY: ten characters, all of them decimal
    digits but the two dots. *)
Definition exact_DD_MM_YYYY (raw : pystr) : bool :=
  match raw with
  | [d1; d2; p1; m1; m2; p2; y1; y2; y3; y4] =>
      forallb Unicode.isdecimal [d1; d2; m1; m2; y1; y2; y3; y4]
      && (p1 =? 46)%N && (p2 =? 46)%N
  | _ => false
  end.

Definition invalid_date_format : exn :=
  ValueError "Invalid date format. Use DD.MM.YYYY".

Definition old_phone_not_found : exn := ValueError "Old phone not found.".

(** ** The text of a date *)

Definition ascii_digit_char (k : Z) : N := Z.to_N (48 + k).

(** The two digits of a number below 100. *)
Definition two_digits (k : Z) : pystr :=
  [ascii_digit_char (k / 10); ascii_digit_char (k mod 10)].

(** The text DD.MM.YYYY of a date. *)
Definition text_DD_MM_YYYY (d m y : Z) : pystr :=
  two_digits d ++ strptime.dot ::
  two_digits m ++ strptime.dot ::
  [ascii_digit_char (y / 1000); ascii_digit_char (y / 100 mod 10);
   ascii_digit_char (y / 10 mod 10); ascii_digit_char (y mod 10)].

(** [s] is the text DD.MM.YYYY of the date [g]: two digits for the day, two
    for the month, four for the year, with dots between them. *)
Definition DD_MM_YYYY (s : pystr) (g : datetime.date) : Prop :=
  exists d1 d2 m1 m2 y1 y2 y3 y4 : Z,
    Forall (fun k => 0 <= k <= 9) [d1; d2; m1; m2; y1; y2; y3; y4] /\
    s = [Z.to_N (48 + d1); Z.to_N (48 + d2); 46%N;
         Z.to_N (48 + m1); Z.to_N (48 + m2); 46%N;
         Z.to_N (48 + y1); Z.to_N (48 + y2); Z.to_N (48 + y3);
         Z.to_N (48 + y4)] /\
    datetime.day g = 10 * d1 + d2 /\
    datetime.month g = 10 * m1 + m2 /\
    datetime.year g = 1000 * y1 + 100 * y2 + 10 * y3 + y4.

(** ** States *)

(** The references of the book are alive. *)
Definition alive (s : state) : Prop :=
  Forall (fun kl => is_Some (heap s !! snd kl)) (data s).

(** The state after [record = Record(name); book.add_record(record)] for a
    name that is not a key of the book. *)
Definition with_new_record (n : pystr) (r : record) (s : state) : state :=
  mkState (heap s ++ [r]) (data s ++ [(n, length (heap s))]).

(** ** The upcoming-birthdays rule, in the words of the specification *)

Module Spec.

Import datetime.

(** The birthday's (day, month) combined with today's year, replaced by
    the same (day, month) in the next year when that date is strictly
    earlier than today. *)
Definition thisYearBirthday (today bday : date) : date :=
  let this := mkdate (year today) (month bday) (day bday) in
  if lt this today then mkdate (year today + 1) (month bday) (day bday)
  else this.

Definition deltaDays (today bday : date) : Z :=
  toordinal (thisYearBirthday today bday) - toordinal today.

Definition in_window (today : date) (windowDays : Z) (bday : date) : bool :=
  (0 <=? deltaDays today bday) && (deltaDays today bday <=? windowDays).

(** Two days forward from a Saturday, one from a Sunday. *)
Definition shift (d : date) : Z :=
  if weekday d =? 5 then 2 else if weekday d =? 6 then 1 else 0.

(** The stored birthday of a record, as a date. *)
Definition birthday_of (r : record) : option date :=
  match birthday r with
  | Some b =>
      match strptime.strptime_dmY (value b) with
      | Return d => Some d
      | Raise _ => None
      end
  | None => None
  end.

Definition included (today : date) (windowDays : Z) (r : record) : bool :=
  match birthday_of r with
  | Some bday => in_window today windowDays bday
  | None => false
  end.

(** The greeting date: two days forward from a Saturday, one day forward
    from a Sunday, the date itself otherwise. *)
Definition greetingDate (d : date) : date :=
  if weekday d =? 5 then fromordinal (toordinal d + 2)
  else if weekday d =? 6 then fromordinal (toordinal d + 1)
  else d.

(** The item emitted for a record, if any. *)
Definition item (today : date) (windowDays : Z) (r : record) : option entry :=
  match birthday_of r with
  | Some bday =>
      if in_window today windowDays bday then
        Some (mkEntry (value (name r))
                (strftime_dmY (greetingDate (thisYearBirthday today bday))))
      else None
  | None => None
  end.

(** The dates that the query needs for a record exist: the birthday in
    today's year, in the next year when it has passed, and the greeting
    date when the birthday is in the window. *)
Definition computable (today : date) (windowDays : Z) (r : record) : Prop :=
  match birthday r with
  | None => True
  | Some b =>
      exists bday,
        strptime.strptime_dmY (value b) = Return bday /\
        valid (mkdate (year today) (month bday) (day bday)) /\
        valid (thisYearBirthday today bday) /\
        (in_window today windowDays bday = true ->
         toordinal (thisYearBirthday today bday)
         + shift (thisYearBirthday today bday) <= MAXORDINAL)
  end.

End Spec.

(** [g] is the greeting date for the birthday [b]: the date two days after
    a Saturday, one day after a Sunday (a Monday in both cases), and [b]
    itself on the other days of the week. *)
Definition greeting_rule (b g : datetime.date) : Prop :=
  datetime.valid g /\
  (datetime.weekday b = 5 ->
   datetime.toordinal g = datetime.toordinal b + 2 /\ datetime.weekday g = 0) /\
  (datetime.weekday b = 6 ->
   datetime.toordinal g = datetime.toordinal b + 1 /\ datetime.weekday g = 0) /\
  (datetime.weekday b <> 5 -> datetime.weekday b <> 6 -> g = b).

(** What the query emits for an included record [r]: the name of the
    record and the text of the greeting date of its birthday. *)
Definition emitted (today : datetime.date) (r : record) (e : entry) : Prop :=
  entry_name e = value (name r) /\
  exists bday g,
    Spec.birthday_of r = Some bday /\
    greeting_rule (Spec.thisYearBirthday today bday) g /\
    entry_birthday e = datetime.strftime_dmY g /\
    DD_MM_YYYY (entry_birthday e) g /\
    strptime.strptime_dmY (entry_birthday e) = Return g.

(** The birthday stored in a record has passed the validation of
    [Birthday] and is not 29 February. *)
Definition plain_birthday (r : record) : Prop :=
  forall b, birthday r = Some b ->
    exists bday,
      strptime.strptime_dmY (value b) = Return bday /\
      ~ (datetime.month bday = 2 /\ datetime.day bday = 29).

(** ** Sample data *)

Definition record_1111 : record :=
  mkRecord (mkField (py "Ann")) [mkField (py "1111111111")] None.

Definition book_ann_bob : state :=
  mkState [Record_init (py "Ann"); Record_init (py "Bob")]
          [(py "Ann", 0%nat); (py "Bob", 1%nat)].

Definition book_alice : state :=
  mkState [mkRecord (mkField (py "Alice")) [mkField (py "1234567890")] None]
          [(py "Alice", 0%nat)].

Definition book_zed_bob : state :=
  mkState
    [mkRecord (mkField (py "Zed")) [mkField (py "5550000001")]
       (Some (mkField (py "14.06.1990")));
     mkRecord (mkField (py "Eve")) [mkField (py "5550000002")] None;
     mkRecord (mkField (py "Bob")) [mkField (py "5550000003")]
       (Some (mkField (py "12.06.2020")))]
    [(py "Zed", 0%nat); (py "Eve", 1%nat); (py "Bob", 2%nat)].

Definition record_bob : record :=
  mkRecord (mkField (py "Bob")) [mkField (py "1234567890")]
    (Some (mkField (py "15.06.2020"))).

Definition record_ann : record :=
  mkRecord (mkField (py "Ann")) [mkField (py "0987654321")]
    (Some (mkField (py "29.02.2020"))).

Definition book_bob : state := mkState [record_bob] [(py "Bob", 0%nat)].

Definition book_bob_ann : state :=
  mkState [record_bob; record_ann] [(py "Bob", 0%nat); (py "Ann", 1%nat)].

(** ** Devices of the proofs about the calendar *)

Module datetime_aux.

Import datetime.

(** The month and the day of [ord2ymd], for the offset [n] of the day in
    its year. *)
Definition month_day (leapyear : bool) (n : Z) : Z * Z :=
  let m := Z.shiftr (n + 50) 5 in
  let preceding :=
    at_month DAYS_BEFORE_MONTH m + (if (2 <? m) && leapyear then 1 else 0) in
  if n <? preceding then
    let m := m - 1 in
    let preceding :=
      preceding
      - (at_month DAYS_IN_MONTH m + (if (m =? 2) && leapyear then 1 else 0)) in
    (m, n - preceding + 1)
  else (m, n - preceding + 1).

Definition dim (leapyear : bool) (m : Z) : Z :=
  if (m =? 2) && leapyear then 29 else at_month DAYS_IN_MONTH m.

Definition dbm (leapyear : bool) (m : Z) : Z :=
  at_month DAYS_BEFORE_MONTH m + (if (2 <? m) && leapyear then 1 else 0).

Definition month_day_ok (leapyear : bool) (n : Z) : bool :=
  let '(m, d) := month_day leapyear n in
  (1 <=? m) && (m <=? 12) && (1 <=? d) && (d <=? dim leapyear m) &&
  (dbm leapyear m + d =? n + 1).

End datetime_aux.

(** Evaluation of the month tables at a literal month. *)
Ltac eval_tables :=
  repeat match goal with
         | |- context [datetime.at_month ?t ?k] =>
             let v := eval vm_compute in (datetime.at_month t k) in
             progress change (datetime.at_month t k) with v
         | H : context [datetime.at_month ?t ?k] |- _ =>
             let v := eval vm_compute in (datetime.at_month t k) in
             progress change (datetime.at_month t k) with v in H
         end.

(** ** Invariants of records and of the book *)

(** What the methods keep true of a record: every phone has passed the
    validation of [Phone], and the birthday, if any, that of [Birthday]. *)
Definition record_ok (r : record) : Prop :=
  Forall (fun p => ten_digits (value p)) (phones r) /\
  (forall b, birthday r = Some b ->
             exists d, strptime.strptime_dmY (value b) = Return d).

(** What the command handlers keep true of the book: the keys are distinct,
    and each key is the name of the record it leads to, which is alive and
    satisfies [record_ok]. *)
Definition good (s : state) : Prop :=
  NoDup (map fst (data s)) /\
  Forall (fun kl => exists r, heap s !! snd kl = Some r /\
                              value (name r) = fst kl /\ record_ok r)
    (data s).

(** The names of the contacts, in the order of the book. *)
Definition names (s : state) : list pystr := map fst (data s).

(** ** Further predicates and sample data *)

(** A record that stores one phone number twice. *)
Definition record_three_phones : record :=
  mkRecord (mkField (py "Ann"))
    [mkField (py "1111111111"); mkField (py "2222222222");
     mkField (py "1111111111")] None.

(** The answer to a command about a contact that the book does not have:
    the text of [str(KeyError("Contact not found."))], quotes included. *)
Definition contact_not_found_answer : pystr := py "'Contact not found.'".

(** The query can handle the birthday of [r]: when it is a 29 February,
    today's year is a leap year and its 29 February has not passed. *)
Definition leap_day_ok (today : datetime.date) (r : record) : Prop :=
  forall bday,
    Spec.birthday_of r = Some bday ->
    datetime.month bday = 2 -> datetime.day bday = 29 ->
    datetime.is_leap (datetime.year today) = true /\
    datetime.lt (datetime.mkdate (datetime.year today) 2 29) today = false.

(** From [s] to [s'] no contact is lost and the order of the contacts
    stays: the names are the same, or one new name has come last. *)
Definition keeps_contacts (s s' : state) : Prop :=
  names s' = names s \/ exists n, (n ∉ names s) /\ names s' = names s ++ [n].

(** What a command about the name [n] may do to the state: nothing, a
    change of the record of [n], or a new record stored under [n]. *)
Inductive touches (n : pystr) (s : state) : state -> Prop :=
| touches_same : touches n s s
| touches_update (l : loc) (r' : record) :
    dict_get n (data s) = Some l ->
    touches n s (mkState (<[l := r']> (heap s)) (data s))
| touches_new (r : record) :
    dict_get n (data s) = None -> touches n s (with_new_record n r s).

(** A word: a text that is not empty and has no white space. *)
Definition word (w : pystr) : Prop :=
  w <> [] /\ Forall (fun c => isspace c = false) w.

(** A text of white space only. *)
Definition blank (s : pystr) : Prop := Forall (fun c => isspace c = true) s.

(** [str.lower] on a text in ASCII. *)
Definition ascii_lower (s : pystr) : pystr :=
  map (fun c => if (65 <=? c) && (c <=? 90) then c + 32 else c)%N s.

(** The words that [main] takes for commands. *)
Definition commands : list pystr :=
  [py "close"; py "exit"; py "hello"; py "add"; py "change"; py "phone";
   py "all"; py "add-birthday"; py "show-birthday"; py "birthdays"].

(** The command of a line, as [main] reads it. *)
Definition command_of (lower : pystr -> pystr) (line : pystr) : pystr :=
  fst (parse_input lower (str_strip line)).

(** The line ends the loop. *)
Definition closes (lower : pystr -> pystr) (line : pystr) : Prop :=
  command_of lower line = py "close" \/ command_of lower line = py "exit".

(** * Properties *)

(** ** Phone validation *)

Lemma str_isdigit_spec (s : pystr) :
  str_isdigit s = true <->
  s <> [] /\ Forall (fun c => Unicode.isdigit c = true) s.
Proof.
  unfold str_isdigit.
  rewrite andb_true_iff, negb_true_iff, bool_decide_eq_false.
  rewrite forallb_forall, Forall_forall.
  split; intros [Hne Hall]; split; auto; intros c Hc; apply Hall.
  - by apply list_elem_of_In.
  - by apply list_elem_of_In.
Qed.

Lemma ascii_digit_isdigit (c : N) :
  Unicode.is_ascii_digit c = true -> Unicode.isdigit c = true.
Proof.
  unfold Unicode.is_ascii_digit, Unicode.isdigit, Unicode.isdecimal.
  intros H. apply orb_true_iff. left.
  unfold Unicode.in_ranges, Unicode.decimal_ranges.
  cbn [existsb]. apply orb_true_iff. left. exact H.
Qed.

Lemma Phone_init_accepts (raw : pystr) :
  ten_digits raw -> Phone_init raw = Return (mkField raw).
Proof.
  intros [Hall Hlen]. unfold Phone_init.
  assert (str_isdigit raw = true) as ->.
  { apply str_isdigit_spec. split; [|done]. intros ->. discriminate. }
  by rewrite bool_decide_true.
Qed.

Lemma Phone_init_rejects (raw : pystr) :
  ~ ten_digits raw ->
  Phone_init raw =
    Raise (ValueError "Phone number must contain exactly 10 digits.").
Proof.
  intros Hn. unfold Phone_init.
  destruct (str_isdigit raw) eqn:Hd; [|done].
  destruct (bool_decide (length raw = 10%nat)) eqn:Hl; [|done].
  exfalso. apply Hn. apply bool_decide_eq_true in Hl.
  apply str_isdigit_spec in Hd as [_ Hall]. by split.
Qed.

Lemma ten_digits_dec (raw : pystr) : {ten_digits raw} + {~ ten_digits raw}.
Proof.
  unfold ten_digits.
  destruct (decide (Forall (fun c => Unicode.isdigit c = true) raw));
    destruct (decide (length raw = 10%nat)); tauto.
Defined.

Lemma Phone_init_inv (raw : pystr) (p : Field) :
  Phone_init raw = Return p -> p = mkField raw /\ ten_digits raw.
Proof.
  intros H. destruct (ten_digits_dec raw) as [Hd|Hd].
  - rewrite (Phone_init_accepts _ Hd) in H. by inversion H.
  - rewrite (Phone_init_rejects _ Hd) in H. discriminate.
Qed.

(** C4, counterexample: [Phone] accepts ten superscript twos, which
    [str.isdigit] counts as digits although none of them is a decimal digit
    character, in ASCII or elsewhere. *)
Lemma C4_superscript_accepted :
  ~ ((exists p, Phone_init superscript_twos = Return p) <->
     only_decimal_digits superscript_twos).
Proof.
  intros [H _].
  destruct H as [Hall _]; [by eexists|].
  inversion Hall as [|c l Hc _]; subst. vm_compute in Hc. discriminate.
Qed.

(** C4, amended: [Phone(raw)] succeeds exactly when every character of
    [raw] is a digit in the sense of [str.isdigit] and [raw] has ten
    characters; the ASCII strings of ten digits are among them; on success
    the stored string is [raw], unchanged, and every failure is the
    [ValueError] with the message of the program. *)
Theorem C4_Phone_validation (raw : pystr) :
  ((exists p, Phone_init raw = Return p) <-> ten_digits raw) /\
  (forall p, Phone_init raw = Return p -> value p = raw /\ Field_str p = raw) /\
  ((forall p, Phone_init raw <> Return p) ->
   Phone_init raw =
     Raise (ValueError "Phone number must contain exactly 10 digits.")) /\
  (Forall (fun c => Unicode.is_ascii_digit c = true) raw ->
   length raw = 10%nat -> Phone_init raw = Return (mkField raw)).
Proof.
  split; [split|split; [|split]].
  - intros [p Hp]. by apply Phone_init_inv in Hp as [_ ?].
  - intros Hd. eexists. by apply Phone_init_accepts.
  - intros p Hp. by apply Phone_init_inv in Hp as [-> _].
  - intros Hno. apply Phone_init_rejects. intros Hd.
    eapply Hno. by apply Phone_init_accepts.
  - intros Hall Hlen. apply Phone_init_accepts. split; [|done].
    eapply Forall_impl; [exact Hall|]. apply ascii_digit_isdigit.
Qed.

(** ** The calendar: ordinals and dates *)

Module datetime_facts.

Import datetime datetime_aux.

Lemma month_day_table :
  forallb (fun k => month_day_ok true (Z.of_nat k) &&
                    month_day_ok false (Z.of_nat k)) (seq 0 365) = true.
Proof. vm_compute. reflexivity. Qed.

Lemma month_day_spec (leapyear : bool) (n : Z) :
  0 <= n < 365 ->
  let '(m, d) := month_day leapyear n in
  1 <= m <= 12 /\ 1 <= d <= dim leapyear m /\ dbm leapyear m + d = n + 1.
Proof.
  intros Hn.
  pose proof month_day_table as H.
  rewrite forallb_forall in H.
  specialize (H (Z.to_nat n)).
  rewrite Z2Nat.id in H by lia.
  assert (In (Z.to_nat n) (seq 0 365)) as Hin by (apply in_seq; lia).
  apply H in Hin. apply andb_true_iff in Hin as [Ht Hf].
  assert (month_day_ok leapyear n = true) as Hok by (by destruct leapyear).
  unfold month_day_ok in Hok. destruct (month_day leapyear n) as [m d].
  repeat (apply andb_true_iff in Hok as [Hok ?]). lia.
Qed.

(** The decomposition of an ordinal into cycles of 400, 100, 4 and 1
    years. *)
Lemma cycles (n : Z) :
  1 <= n <= MAXORDINAL ->
  let n0 := n - 1 in
  let n400 := n0 / DI400Y in
  let r400 := n0 mod DI400Y in
  let n100 := r400 / DI100Y in
  let r100 := r400 mod DI100Y in
  let n4 := r100 / DI4Y in
  let r4 := r100 mod DI4Y in
  let n1 := r4 / 365 in
  let r1 := r4 mod 365 in
  n0 = n400 * 146097 + n100 * 36524 + n4 * 1461 + n1 * 365 + r1 /\
  0 <= n400 <= 24 /\ 0 <= n100 <= 4 /\ 0 <= n4 <= 24 /\ 0 <= n1 <= 4 /\
  0 <= r1 < 365 /\
  (n100 = 4 -> n4 = 0 /\ n1 = 0 /\ r1 = 0 /\ n400 <= 23) /\
  (n1 = 4 -> r1 = 0 /\ n4 <= 23) /\
  n400 * 400 + n100 * 100 + n4 * 4 + n1 <= 9999 /\
  (n1 <> 4 -> n100 <> 4 -> n400 * 400 + n100 * 100 + n4 * 4 + n1 <= 9998).
Proof.
  unfold MAXORDINAL, DI400Y, DI100Y, DI4Y. intros Hn. cbv zeta.
  repeat split; Z.div_mod_to_equations; lia.
Qed.

Ltac zbool :=
  repeat match goal with
         | |- context [?a =? ?b] => destruct (Z.eqb_spec a b)
         | |- context [?a <? ?b] => destruct (Z.ltb_spec a b)
         | |- context [?a <=? ?b] => destruct (Z.leb_spec a b)
         end.

Lemma is_leap_cycles (n400 n100 n4 n1 : Z) :
  0 <= n400 -> 0 <= n100 <= 3 -> 0 <= n4 <= 24 -> 0 <= n1 <= 3 ->
  is_leap (n400 * 400 + 1 + n100 * 100 + n4 * 4 + n1) =
    (n1 =? 3) && (negb (n4 =? 24) || (n100 =? 3)).
Proof.
  intros. unfold is_leap. zbool; cbn; try reflexivity; exfalso;
    Z.div_mod_to_equations; lia.
Qed.

Lemma days_before_year_cycles (n400 n100 n4 n1 : Z) :
  0 <= n400 -> 0 <= n100 <= 3 -> 0 <= n4 <= 24 -> 0 <= n1 <= 3 ->
  days_before_year (n400 * 400 + 1 + n100 * 100 + n4 * 4 + n1) =
    n400 * 146097 + n100 * 36524 + n4 * 1461 + n1 * 365.
Proof.
  intros. unfold days_before_year. cbv zeta.
  set (y := n400 * 400 + 1 + n100 * 100 + n4 * 4 + n1 - 1).
  assert (y / 4 = n400 * 100 + n100 * 25 + n4) as ->
      by (subst y; Z.div_mod_to_equations; lia).
  assert (y / 100 = n400 * 4 + n100) as ->
      by (subst y; Z.div_mod_to_equations; lia).
  assert (y / 400 = n400) as ->
      by (subst y; Z.div_mod_to_equations; lia).
  subst y. lia.
Qed.

(** The last day of a leap year. *)
Lemma last_day_leap (y : Z) :
  is_leap y = true ->
  days_in_month y 12 = 31 /\
  ymd2ord y 12 31 = days_before_year y + 366.
Proof.
  intros Hl. unfold ymd2ord, days_before_month, days_in_month. rewrite Hl.
  change (at_month DAYS_BEFORE_MONTH 12) with 334.
  change (at_month DAYS_IN_MONTH 12) with 31.
  change (12 =? 2) with false. change (2 <? 12) with true.
  cbn [andb]. split; [reflexivity|lia].
Qed.

Theorem ord2ymd_spec (n : Z) :
  1 <= n <= MAXORDINAL ->
  valid (ord2ymd n) /\ toordinal (ord2ymd n) = n.
Proof.
  intros Hn. pose proof (cycles n Hn) as H. cbv zeta in H.
  unfold ord2ymd. cbv zeta.
  set (n400 := (n - 1) / DI400Y) in *.
  set (r400 := (n - 1) mod DI400Y) in *.
  set (n100 := r400 / DI100Y) in *.
  set (r100 := r400 mod DI100Y) in *.
  set (n4 := r100 / DI4Y) in *.
  set (r4 := r100 mod DI4Y) in *.
  set (n1 := r4 / 365) in *.
  set (r1 := r4 mod 365) in *.
  destruct H as (Hdec & H400 & H100 & H4 & H1 & Hr1 & Hc100 & Hc1 & Hy & Hy').
  clearbody n400 r400 n100 r100 n4 r4 n1 r1.
  destruct ((n1 =? 4) || (n100 =? 4)) eqn:E.
  - (* the last day of a cycle of 4 or of 400 years *)
    apply orb_true_iff in E.
    assert (exists m100 m4,
               0 <= m100 <= 3 /\ 0 <= m4 <= 24 /\
               n400 * 400 + 1 + n100 * 100 + n4 * 4 + n1 - 1 =
                 n400 * 400 + 1 + m100 * 100 + m4 * 4 + 3 /\
               (negb (m4 =? 24) || (m100 =? 3)) = true /\
               n - 1 = n400 * 146097 + m100 * 36524 + m4 * 1461 + 3 * 365 + 365)
      as (m100 & m4 & Hm100 & Hm4 & -> & Hl & Hn').
    { destruct (Z.eqb_spec n100 4) as [E100|E100].
      - destruct (Hc100 E100) as (-> & -> & -> & ?). subst n100.
        exists 3, 24. repeat split; try lia; try reflexivity.
      - destruct E as [E|E]; [|discriminate].
        apply Z.eqb_eq in E. destruct (Hc1 E) as (-> & ?). subst n1.
        exists n100, n4.
        assert (negb (n4 =? 24) = true) as ->
            by (apply negb_true_iff, Z.eqb_neq; lia).
        repeat split; lia. }
    assert (is_leap (n400 * 400 + 1 + m100 * 100 + m4 * 4 + 3) = true) as Hleap.
    { rewrite is_leap_cycles by lia. by rewrite Hl. }
    destruct (last_day_leap _ Hleap) as [Hdim Hord].
    unfold valid, toordinal. cbn [year month day].
    rewrite Hdim, Hord, days_before_year_cycles by lia.
    unfold MINYEAR, MAXYEAR. lia.
  - apply orb_false_iff in E as [E1 E100].
    apply Z.eqb_neq in E1, E100.
    set (leapyear := (n1 =? 3) && (negb (n4 =? 24) || (n100 =? 3))).
    pose proof (month_day_spec leapyear r1 Hr1) as Hmd.
    unfold month_day in Hmd. cbv zeta in Hmd.
    assert (is_leap (n400 * 400 + 1 + n100 * 100 + n4 * 4 + n1) = leapyear)
      as Hleap by (apply is_leap_cycles; lia).
    pose proof (days_before_year_cycles n400 n100 n4 n1) as Hdby.
    destruct (r1 <? _); unfold valid, toordinal, ymd2ord, days_in_month,
      days_before_month; cbn [year month day]; rewrite Hleap;
      unfold dim, dbm in Hmd; unfold MINYEAR, MAXYEAR; lia.
Qed.


Lemma month_cases (m : Z) :
  1 <= m <= 12 ->
  m = 1 \/ m = 2 \/ m = 3 \/ m = 4 \/ m = 5 \/ m = 6 \/
  m = 7 \/ m = 8 \/ m = 9 \/ m = 10 \/ m = 11 \/ m = 12.
Proof. lia. Qed.

(** The day of the year of a valid date. *)
Lemma day_of_year_bounds (y m d : Z) :
  1 <= m <= 12 -> 1 <= d <= days_in_month y m ->
  1 <= days_before_month y m + d <= 365 + (if is_leap y then 1 else 0).
Proof.
  intros Hm Hd. unfold days_before_month, days_in_month in *.
  destruct (month_cases m Hm) as
    [->|[->|[->|[->|[->|[->|[->|[->|[->|[->|[->| ->]]]]]]]]]]];
    destruct (is_leap y); eval_tables; cbn in *; lia.
Qed.

Lemma toordinal_bounds (d : date) :
  valid d -> 1 <= toordinal d <= MAXORDINAL.
Proof.
  intros (Hy & Hm & Hd). unfold toordinal, ymd2ord.
  pose proof (day_of_year_bounds _ _ _ Hm Hd) as Hdoy.
  assert (0 <= days_before_year (year d) /\
          days_before_year (year d) + 365
          + (if is_leap (year d) then 1 else 0) <= MAXORDINAL) as Hdby.
  { unfold days_before_year, is_leap, MINYEAR, MAXYEAR, MAXORDINAL in *.
    cbv zeta.
    destruct (Z.eqb_spec (year d mod 4) 0); cbn [andb];
      [destruct (negb _ || _)|]; Z.div_mod_to_equations; lia. }
  lia.
Qed.

Lemma toordinal_pos (d : date) : valid d -> 1 <= toordinal d.
Proof. intros H. by apply toordinal_bounds. Qed.

End datetime_facts.

Import datetime_facts.

Lemma new_raises (y m d : Z) (e : exn) :
  datetime.new y m d = Raise e -> exists msg, e = ValueError msg.
Proof.
  unfold datetime.new. intros H.
  repeat match type of H with
         | (if ?b then _ else _) = _ => destruct b
         end; inversion H; eauto.
Qed.

Lemma new_Return (y m d : Z) (x : datetime.date) :
  datetime.new y m d = Return x <->
  x = datetime.mkdate y m d /\ datetime.valid x.
Proof.
  unfold datetime.new, datetime.valid.
  destruct (_ && _) eqn:Hy; cbn [negb].
  2:{ split; [discriminate|]. intros [-> H]. cbn in H.
      apply andb_false_iff in Hy. unfold datetime.MINYEAR, datetime.MAXYEAR in *.
      lia. }
  destruct ((1 <=? m) && _) eqn:Hm; cbn [negb].
  2:{ split; [discriminate|]. intros [-> H]. cbn in H.
      apply andb_false_iff in Hm. lia. }
  destruct ((1 <=? d) && _) eqn:Hd; cbn [negb].
  2:{ split; [discriminate|]. intros [-> H]. cbn in H.
      apply andb_false_iff in Hd. lia. }
  apply andb_true_iff in Hy, Hm, Hd.
  split.
  - intros [= <-]. split; [done|]. cbn.
    unfold datetime.MINYEAR, datetime.MAXYEAR in *. lia.
  - by intros [-> _].
Qed.

Lemma new_valid (y m d : Z) :
  datetime.valid (datetime.mkdate y m d) ->
  datetime.new y m d = Return (datetime.mkdate y m d).
Proof. intros H. by apply new_Return. Qed.

Lemma replace_year_Return (d : datetime.date) (y : Z) (d' : datetime.date) :
  datetime.replace_year d y = Return d' <->
  d' = datetime.mkdate y (datetime.month d) (datetime.day d) /\
  datetime.valid d'.
Proof. unfold datetime.replace_year. apply new_Return. Qed.

Lemma add_days_Return (d g : datetime.date) (k : Z) :
  datetime.add_days d k = Return g <->
  g = datetime.fromordinal (datetime.toordinal d + k) /\
  0 < datetime.toordinal d + k <= datetime.MAXORDINAL.
Proof.
  unfold datetime.add_days. cbv zeta.
  destruct (Z.ltb_spec 0 (datetime.toordinal d + k));
    destruct (Z.leb_spec (datetime.toordinal d + k) datetime.MAXORDINAL);
    cbn [andb].
  - split; [intros [= <-]; split; [done|lia]|by intros [-> _]].
  - split; [done|lia].
  - split; [done|lia].
  - split; [done|lia].
Qed.

Lemma days_in_month_le_31 (y m : Z) :
  1 <= m <= 12 -> datetime.days_in_month y m <= 31.
Proof.
  intros Hm. unfold datetime.days_in_month.
  destruct (month_cases m Hm) as
    [->|[->|[->|[->|[->|[->|[->|[->|[->|[->|[->| ->]]]]]]]]]]];
    destruct (datetime.is_leap y); eval_tables; cbn; lia.
Qed.

(** A date that is not 29 February exists in every year. *)
Lemma valid_other_year (d : datetime.date) (y : Z) :
  datetime.valid d ->
  ~ (datetime.month d = 2 /\ datetime.day d = 29) ->
  datetime.MINYEAR <= y <= datetime.MAXYEAR ->
  datetime.valid (datetime.mkdate y (datetime.month d) (datetime.day d)).
Proof.
  intros (_ & Hm & Hd) Hleap Hy. unfold datetime.valid. cbn.
  split; [done|]. split; [done|].
  unfold datetime.days_in_month in *.
  destruct (month_cases _ Hm) as
    [E|[E|[E|[E|[E|[E|[E|[E|[E|[E|[E|E]]]]]]]]]]]; rewrite E in Hd |- *;
    destruct (datetime.is_leap (datetime.year d));
    destruct (datetime.is_leap y); eval_tables; cbn in *; lia.
Qed.

(** A date before the last year of the calendar is at least a year away
    from its end. *)
Lemma toordinal_room (d : datetime.date) :
  datetime.valid d -> datetime.year d <= 9998 ->
  datetime.toordinal d + 365 <= datetime.MAXORDINAL.
Proof.
  intros (Hy & Hm & Hd) Hy'. unfold datetime.toordinal, datetime.ymd2ord.
  pose proof (day_of_year_bounds _ _ _ Hm Hd) as Hdoy.
  assert (datetime.days_before_year (datetime.year d) + 365
          + (if datetime.is_leap (datetime.year d) then 1 else 0) + 365
          <= datetime.MAXORDINAL) as Hdby.
  { unfold datetime.days_before_year, datetime.is_leap, datetime.MINYEAR,
      datetime.MAXORDINAL in *.
    cbv zeta.
    destruct (Z.eqb_spec (datetime.year d mod 4) 0); cbn [andb];
      [destruct (negb _ || _)|]; Z.div_mod_to_equations; lia. }
  lia.
Qed.

(** ** The order of the dates is the order of their ordinals *)

Lemma days_before_year_step (y : Z) :
  1 <= y ->
  datetime.days_before_year (y + 1) =
    datetime.days_before_year y + 365 + (if datetime.is_leap y then 1 else 0).
Proof.
  intros Hy. unfold datetime.days_before_year, datetime.is_leap. cbv zeta.
  destruct (Z.eqb_spec (y mod 4) 0); destruct (Z.eqb_spec (y mod 100) 0);
    destruct (Z.eqb_spec (y mod 400) 0); cbn;
    Z.div_mod_to_equations; lia.
Qed.

Lemma days_before_year_mono (y1 y2 : Z) :
  1 <= y1 <= y2 ->
  datetime.days_before_year y1 <= datetime.days_before_year y2.
Proof.
  intros Hy. unfold datetime.days_before_year. cbv zeta.
  Z.div_mod_to_equations. lia.
Qed.

Lemma days_before_month_next (y m1 m2 : Z) :
  1 <= m1 -> m1 < m2 -> m2 <= 12 ->
  datetime.days_before_month y m1 + datetime.days_in_month y m1 <=
    datetime.days_before_month y m2.
Proof.
  intros H1 H12 H2.
  unfold datetime.days_before_month, datetime.days_in_month.
  destruct (month_cases m1 ltac:(lia)) as
    [->|[->|[->|[->|[->|[->|[->|[->|[->|[->|[->| ->]]]]]]]]]]];
    destruct (month_cases m2 ltac:(lia)) as
      [->|[->|[->|[->|[->|[->|[->|[->|[->|[->|[->| ->]]]]]]]]]]];
    try lia; destruct (datetime.is_leap y); eval_tables; cbn; lia.
Qed.

Theorem toordinal_lt (a b : datetime.date) :
  datetime.valid a -> datetime.valid b ->
  datetime.lt a b = true -> datetime.toordinal a < datetime.toordinal b.
Proof.
  intros (Hya & Hma & Hda) (Hyb & Hmb & Hdb). unfold datetime.lt.
  unfold datetime.toordinal, datetime.ymd2ord, datetime.MINYEAR in *.
  pose proof (day_of_year_bounds _ _ _ Hma Hda) as Hdoya.
  pose proof (day_of_year_bounds _ _ _ Hmb Hdb) as Hdoyb.
  destruct (Z.ltb_spec (datetime.year a) (datetime.year b)) as [Hy|Hy].
  - intros _.
    pose proof (days_before_year_step (datetime.year a) ltac:(lia)) as Hstep.
    pose proof (days_before_year_mono (datetime.year a + 1) (datetime.year b)
                  ltac:(lia)) as Hmono.
    lia.
  - cbn [orb]. destruct (Z.eqb_spec (datetime.year a) (datetime.year b))
      as [Ey|Ey]; [|done].
    cbn [andb]. rewrite Ey in *.
    destruct (Z.ltb_spec (datetime.month a) (datetime.month b)) as [Hm|Hm].
    + intros _.
      pose proof (days_before_month_next (datetime.year b) _ _
                    (proj1 Hma) Hm (proj2 Hmb)).
      lia.
    + cbn [orb]. destruct (Z.eqb_spec (datetime.month a) (datetime.month b))
        as [Em|Em]; [|done].
      cbn [andb]. rewrite Em. intros Hd%Z.ltb_lt. lia.
Qed.

Lemma lt_total (a b : datetime.date) :
  a = b \/ datetime.lt a b = true \/ datetime.lt b a = true.
Proof.
  destruct a as [ya ma da], b as [yb mb db]. unfold datetime.lt. cbn.
  destruct (Z.ltb_spec ya yb); [by right; left|].
  destruct (Z.ltb_spec yb ya); [by right; right|].
  assert (ya = yb) as -> by lia. rewrite Z.eqb_refl. cbn.
  destruct (Z.ltb_spec ma mb); [by right; left|].
  destruct (Z.ltb_spec mb ma); [by right; right|].
  assert (ma = mb) as -> by lia. rewrite Z.eqb_refl. cbn.
  destruct (Z.ltb_spec da db); [by right; left|].
  destruct (Z.ltb_spec db da); [by right; right|].
  left. f_equal. lia.
Qed.

(** A date is determined by its ordinal. *)
Theorem toordinal_inj (a b : datetime.date) :
  datetime.valid a -> datetime.valid b ->
  datetime.toordinal a = datetime.toordinal b -> a = b.
Proof.
  intros Ha Hb Heq. destruct (lt_total a b) as [E|[E|E]]; [done| |].
  - pose proof (toordinal_lt _ _ Ha Hb E). lia.
  - pose proof (toordinal_lt _ _ Hb Ha E). lia.
Qed.

(** [a < b] on dates is [<] on their ordinals. *)
Theorem lt_toordinal (a b : datetime.date) :
  datetime.valid a -> datetime.valid b ->
  datetime.lt a b = true <-> datetime.toordinal a < datetime.toordinal b.
Proof.
  intros Ha Hb. split; [by apply toordinal_lt|]. intros Hlt.
  destruct (lt_total a b) as [E|[E|E]]; [subst; lia|done|].
  pose proof (toordinal_lt _ _ Hb Ha E). lia.
Qed.

(** [fromordinal] is the inverse of [toordinal]. *)
Theorem fromordinal_toordinal (d : datetime.date) :
  datetime.valid d -> datetime.fromordinal (datetime.toordinal d) = d.
Proof.
  intros Hv. pose proof (toordinal_bounds d Hv) as Hb.
  destruct (datetime_facts.ord2ymd_spec _ Hb) as [Hv' Ho].
  by apply toordinal_inj.
Qed.

(** ** Reading and writing dates *)

Lemma int_raises (s : pystr) (e : exn) :
  strptime.int s = Raise e -> exists msg, e = ValueError msg.
Proof.
  unfold strptime.int. intros H.
  destruct (strptime.lstrip s); [inversion H; eauto|].
  destruct (strptime.digits_value 0 _); inversion H; eauto.
Qed.

Lemma strptime_raises (s : pystr) (e : exn) :
  strptime.strptime_dmY s = Raise e -> exists msg, e = ValueError msg.
Proof.
  unfold strptime.strptime_dmY. intros H.
  destruct (strptime.format_regex s) as [|[[[gd gm] gY] rest] ?];
    [inversion H; eauto|].
  destruct rest; [|inversion H; eauto].
  destruct (strptime.int gY) eqn:HY; cbn in H; [|by eapply int_raises; inversion H; subst].
  destruct (strptime.int gm) eqn:Hm; cbn in H; [|by eapply int_raises; inversion H; subst].
  destruct (strptime.int gd) eqn:Hd; cbn in H; [|by eapply int_raises; inversion H; subst].
  by eapply new_raises.
Qed.

Lemma strptime_valid (s : pystr) (d : datetime.date) :
  strptime.strptime_dmY s = Return d -> datetime.valid d.
Proof.
  unfold strptime.strptime_dmY. intros H.
  destruct (strptime.format_regex s) as [|[[[gd gm] gY] rest] ?]; [done|].
  destruct rest; [|done].
  destruct (strptime.int gY); [|done].
  destruct (strptime.int gm); [|done].
  destruct (strptime.int gd); [|done].
  cbn in H. by apply new_Return in H as [_ ?].
Qed.

Lemma digit_eq (n : Z) : datetime.digit n = Z.to_N (48 + n mod 10).
Proof.
  unfold datetime.digit.
  pose proof (Z.mod_pos_bound n 10 ltac:(lia)). lia.
Qed.

Lemma strftime_DD_MM_YYYY (g : datetime.date) :
  datetime.valid g -> DD_MM_YYYY (datetime.strftime_dmY g) g.
Proof.
  intros (Hy & Hm & Hd).
  pose proof (days_in_month_le_31 (datetime.year g) _ Hm) as Hd31.
  unfold datetime.MINYEAR, datetime.MAXYEAR in Hy.
  exists (datetime.day g / 10 mod 10), (datetime.day g mod 10),
         (datetime.month g / 10 mod 10), (datetime.month g mod 10),
         (datetime.year g / 1000 mod 10), (datetime.year g / 100 mod 10),
         (datetime.year g / 10 mod 10), (datetime.year g mod 10).
  split; [|split; [|split; [|split]]].
  - repeat constructor; Z.div_mod_to_equations; lia.
  - unfold datetime.strftime_dmY. by rewrite !digit_eq.
  - Z.div_mod_to_equations; lia.
  - Z.div_mod_to_equations; lia.
  - Z.div_mod_to_equations; lia.
Qed.

Lemma digit_cases (k : Z) :
  0 <= k <= 9 ->
  k = 0 \/ k = 1 \/ k = 2 \/ k = 3 \/ k = 4 \/ k = 5 \/ k = 6 \/ k = 7 \/
  k = 8 \/ k = 9.
Proof. lia. Qed.

Lemma isdecimal_ascii (k : Z) :
  0 <= k <= 9 -> Unicode.isdecimal (ascii_digit_char k) = true.
Proof.
  intros Hk.
  destruct (digit_cases k Hk) as [->|[->|[->|[->|[->|[->|[->|[->|[->| ->]]]]]]]]];
    vm_compute; reflexivity.
Qed.

Lemma decimal_value_ascii (k : Z) :
  0 <= k <= 9 -> Unicode.decimal_value (ascii_digit_char k) = Some k.
Proof.
  intros Hk.
  destruct (digit_cases k Hk) as [->|[->|[->|[->|[->|[->|[->|[->|[->| ->]]]]]]]]];
    vm_compute; reflexivity.
Qed.

Lemma chr_hit (p : N -> bool) (c : N) (r : pystr) :
  p c = true -> re.chr p (c :: r) = [([c], r)].
Proof. intros H. unfold re.chr. by rewrite H. Qed.

Lemma seq_chr_hit (p : N -> bool) (q : re.pattern) (c : N) (r : pystr) :
  p c = true ->
  re.seq (re.chr p) q (c :: r) = (fun br => (c :: fst br, snd br)) <$> q r.
Proof.
  intros H. unfold re.seq. rewrite (chr_hit _ _ _ H). cbn.
  rewrite app_nil_r. induction (q r) as [|[b r'] l IH]; [done|].
  cbn. by rewrite IH.
Qed.

Lemma re_Y_head (k1 k2 k3 k4 : Z) (rest : pystr) :
  0 <= k1 <= 9 -> 0 <= k2 <= 9 -> 0 <= k3 <= 9 -> 0 <= k4 <= 9 ->
  strptime.re_Y (ascii_digit_char k1 :: ascii_digit_char k2 ::
                 ascii_digit_char k3 :: ascii_digit_char k4 :: rest) =
    [([ascii_digit_char k1; ascii_digit_char k2; ascii_digit_char k3;
       ascii_digit_char k4], rest)].
Proof.
  intros H1 H2 H3 H4. unfold strptime.re_Y, re.d.
  rewrite !seq_chr_hit by (by apply isdecimal_ascii).
  by rewrite chr_hit by (by apply isdecimal_ascii).
Qed.

Lemma re_d_head (k : Z) (rest : pystr) :
  1 <= k <= 31 ->
  head (strptime.re_d (two_digits k ++ strptime.dot :: rest)) =
    Some (two_digits k, strptime.dot :: rest).
Proof.
  intros Hk.
  assert (Forall (fun k => head (strptime.re_d (two_digits k ++ strptime.dot :: rest)) =
    Some (two_digits k, strptime.dot :: rest)) (map Z.of_nat (seq 1 31))) as Hall.
  { cbn [seq map]. repeat (constructor; [vm_compute; reflexivity|]). constructor. }
  rewrite Forall_forall in Hall. apply Hall.
  apply list_elem_of_In, in_map_iff. exists (Z.to_nat k). split; [lia|].
  apply in_seq. lia.
Qed.

Lemma re_m_head (k : Z) (rest : pystr) :
  1 <= k <= 12 ->
  head (strptime.re_m (two_digits k ++ strptime.dot :: rest)) =
    Some (two_digits k, strptime.dot :: rest).
Proof.
  intros Hk.
  assert (Forall (fun k => head (strptime.re_m (two_digits k ++ strptime.dot :: rest)) =
    Some (two_digits k, strptime.dot :: rest)) (map Z.of_nat (seq 1 12))) as Hall.
  { cbn [seq map]. repeat (constructor; [vm_compute; reflexivity|]). constructor. }
  rewrite Forall_forall in Hall. apply Hall.
  apply list_elem_of_In, in_map_iff. exists (Z.to_nat k). split; [lia|].
  apply in_seq. lia.
Qed.

Lemma head_bind {A B} (f : A -> list B) (l : list A) (x : A) (y : B) :
  head l = Some x -> head (f x) = Some y -> head (l ≫= f) = Some y.
Proof.
  destruct l as [|x' l]; [done|]. intros [= ->]. cbn.
  by destruct (f x).
Qed.

Lemma format_regex_head (s r2 r4 r5 gd gm gY : pystr) :
  head (strptime.re_d s) = Some (gd, strptime.dot :: r2) ->
  head (strptime.re_m r2) = Some (gm, strptime.dot :: r4) ->
  head (strptime.re_Y r4) = Some (gY, r5) ->
  head (strptime.format_regex s) = Some (gd, gm, gY, r5).
Proof.
  intros Hd Hm HY. unfold strptime.format_regex.
  eapply head_bind; [exact Hd|]. cbn beta iota.
  eapply head_bind; [by unfold re.lit; rewrite chr_hit by apply N.eqb_refl|].
  cbn beta iota.
  eapply head_bind; [exact Hm|]. cbn beta iota.
  eapply head_bind; [by unfold re.lit; rewrite chr_hit by apply N.eqb_refl|].
  cbn beta iota.
  eapply head_bind; [exact HY|]. done.
Qed.

Lemma ascii_digit_not_space (k : Z) :
  0 <= k <= 9 -> (ascii_digit_char k =? strptime.space)%N = false.
Proof.
  intros Hk. apply N.eqb_neq. unfold ascii_digit_char, strptime.space. lia.
Qed.

Lemma int_two_digits (k : Z) :
  0 <= k <= 99 -> strptime.int (two_digits k) = Return k.
Proof.
  intros Hk. unfold strptime.int, two_digits.
  assert (0 <= k / 10 <= 9) as H1 by (Z.div_mod_to_equations; lia).
  assert (0 <= k mod 10 <= 9) as H2 by (Z.div_mod_to_equations; lia).
  cbn [strptime.lstrip]. rewrite (ascii_digit_not_space _ H1).
  cbn [strptime.digits_value].
  rewrite (decimal_value_ascii _ H1), (decimal_value_ascii _ H2).
  f_equal. Z.div_mod_to_equations. lia.
Qed.

Lemma int_four_digits (k1 k2 k3 k4 : Z) :
  0 <= k1 <= 9 -> 0 <= k2 <= 9 -> 0 <= k3 <= 9 -> 0 <= k4 <= 9 ->
  strptime.int [ascii_digit_char k1; ascii_digit_char k2;
                ascii_digit_char k3; ascii_digit_char k4] =
    Return (1000 * k1 + 100 * k2 + 10 * k3 + k4).
Proof.
  intros H1 H2 H3 H4. unfold strptime.int.
  cbn [strptime.lstrip]. rewrite (ascii_digit_not_space _ H1).
  cbn [strptime.digits_value].
  rewrite (decimal_value_ascii _ H1), (decimal_value_ascii _ H2),
    (decimal_value_ascii _ H3), (decimal_value_ascii _ H4).
  f_equal. lia.
Qed.

Lemma strftime_text (g : datetime.date) :
  datetime.valid g ->
  datetime.strftime_dmY g =
    text_DD_MM_YYYY (datetime.day g) (datetime.month g) (datetime.year g).
Proof.
  intros (Hy & Hm & Hd).
  pose proof (days_in_month_le_31 (datetime.year g) _ Hm) as Hd31.
  unfold datetime.MINYEAR, datetime.MAXYEAR in Hy.
  unfold datetime.strftime_dmY, text_DD_MM_YYYY, two_digits.
  rewrite !digit_eq. unfold ascii_digit_char, strptime.dot. cbn [app].
  repeat f_equal; Z.div_mod_to_equations; lia.
Qed.

(** Every real date, written DD.MM.YYYY, is read back by [strptime] as
    that date. *)
Theorem strptime_text (d m y : Z) :
  datetime.valid (datetime.mkdate y m d) ->
  strptime.strptime_dmY (text_DD_MM_YYYY d m y) =
    Return (datetime.mkdate y m d).
Proof.
  intros Hv. pose proof Hv as (Hy & Hm & Hd). cbn in Hy, Hm, Hd.
  pose proof (days_in_month_le_31 y m Hm) as Hd31.
  unfold datetime.MINYEAR, datetime.MAXYEAR in Hy.
  assert (0 <= y / 1000 <= 9) as H1 by (Z.div_mod_to_equations; lia).
  assert (0 <= y / 100 mod 10 <= 9) as H2 by (Z.div_mod_to_equations; lia).
  assert (0 <= y / 10 mod 10 <= 9) as H3 by (Z.div_mod_to_equations; lia).
  assert (0 <= y mod 10 <= 9) as H4 by (Z.div_mod_to_equations; lia).
  unfold strptime.strptime_dmY.
  pose proof (format_regex_head (text_DD_MM_YYYY d m y) _ _ []
                (two_digits d) (two_digits m) _
                (re_d_head d _ ltac:(lia))
                (re_m_head m _ ltac:(lia))
                (f_equal head (re_Y_head _ _ _ _ [] H1 H2 H3 H4))) as Hhead.
  destruct (strptime.format_regex _) as [|x tl]; [done|].
  injection Hhead as ->.
  rewrite (int_four_digits _ _ _ _ H1 H2 H3 H4). cbn [rbind].
  rewrite !int_two_digits by lia. cbn [rbind].
  replace (1000 * (y / 1000) + 100 * (y / 100 mod 10) + 10 * (y / 10 mod 10)
           + y mod 10) with y by (Z.div_mod_to_equations; lia).
  by apply new_valid.
Qed.

Theorem strptime_strftime (g : datetime.date) :
  datetime.valid g ->
  strptime.strptime_dmY (datetime.strftime_dmY g) = Return g.
Proof.
  intros Hv. rewrite (strftime_text g Hv). destruct g as [y m d].
  by apply strptime_text.
Qed.

(** ** Birthday validation *)

Lemma Birthday_init_Raise (s : pystr) (e : exn) :
  Birthday_init s = Raise e -> e = invalid_date_format.
Proof.
  unfold Birthday_init. intros H.
  destruct (strptime.strptime_dmY s) eqn:Hs; cbn in H; [done|].
  apply strptime_raises in Hs as [msg ->]. cbn in H. by inversion H.
Qed.

Lemma Birthday_init_Return (s : pystr) (b : Field) :
  Birthday_init s = Return b <->
  b = mkField s /\ exists d, strptime.strptime_dmY s = Return d.
Proof.
  unfold Birthday_init.
  destruct (strptime.strptime_dmY s) eqn:Hs; cbn.
  - split; [intros [= <-]; eauto|by intros [-> _]].
  - split; [by destruct e|]. by intros [_ [d ?]].
Qed.

Lemma text_exact_DD_MM_YYYY (d m y : Z) :
  datetime.valid (datetime.mkdate y m d) ->
  exact_DD_MM_YYYY (text_DD_MM_YYYY d m y) = true.
Proof.
  intros (Hy & Hm & Hd). cbn in Hy, Hm, Hd.
  pose proof (days_in_month_le_31 y m Hm) as Hd31.
  unfold datetime.MINYEAR, datetime.MAXYEAR in Hy.
  unfold text_DD_MM_YYYY, two_digits, exact_DD_MM_YYYY. cbn [app forallb].
  rewrite !isdecimal_ascii by (Z.div_mod_to_equations; lia).
  reflexivity.
Qed.

(** C3, at the input "1.2.2024": [Birthday] accepts the string and stores it
    as it is, although it has one digit for the day and one for the month
    and so is not of the pattern DD.MM.YYYY; [strptime] reads [%d] and [%m]
    with one or two digits.  The rest of C3 holds: every real date written
    DD.MM.YYYY is accepted, an accepted string is the text of a real date
    and is stored verbatim, and every failure is the [ValueError] "Invalid
    date format. Use DD.MM.YYYY", as for "31.02.2024" and "2024-02-31". *)
Theorem C3_one_digit_day_accepted :
  Birthday_init (py "1.2.2024") = Return (mkField (py "1.2.2024")) /\
  exact_DD_MM_YYYY (py "1.2.2024") = false /\
  strptime.strptime_dmY (py "1.2.2024") = Return (datetime.mkdate 2024 2 1) /\
  (forall d m y,
     datetime.valid (datetime.mkdate y m d) ->
     exact_DD_MM_YYYY (text_DD_MM_YYYY d m y) = true /\
     Birthday_init (text_DD_MM_YYYY d m y) =
       Return (mkField (text_DD_MM_YYYY d m y))) /\
  (forall raw b,
     Birthday_init raw = Return b ->
     Field_str b = raw /\
     exists d, strptime.strptime_dmY raw = Return d /\ datetime.valid d) /\
  (forall raw e, Birthday_init raw = Raise e ->
                 e = ValueError "Invalid date format. Use DD.MM.YYYY") /\
  Birthday_init (py "31.02.2024") =
    Raise (ValueError "Invalid date format. Use DD.MM.YYYY") /\
  Birthday_init (py "2024-02-31") =
    Raise (ValueError "Invalid date format. Use DD.MM.YYYY") /\
  Birthday_init (py "15.06.2020") = Return (mkField (py "15.06.2020")).
Proof.
  do 3 (split; [vm_compute; reflexivity|]).
  split.
  { intros d m y Hv. split; [by apply text_exact_DD_MM_YYYY|].
    apply Birthday_init_Return. split; [done|]. eexists.
    by apply strptime_text. }
  split.
  { intros raw b H. apply Birthday_init_Return in H as [-> [d Hd]].
    split; [done|]. exists d. split; [done|]. by eapply strptime_valid. }
  split. { intros raw e H. by apply Birthday_init_Raise in H. }
  repeat split; vm_compute; reflexivity.
Qed.

(** ** Setting the birthday of a record *)

(** C10: when the string fails the validation of [Birthday], [add_birthday]
    ends with that validation error and the record, its birthday included,
    is as before; the birthday is assigned only when the string has been
    accepted. *)
Theorem C10_add_birthday_invalid (self : record) (birthday_str : pystr)
    (e : exn) :
  Birthday_init birthday_str = Raise e ->
  Record_add_birthday birthday_str self = (Raise e, self) /\
  e = invalid_date_format /\
  (forall str0 self0 res self1,
     Record_add_birthday str0 self0 = (res, self1) ->
     birthday self1 <> birthday self0 ->
     exists b, Birthday_init str0 = Return b /\ birthday self1 = Some b).
Proof.
  intros H. unfold Record_add_birthday. rewrite H.
  split; [done|]. split; [by eapply Birthday_init_Raise|].
  intros str0 self0 res self1 Hrun Hne.
  destruct (Birthday_init str0) as [b|e0]; inversion Hrun; subst; [eauto|done].
Qed.

Lemma C10_add_birthday_invalid_witness :
  Record_add_birthday (py "31.02.2024") record_bob =
    (Raise invalid_date_format, record_bob).
Proof.
  apply (C10_add_birthday_invalid record_bob (py "31.02.2024")
           invalid_date_format).
  vm_compute. reflexivity.
Defined.

(** ** Editing a phone of a record *)

Lemma str_eqb_true (a b : pystr) : str_eqb a b = true <-> a = b.
Proof. apply bool_decide_eq_true. Qed.

Lemma str_eqb_false (a b : pystr) : str_eqb a b = false <-> a <> b.
Proof. apply bool_decide_eq_false. Qed.

(** The loop stops at the first item of [rest] that stores [old_phone]. *)
Lemma edit_phone_loop_found old_phone new_phone self :
  forall rest i j p,
    rest !! j = Some p -> value p = old_phone ->
    (forall k q, (k < j)%nat -> rest !! k = Some q -> value q <> old_phone) ->
    edit_phone_loop old_phone new_phone i rest self =
      match Phone_init new_phone with
      | Return q => (Return tt, set_phones (<[(i + j)%nat := q]> (phones self)) self)
      | Raise e => (Raise e, self)
      end.
Proof.
  induction rest as [|p0 rest IH]; intros i j p Hj Hp Hfirst; [done|].
  destruct j as [|j]; cbn in Hj |- *.
  - injection Hj as ->.
    rewrite (proj2 (str_eqb_true _ _) Hp).
    by rewrite Nat.add_0_r.
  - assert (value p0 <> old_phone) as Hne
        by (apply (Hfirst 0%nat); [lia|done]).
    rewrite (proj2 (str_eqb_false _ _) Hne).
    rewrite (IH (S i) j p Hj Hp).
    + by replace (S i + j)%nat with (i + S j)%nat by lia.
    + intros k q Hk Hq. apply (Hfirst (S k)); [lia|done].
Qed.

Lemma edit_phone_loop_absent old_phone new_phone self :
  forall rest i,
    (forall p, p ∈ rest -> value p <> old_phone) ->
    edit_phone_loop old_phone new_phone i rest self =
      (Raise old_phone_not_found, self).
Proof.
  induction rest as [|p0 rest IH]; intros i Hall; [done|].
  cbn. rewrite (proj2 (str_eqb_false _ _) (Hall p0 ltac:(left))).
  apply IH. intros p Hp. apply Hall. by right.
Qed.

(** C6: [edit_phone] puts, at the position of the first phone that stores
    [old_phone], the phone validated from [new_phone], which stores
    [new_phone]: the record afterwards has the name and the birthday of
    before, and the phones of before but for that position.  When no phone
    stores [old_phone] it raises "Old phone not found." and when
    [new_phone] is refused it raises the validation error, the record
    being as before in both cases. *)
Theorem C6_edit_phone (self : record) (old_phone new_phone : pystr) :
  (forall i p,
     phones self !! i = Some p -> value p = old_phone ->
     (forall k q, (k < i)%nat -> phones self !! k = Some q ->
                  value q <> old_phone) ->
     (forall q, Phone_init new_phone = Return q ->
        value q = new_phone /\
        Record_edit_phone old_phone new_phone self =
          (Return tt,
           mkRecord (name self) (<[i := q]> (phones self)) (birthday self)) /\
        forall self',
          Record_edit_phone old_phone new_phone self = (Return tt, self') ->
          name self' = name self /\ birthday self' = birthday self /\
          length (phones self') = length (phones self) /\
          phones self' !! i = Some q /\
          forall k, k <> i -> phones self' !! k = phones self !! k) /\
     (forall e, Phone_init new_phone = Raise e ->
        Record_edit_phone old_phone new_phone self = (Raise e, self) /\
        e = ValueError "Phone number must contain exactly 10 digits.")) /\
  ((forall p, p ∈ phones self -> value p <> old_phone) ->
   Record_edit_phone old_phone new_phone self =
     (Raise (ValueError "Old phone not found."), self)).
Proof.
  unfold Record_edit_phone. split.
  - intros i p Hi Hp Hfirst.
    rewrite (edit_phone_loop_found _ _ _ _ 0%nat i p Hi Hp Hfirst). cbn.
    split.
    + intros q Hq. pose proof (Phone_init_inv _ _ Hq) as [Hqeq _].
      rewrite Hq. split; [by subst q|]. split; [done|].
      intros self' [= <-]. cbn [name phones birthday set_phones].
      split; [done|]. split; [done|]. split; [apply length_insert|].
      split.
      * apply list_lookup_insert_eq. by eapply lookup_lt_Some.
      * intros k Hk. by apply list_lookup_insert_ne.
    + intros e He. rewrite He. split; [done|].
      destruct (ten_digits_dec new_phone) as [Hd|Hd].
      * rewrite (Phone_init_accepts _ Hd) in He. discriminate.
      * rewrite (Phone_init_rejects _ Hd) in He. by inversion He.
  - intros Hall. by apply edit_phone_loop_absent.
Qed.

Lemma C6_edit_phone_witness :
  Record_edit_phone (py "1111111111") (py "2222222222") record_1111 =
    (Return tt,
     mkRecord (mkField (py "Ann")) [mkField (py "2222222222")] None) /\
  Record_edit_phone (py "9999999999") (py "3333333333") record_1111 =
    (Raise (ValueError "Old phone not found."), record_1111) /\
  Record_edit_phone (py "1111111111") (py "22") record_1111 =
    (Raise (ValueError "Phone number must contain exactly 10 digits."),
     record_1111).
Proof.
  split; [|split].
  - destruct (proj1 (C6_edit_phone record_1111 (py "1111111111")
                       (py "2222222222"))
                0%nat (mkField (py "1111111111")) eq_refl eq_refl
                ltac:(intros k q Hk; lia)) as [Hok _].
    apply (Hok (mkField (py "2222222222")) eq_refl).
  - apply (proj2 (C6_edit_phone record_1111 (py "9999999999") (py "3333333333"))).
    intros p Hp. apply list_elem_of_singleton in Hp as ->. vm_compute. discriminate.
  - apply (proj1 (C6_edit_phone record_1111 (py "1111111111") (py "22"))
             0%nat (mkField (py "1111111111"))); try reflexivity.
    intros k q Hk. lia.
Defined.

(** ** Dictionaries *)

Lemma dict_get_None (k : pystr) (d : dict) :
  dict_get k d = None <-> k ∉ map fst d.
Proof.
  induction d as [|[k' v] d IH]; cbn.
  - split; [intros _; apply not_elem_of_nil|done].
  - rewrite not_elem_of_cons. destruct (str_eqb k' k) eqn:E.
    + apply str_eqb_true in E. split; [done|]. intros [? _]. congruence.
    + apply str_eqb_false in E. rewrite IH. split; [|tauto].
      intros ?. split; [congruence|done].
Qed.

Lemma dict_get_Some_elem (k : pystr) (v : loc) (d : dict) :
  dict_get k d = Some v -> (k, v) ∈ d.
Proof.
  induction d as [|[k' v'] d IH]; cbn; [done|].
  destruct (str_eqb k' k) eqn:E.
  - apply str_eqb_true in E. intros [= ->]. subst. left.
  - intros H. right. by apply IH.
Qed.

Lemma dict_set_absent (k : pystr) (v : loc) (d : dict) :
  dict_get k d = None -> dict_set k v d = d ++ [(k, v)].
Proof.
  induction d as [|[k' v'] d IH]; cbn; [done|].
  destruct (str_eqb k' k); [done|]. intros H. by rewrite IH.
Qed.

Lemma filter_absent (k : pystr) (d : dict) :
  k ∉ map fst d -> filter (fun kl => fst kl <> k) d = d.
Proof.
  induction d as [|[k' v'] d IH]; [done|].
  change (map fst ((k', v') :: d)) with (k' :: map fst d).
  rewrite not_elem_of_cons. intros [Hne Hd].
  rewrite filter_cons_True by (cbn; congruence). by rewrite IH.
Qed.

(** On a dictionary, whose keys are distinct, [del d[k]] leaves exactly the
    items of the other keys, in their order. *)
Lemma dict_del_filter (k : pystr) (d : dict) :
  NoDup (map fst d) ->
  dict_del k d = filter (fun kl => fst kl <> k) d.
Proof.
  induction d as [|[k' v'] d IH]; [done|].
  change (map fst ((k', v') :: d)) with (k' :: map fst d).
  intros Hnd. apply NoDup_cons in Hnd as [Hk' Hnd].
  cbn [dict_del]. destruct (str_eqb k' k) eqn:E.
  - apply str_eqb_true in E. subst k'.
    rewrite filter_cons_False by (cbn; tauto).
    by rewrite filter_absent.
  - apply str_eqb_false in E.
    rewrite filter_cons_True by (cbn; congruence). by rewrite IH.
Qed.

Lemma dict_get_filter_ne (k : pystr) (d : dict) :
  dict_get k (filter (fun kl => fst kl <> k) d) = None.
Proof.
  apply dict_get_None. intros H.
  apply list_elem_of_fmap in H as [[k' v] [-> H]].
  apply list_elem_of_filter in H as [H _]. by cbn in H.
Qed.

(** ** Removing a contact *)

(** C8: [delete] removes the item stored under [name] when there is one,
    and nothing else; when there is none it raises
    [KeyError("Contact not found.")] and the book is as before. *)
Theorem C8_delete (s : state) (n : pystr) :
  wf s ->
  (forall l, dict_get n (data s) = Some l ->
     exists s',
       AddressBook_delete n s = Some (Return tt, s') /\
       dict_get n (data s') = None /\
       data s' = filter (fun kl => fst kl <> n) (data s) /\
       heap s' = heap s) /\
  (dict_get n (data s) = None ->
   AddressBook_delete n s = Some (Raise (KeyError "Contact not found."), s)).
Proof.
  intros [Hnd _]. unfold AddressBook_delete, bind, get_data, dict_in. split.
  - intros l Hl. rewrite Hl. eexists. split; [reflexivity|]. cbn.
    rewrite dict_del_filter by done.
    split; [apply dict_get_filter_ne|done].
  - intros Hn. by rewrite Hn.
Qed.

Lemma wf_book_ann_bob : wf book_ann_bob.
Proof.
  split.
  - cbn. apply NoDup_cons. split.
    + intros H. apply list_elem_of_singleton in H. discriminate.
    + apply NoDup_singleton.
  - repeat constructor.
Defined.

Lemma C8_delete_witness :
  AddressBook_delete (py "Ann") book_ann_bob =
    Some (Return tt, mkState (heap book_ann_bob) [(py "Bob", 1%nat)]) /\
  AddressBook_delete (py "Eve") book_ann_bob =
    Some (Raise (KeyError "Contact not found."), book_ann_bob).
Proof.
  split.
  - destruct (proj1 (C8_delete book_ann_bob (py "Ann") wf_book_ann_bob)
                0%nat eq_refl) as (s' & Hrun & _ & Hdata & Hheap).
    rewrite Hrun. destruct s' as [h d]. cbn in Hdata, Hheap. by subst.
  - apply (proj2 (C8_delete book_ann_bob (py "Eve") wf_book_ann_bob)).
    reflexivity.
Defined.

(** ** Adding a contact *)

Lemma lookup_last_alloc (h : list record) (r : record) :
  (h ++ [r]) !! length h = Some r.
Proof. by apply list_lookup_middle. Qed.

Lemma insert_last_alloc (h : list record) (r r' : record) :
  <[length h := r']> (h ++ [r]) = h ++ [r'].
Proof.
  replace (length h) with (length h + 0)%nat at 1 by lia.
  by rewrite insert_app_r.
Qed.

Lemma add_contact_body_absent (s : state) (n phone : pystr) :
  dict_get n (data s) = None ->
  add_contact_body [n; phone] s =
    match Phone_init phone with
    | Return p =>
        Some (Return (py "Contact added."),
              with_new_record n (mkRecord (mkField n) [p] None) s)
    | Raise e => Some (Raise e, with_new_record n (Record_init n) s)
    end.
Proof.
  intros Hn.
  unfold add_contact_body, index, AddressBook_find, get_data, ret, bind.
  cbn [lookup list_lookup]. cbn beta iota. rewrite Hn.
  unfold alloc, AddressBook_add_record, deref, get_data, put_data, call, bind.
  cbn [heap data]. rewrite lookup_last_alloc.
  cbn [Record_init name Name_init value heap data].
  rewrite (dict_set_absent _ _ _ Hn), lookup_last_alloc.
  unfold Record_add_phone.
  destruct (Phone_init phone) as [p|e]; cbn [phones app heap data set_phones name birthday].
  - by rewrite insert_last_alloc.
  - by rewrite insert_last_alloc.
Qed.

Lemma add_contact_body_present (s : state) (n phone : pystr) (l : loc)
    (r : record) :
  dict_get n (data s) = Some l -> heap s !! l = Some r ->
  add_contact_body [n; phone] s =
    match Phone_init phone with
    | Return p =>
        Some (Return (py "Contact updated."),
              mkState (<[l := set_phones (phones r ++ [p]) r]> (heap s)) (data s))
    | Raise e => Some (Raise e, s)
    end.
Proof.
  intros Hn Hl.
  unfold add_contact_body, index, AddressBook_find, get_data, ret, bind.
  cbn [lookup list_lookup]. cbn beta iota. rewrite Hn.
  unfold call. rewrite Hl. unfold Record_add_phone.
  destruct (Phone_init phone) as [p|e]; [done|].
  rewrite (list_insert_id _ _ _ Hl). by destruct s.
Qed.

Lemma wf_lookup (s : state) (n : pystr) (l : loc) :
  wf s -> dict_get n (data s) = Some l -> exists r, heap s !! l = Some r.
Proof.
  intros [_ Hall] Hn. apply dict_get_Some_elem in Hn.
  rewrite Forall_forall in Hall. specialize (Hall _ Hn). cbn in Hall.
  by apply lookup_lt_is_Some_2.
Qed.

Lemma dict_get_app_last (n : pystr) (l : loc) (d : dict) :
  dict_get n d = None -> dict_get n (d ++ [(n, l)]) = Some l.
Proof.
  induction d as [|[k' v'] d IH]; cbn.
  - intros _. by rewrite (proj2 (str_eqb_true n n) eq_refl).
  - destruct (str_eqb k' n); [done|]. apply IH.
Qed.

(** C5: for a phone that [Phone] accepts, [add_contact] on a name that is
    not in the book creates one record, with that name and that phone
    alone, stores it last in the book and answers "Contact added."; on a
    name that is in the book it appends the phone to the phones of the
    record found, creates nothing and answers "Contact updated."; two calls
    with one name, starting without it, leave one record with the two
    phones in the order of the calls. *)
Theorem C5_add_contact (s : state) (n phone : pystr) (p : Field) :
  wf s ->
  Phone_init phone = Return p ->
  (dict_get n (data s) = None ->
   add_contact [n; phone] s =
     Some (Return (py "Contact added."),
           mkState (heap s ++ [mkRecord (mkField n) [p] None])
                   (data s ++ [(n, length (heap s))]))) /\
  (forall l, dict_get n (data s) = Some l ->
     exists r, heap s !! l = Some r /\
       add_contact [n; phone] s =
         Some (Return (py "Contact updated."),
               mkState (<[l := mkRecord (name r) (phones r ++ [p]) (birthday r)]>
                          (heap s))
                       (data s))) /\
  (forall phone2 p2,
     Phone_init phone2 = Return p2 ->
     dict_get n (data s) = None ->
     exists s1,
       add_contact [n; phone] s = Some (Return (py "Contact added."), s1) /\
       add_contact [n; phone2] s1 =
         Some (Return (py "Contact updated."),
               mkState (heap s ++ [mkRecord (mkField n) [p; p2] None])
                       (data s ++ [(n, length (heap s))]))).
Proof.
  intros Hwf Hp. unfold add_contact, input_error. split; [|split].
  - intros Hn. by rewrite (add_contact_body_absent _ _ _ Hn), Hp.
  - intros l Hl. destruct (wf_lookup _ _ _ Hwf Hl) as [r Hr].
    exists r. split; [done|].
    by rewrite (add_contact_body_present _ _ _ _ _ Hl Hr), Hp.
  - intros phone2 p2 Hp2 Hn. eexists. split.
    + by rewrite (add_contact_body_absent _ _ _ Hn), Hp.
    + rewrite (add_contact_body_present _ _ _ (length (heap s))
                 (mkRecord (mkField n) [p] None)).
      * rewrite Hp2. unfold with_new_record, set_phones. cbn [heap data phones name birthday app].
        by rewrite insert_last_alloc.
      * unfold with_new_record. cbn [data]. by apply dict_get_app_last.
      * unfold with_new_record. cbn [heap]. apply lookup_last_alloc.
Qed.

Lemma wf_empty_book : wf empty_book.
Proof. split; [apply NoDup_nil_2|apply Forall_nil_2]. Defined.

Lemma C5_add_contact_witness :
  add_contact [py "Alice"; py "1234567890"] empty_book =
    Some (Return (py "Contact added."), book_alice) /\
  add_contact [py "Alice"; py "0987654321"] book_alice =
    Some (Return (py "Contact updated."),
          mkState [mkRecord (mkField (py "Alice"))
                     [mkField (py "1234567890"); mkField (py "0987654321")] None]
                  [(py "Alice", 0%nat)]).
Proof.
  split.
  - apply (proj1 (C5_add_contact empty_book (py "Alice") (py "1234567890")
                    (mkField (py "1234567890")) wf_empty_book eq_refl)).
    reflexivity.
  - destruct (proj2 (proj2 (C5_add_contact empty_book (py "Alice")
                              (py "1234567890") (mkField (py "1234567890"))
                              wf_empty_book eq_refl))
                (py "0987654321") (mkField (py "0987654321")) eq_refl eq_refl)
      as (s1 & H1 & H2).
    vm_compute in H1. injection H1 as <-. exact H2.
Defined.

(** C9: for a name that is not in the book and a phone that [Phone]
    refuses, [add_contact] answers with the message of the validation
    error, and the book has nevertheless received, under that name, a
    record without phones: the record is stored before the phone is
    validated. *)
Theorem C9_add_contact_invalid_phone (s : state) (n phone : pystr) (e : exn) :
  dict_get n (data s) = None ->
  Phone_init phone = Raise e ->
  exists s',
    add_contact [n; phone] s =
      Some (Return (py "Phone number must contain exactly 10 digits."), s') /\
    add_contact_body [n; phone] s = Some (Raise e, s') /\
    data s' = data s ++ [(n, length (heap s))] /\
    dict_get n (data s') = Some (length (heap s)) /\
    heap s' !! length (heap s) = Some (mkRecord (mkField n) [] None) /\
    heap s' = heap s ++ [mkRecord (mkField n) [] None].
Proof.
  intros Hn He. exists (with_new_record n (Record_init n) s).
  unfold add_contact, input_error.
  rewrite (add_contact_body_absent _ _ _ Hn), He.
  assert (e = ValueError "Phone number must contain exactly 10 digits.") as ->.
  { destruct (ten_digits_dec phone) as [Hd|Hd].
    - rewrite (Phone_init_accepts _ Hd) in He. discriminate.
    - rewrite (Phone_init_rejects _ Hd) in He. by inversion He. }
  unfold with_new_record, Record_init, Name_init. cbn [heap data].
  repeat split.
  - by apply dict_get_app_last.
  - apply lookup_last_alloc.
Qed.

Lemma C9_add_contact_invalid_phone_witness :
  add_contact [py "Alice"; py "12345"] empty_book =
    Some (Return (py "Phone number must contain exactly 10 digits."),
          mkState [mkRecord (mkField (py "Alice")) [] None] [(py "Alice", 0%nat)]).
Proof.
  destruct (C9_add_contact_invalid_phone empty_book (py "Alice") (py "12345")
              (ValueError "Phone number must contain exactly 10 digits.")
              eq_refl eq_refl) as (s' & Hrun & _ & Hdata & _ & _ & Hheap).
  rewrite Hrun. destruct s' as [h d]. cbn in Hdata, Hheap. by subst.
Defined.

(** ** The upcoming-birthdays query *)

Section upcoming.

Import datetime.

Variable today : date.
Variable days : Z.

Lemma adjust_Return (bday b : date) :
  valid (mkdate (year today) (month bday) (day bday)) ->
  (if lt (mkdate (year today) (month bday) (day bday)) today
   then replace_year (mkdate (year today) (month bday) (day bday))
          (year today + 1)
   else Return (mkdate (year today) (month bday) (day bday))) = Return b <->
  b = Spec.thisYearBirthday today bday /\ valid b.
Proof.
  intros Hv. unfold Spec.thisYearBirthday. cbv zeta.
  destruct (lt _ today).
  - unfold replace_year. cbn [month day]. apply new_Return.
  - split; [by intros [= <-]|by intros [-> _]].
Qed.

Lemma congrat_Return (b g : date) :
  valid b ->
  (if weekday b =? 5 then add_days b 2
   else if weekday b =? 6 then add_days b 1 else Return b) = Return g <->
  g = Spec.greetingDate b /\ toordinal b + Spec.shift b <= MAXORDINAL.
Proof.
  intros Hv. pose proof (toordinal_pos b Hv).
  unfold Spec.greetingDate, Spec.shift.
  destruct (weekday b =? 5); [|destruct (weekday b =? 6)].
  - rewrite add_days_Return. intuition lia.
  - rewrite add_days_Return. intuition lia.
  - pose proof (toordinal_bounds b Hv).
    split; [intros [= <-]; split; [done|lia]|by intros [-> _]].
Qed.

Lemma in_window_unfold (bday : date) :
  (0 <=? sub_days (Spec.thisYearBirthday today bday) today)
  && (sub_days (Spec.thisYearBirthday today bday) today <=? days) =
    Spec.in_window today days bday.
Proof. reflexivity. Qed.

(** An iteration ends normally exactly when the dates it needs exist, and
    it has then appended the item of the record, if the record has
    one. *)
Lemma upcoming_body_Return (r : record) (acc acc' : list entry) :
  upcoming_body today days r acc = Return acc' <->
  acc' = acc ++ option_list (Spec.item today days r) /\
  Spec.computable today days r.
Proof.
  unfold upcoming_body, Spec.item, Spec.computable, Spec.birthday_of.
  destruct (birthday r) as [b|].
  2:{ cbn. rewrite app_nil_r. split; [by intros [= <-]|by intros [-> _]]. }
  destruct (strptime.strptime_dmY (value b)) as [bday|e] eqn:Hparse.
  2:{ cbn. split; [done|]. by intros [_ (bday & ? & _)]. }
  cbn [rbind]. unfold replace_year at 1.
  destruct (new (year today) (month bday) (day bday)) as [this|e] eqn:Hthis.
  2:{ cbn. split; [done|]. intros [_ (bday' & [= <-] & Hv & _)].
      rewrite (new_valid _ _ _ Hv) in Hthis. discriminate. }
  apply new_Return in Hthis as [-> Hvthis]. cbn [rbind].
  match goal with
  | |- context [rbind ?c _] => destruct c as [b1|e] eqn:Hadj
  end.
  2:{ cbn. split; [done|]. intros [_ (bday' & [= <-] & _ & Hv & _)].
      assert (Spec.thisYearBirthday today bday =
                Spec.thisYearBirthday today bday /\
              valid (Spec.thisYearBirthday today bday)) as Hb by done.
      apply (adjust_Return _ _ Hvthis) in Hb. rewrite Hb in Hadj.
      discriminate. }
  apply (adjust_Return _ _ Hvthis) in Hadj as [-> Hvb]. cbn [rbind].
  rewrite in_window_unfold.
  destruct (Spec.in_window today days bday) eqn:Hwin.
  2:{ cbn. rewrite app_nil_r. split.
      - intros [= <-]. split; [done|]. exists bday.
        do 3 (split; [done|]). congruence.
      - by intros [-> _]. }
  match goal with
  | |- context [rbind ?c _] => destruct c as [g|e] eqn:Hg
  end.
  - apply (congrat_Return _ _ Hvb) in Hg as [-> Hmax]. cbn. split.
    + intros [= <-]. split; [done|]. exists bday.
      by do 3 (split; [done|]).
    + by intros [-> _].
  - cbn. split; [done|]. intros [_ (bday' & [= <-] & _ & _ & Hmax)].
    assert (Spec.greetingDate (Spec.thisYearBirthday today bday) =
              Spec.greetingDate (Spec.thisYearBirthday today bday) /\
            toordinal (Spec.thisYearBirthday today bday)
            + Spec.shift (Spec.thisYearBirthday today bday) <= MAXORDINAL)
      as Hb by (split; [done|by apply Hmax]).
    apply (congrat_Return _ _ Hvb) in Hb. rewrite Hb in Hg. discriminate.
Qed.

Lemma omap_item_cons (r : record) (rs : list record) :
  omap (Spec.item today days) (r :: rs) =
    option_list (Spec.item today days r) ++ omap (Spec.item today days) rs.
Proof. cbn. by destruct (Spec.item today days r). Qed.

(** The loop ends normally exactly when every reference is alive and
    every record is computable; it has then appended the items of the
    records, in the order of the iteration, and the state is as
    before. *)
Lemma upcoming_loop_Return (s : state) :
  forall (locs : list loc) (acc out : list entry) (s' : state),
    upcoming_loop today days locs acc s = Some (Return out, s') <->
    s' = s /\
    exists rs,
      Forall2 (fun l r => heap s !! l = Some r) locs rs /\
      Forall (Spec.computable today days) rs /\
      out = acc ++ omap (Spec.item today days) rs.
Proof.
  induction locs as [|l locs IH]; intros acc out s'.
  - cbn. split.
    + intros [= <- <-]. split; [done|]. exists []. cbn.
      by rewrite app_nil_r.
    + intros [-> (rs & Hrs & _ & ->)]. apply Forall2_nil_inv_l in Hrs as ->.
      cbn. by rewrite app_nil_r.
  - cbn [upcoming_loop]. unfold bind, deref.
    destruct (heap s !! l) as [r|] eqn:Hl.
    2:{ split; [done|]. intros [_ (rs & Hrs & _)].
        apply Forall2_cons_inv_l in Hrs as (r & rs' & Hr & _ & _).
        congruence. }
    destruct (upcoming_body today days r acc) as [acc1|e] eqn:Hbody.
    + apply upcoming_body_Return in Hbody as [-> Hcomp].
      rewrite IH. split.
      * intros [-> (rs & Hrs & Hall & ->)]. split; [done|].
        exists (r :: rs). split; [by constructor|]. split; [by constructor|].
        by rewrite omap_item_cons, app_assoc.
      * intros [-> (rs & Hrs & Hall & ->)]. split; [done|].
        apply Forall2_cons_inv_l in Hrs as (r' & rs' & Hr & Hrs & ->).
        assert (r' = r) as -> by congruence.
        apply Forall_cons in Hall as [_ Hall].
        exists rs'. split; [done|]. split; [done|].
        by rewrite omap_item_cons, app_assoc.
    + unfold raise. split; [done|]. intros [_ (rs & Hrs & Hall & _)].
      apply Forall2_cons_inv_l in Hrs as (r' & rs' & Hr & Hrs & ->).
      assert (r' = r) as -> by congruence.
      apply Forall_cons in Hall as [Hcomp _].
      assert (upcoming_body today days r acc =
                Return (acc ++ option_list (Spec.item today days r))) as Hb
          by (by apply upcoming_body_Return).
      congruence.
Qed.

(** When the loop raises, the state is as before, too. *)
Lemma upcoming_loop_state (s : state) :
  forall (locs : list loc) (acc : list entry) res (s' : state),
    upcoming_loop today days locs acc s = Some (res, s') -> s' = s.
Proof.
  induction locs as [|l locs IH]; intros acc res s'.
  - cbn. by intros [= _ <-].
  - cbn [upcoming_loop]. unfold bind, deref.
    destruct (heap s !! l) as [r|]; [|done].
    destruct (upcoming_body today days r acc); [apply IH|].
    by intros [= _ <-].
Qed.

End upcoming.

Lemma wf_alive (s : state) : wf s -> alive s.
Proof.
  intros [_ H]. unfold alive. eapply Forall_impl; [exact H|].
  intros kl Hkl. by apply lookup_lt_is_Some_2.
Qed.

Lemma values_Forall2 (s : state) (rs : list record) :
  Forall2 (fun l r => heap s !! l = Some r) (map snd (data s)) rs <->
  alive s /\ values s = rs.
Proof.
  unfold alive, values. revert rs.
  induction (data s) as [|[k l] d IH]; intros rs.
  - cbn. split.
    + intros H. apply Forall2_nil_inv_l in H as ->. by split.
    + intros [_ <-]. constructor.
  - cbn [map snd]. split.
    + intros H. apply Forall2_cons_inv_l in H as (r & rs' & Hr & Hrs & ->).
      apply IH in Hrs as [Hal <-]. split.
      * constructor; [by cbn; eauto|done].
      * cbn. by rewrite Hr.
    + intros [Hal <-]. apply Forall_cons in Hal as [[r Hr] Hal].
      cbn in Hr |- *. rewrite Hr. constructor; [done|]. apply IH. by split.
Qed.

(** The query ends normally exactly when every record of the book is
    computable; its result is then the list of the items of the records of
    the book, in the order of the book, and the book is as before. *)
Theorem get_upcoming_birthdays_Return (today : datetime.date)
    (days : option Z) (s s' : state) (out : list entry) :
  AddressBook_get_upcoming_birthdays today days s = Some (Return out, s') <->
  s' = s /\ alive s /\
  Forall (Spec.computable today (default 7 days)) (values s) /\
  out = omap (Spec.item today (default 7 days)) (values s).
Proof.
  unfold AddressBook_get_upcoming_birthdays, bind, get_data. cbv zeta.
  rewrite upcoming_loop_Return. cbn [app]. split.
  - intros [-> (rs & Hrs & Hall & ->)].
    apply values_Forall2 in Hrs as [Hal <-]. by repeat split.
  - intros (-> & Hal & Hall & ->). split; [done|].
    exists (values s). split; [by apply values_Forall2|]. by split.
Qed.

(** The query reads the book and never changes it, whether it returns or
    raises. *)
Theorem get_upcoming_birthdays_state (today : datetime.date)
    (days : option Z) (s s' : state) (res : result (list entry)) :
  AddressBook_get_upcoming_birthdays today days s = Some (res, s') -> s' = s.
Proof.
  unfold AddressBook_get_upcoming_birthdays, bind, get_data. cbv zeta.
  apply upcoming_loop_state.
Qed.

(** ** The items of the result *)

Section items.

Import datetime.

Variable today : date.
Variable days : Z.

Lemma item_Some_included (r : record) (e : entry) :
  Spec.item today days r = Some e -> Spec.included today days r = true.
Proof.
  unfold Spec.item, Spec.included.
  destruct (Spec.birthday_of r); [|done].
  by destruct (Spec.in_window today days d).
Qed.

Lemma item_None_excluded (r : record) :
  Spec.item today days r = None -> Spec.included today days r = false.
Proof.
  unfold Spec.item, Spec.included.
  destruct (Spec.birthday_of r); [|done].
  by destruct (Spec.in_window today days d).
Qed.

(** The items are those of the included records, in their order. *)
Lemma items_Forall2 (rs : list record) :
  Forall2 (fun r e => Spec.item today days r = Some e)
    (filter (fun r => Spec.included today days r = true) rs)
    (omap (Spec.item today days) rs).
Proof.
  induction rs as [|r rs IH]; [constructor|].
  cbn [omap list_omap]. destruct (Spec.item today days r) as [e|] eqn:He.
  - rewrite filter_cons_True by (by eapply item_Some_included).
    by constructor.
  - rewrite filter_cons_False; [done|].
    rewrite (item_None_excluded _ He). discriminate.
Qed.

Lemma item_name (r : record) (e : entry) :
  Spec.item today days r = Some e -> entry_name e = value (name r).
Proof.
  unfold Spec.item. destruct (Spec.birthday_of r); [|done].
  destruct (Spec.in_window today days d); [|done]. by intros [= <-].
Qed.

Lemma items_names (rs : list record) :
  map entry_name (omap (Spec.item today days) rs) =
  map (fun r => value (name r))
    (filter (fun r => Spec.included today days r = true) rs).
Proof.
  induction (items_Forall2 rs) as [|r e rs' es He _ IH]; [done|].
  cbn. by rewrite (item_name _ _ He), IH.
Qed.

End items.

(** A record stored in the book comes last in the iteration. *)
Lemma values_with_new_record (s : state) (n : pystr) (r : record) :
  alive s -> values (with_new_record n r s) = values s ++ [r].
Proof.
  unfold alive, values, with_new_record. cbn [heap data]. intros Hal.
  rewrite omap_app. cbn [omap list_omap snd]. rewrite lookup_last_alloc.
  f_equal. induction Hal as [|[k l] d [r' Hr'] _ IH]; [done|].
  cbn in Hr' |- *. rewrite Hr'.
  rewrite lookup_app_l by (by eapply lookup_lt_Some).
  rewrite Hr'. by rewrite IH.
Qed.

(** C7: the result of the query lists the included records in the order in
    which the book iterates over its records, whatever their dates; that
    order is the order of insertion, a record stored under a new name
    coming last. *)
Theorem C7_upcoming_order (today : datetime.date) (days : option Z)
    (s s' : state) (out : list entry) :
  AddressBook_get_upcoming_birthdays today days s = Some (Return out, s') ->
  out = omap (Spec.item today (default 7 days)) (values s) /\
  map entry_name out =
    map (fun r => value (name r))
      (filter (fun r => Spec.included today (default 7 days) r = true)
         (values s)) /\
  (forall n r, values (with_new_record n r s) = values s ++ [r]).
Proof.
  intros H. apply get_upcoming_birthdays_Return in H as (-> & Hal & _ & ->).
  split; [done|]. split; [apply items_names|].
  intros n r. by apply values_with_new_record.
Qed.

Lemma C7_upcoming_order_witness :
  map entry_name [mkEntry (py "Zed") (py "14.06.2024");
                  mkEntry (py "Bob") (py "12.06.2024")] =
  map (fun r => value (name r))
    (filter (fun r => Spec.included (datetime.mkdate 2024 6 10) 7 r = true)
       (values book_zed_bob)).
Proof.
  apply (C7_upcoming_order (datetime.mkdate 2024 6 10) None
           book_zed_bob book_zed_bob).
  vm_compute. reflexivity.
Defined.

(** ** The greeting date *)

Lemma greetingDate_rule (b : datetime.date) :
  datetime.valid b ->
  datetime.toordinal b + Spec.shift b <= datetime.MAXORDINAL ->
  greeting_rule b (Spec.greetingDate b).
Proof.
  intros Hv Hmax. pose proof (toordinal_bounds b Hv) as Hb.
  unfold greeting_rule, Spec.greetingDate, Spec.shift in *.
  destruct (Z.eqb_spec (datetime.weekday b) 5) as [E5|E5];
    [|destruct (Z.eqb_spec (datetime.weekday b) 6) as [E6|E6]].
  - destruct (datetime_facts.ord2ymd_spec (datetime.toordinal b + 2))
      as [Hvg Hg]; [lia|].
    unfold datetime.fromordinal. split; [done|].
    split; [|split; [lia|lia]].
    intros _. split; [done|]. unfold datetime.weekday in *. rewrite Hg.
    Z.div_mod_to_equations. lia.
  - destruct (datetime_facts.ord2ymd_spec (datetime.toordinal b + 1))
      as [Hvg Hg]; [lia|].
    unfold datetime.fromordinal. split; [done|].
    split; [lia|split; [|lia]].
    intros _. split; [done|]. unfold datetime.weekday in *. rewrite Hg.
    Z.div_mod_to_equations. lia.
  - split; [done|]. split; [lia|]. split; [lia|done].
Qed.

Lemma item_emitted (today : datetime.date) (days : Z) (r : record) (e : entry) :
  Spec.computable today days r ->
  Spec.item today days r = Some e -> emitted today r e.
Proof.
  unfold emitted, Spec.computable, Spec.item, Spec.birthday_of.
  destruct (birthday r) as [b|]; [|done].
  intros (bday & -> & _ & Hvb & Hmax).
  destruct (Spec.in_window today days bday); [|done].
  intros [= <-]. cbn [entry_name entry_birthday]. split; [done|].
  pose proof (greetingDate_rule _ Hvb (Hmax eq_refl)) as Hrule.
  exists bday, (Spec.greetingDate (Spec.thisYearBirthday today bday)).
  split; [done|]. split; [done|]. split; [done|].
  split; [apply strftime_DD_MM_YYYY|apply strptime_strftime]; apply Hrule.
Qed.

(** C2: for a system date from the year 1000 on (from which [%Y] has four
    digits whatever the C library), every item of the result carries the
    name of an included record and the text DD.MM.YYYY of its greeting
    date, which is the birthday of this year moved two days forward from a
    Saturday, one day forward from a Sunday and left as it is otherwise;
    the items follow the included records one by one.  On 2024-06-10, with
    a window of 7 days, Bob, born on 15.06.2020, is greeted on
    17.06.2024. *)
Theorem C2_greeting_date (today : datetime.date) (days : option Z)
    (s s' : state) (out : list entry) :
  1000 <= datetime.year today ->
  AddressBook_get_upcoming_birthdays today days s = Some (Return out, s') ->
  Forall2 (emitted today)
    (filter (fun r => Spec.included today (default 7 days) r = true) (values s))
    out /\
  AddressBook_get_upcoming_birthdays (datetime.mkdate 2024 6 10) (Some 7)
    book_bob =
    Some (Return [mkEntry (py "Bob") (py "17.06.2024")], book_bob) /\
  datetime.weekday (datetime.mkdate 2024 6 10) = 0 /\
  datetime.weekday (datetime.mkdate 2024 6 15) = 5.
Proof.
  intros _ H. apply get_upcoming_birthdays_Return in H as (-> & _ & Hall & ->).
  split; [|repeat split; vm_compute; reflexivity].
  set (d := default 7 days) in *. clearbody d.
  induction (values s) as [|r rs IH]; [constructor|].
  apply Forall_cons in Hall as [Hr Hall].
  cbn [omap list_omap]. destruct (Spec.item today d r) as [e|] eqn:He.
  - rewrite filter_cons_True by (by eapply item_Some_included).
    constructor; [by eapply item_emitted|by apply IH].
  - rewrite filter_cons_False; [by apply IH|].
    rewrite (item_None_excluded _ _ _ He). discriminate.
Qed.

Lemma C2_greeting_date_witness :
  Forall2 (emitted (datetime.mkdate 2024 6 10))
    (filter (fun r => Spec.included (datetime.mkdate 2024 6 10) 7 r = true)
       (values book_zed_bob))
    [mkEntry (py "Zed") (py "14.06.2024"); mkEntry (py "Bob") (py "12.06.2024")].
Proof.
  apply (C2_greeting_date (datetime.mkdate 2024 6 10) None
           book_zed_bob book_zed_bob).
  - vm_compute. discriminate.
  - vm_compute. reflexivity.
Defined.

(** ** A birthday on 29 February *)

(** C1, on the book of Bob (15.06.2020) and Ann (29.02.2020), which four
    commands build, on 2023-06-10: Bob's birthday of this year is five days
    ahead, within the default window of seven days, yet the query returns
    no list; it ends with the [ValueError] that [replace] raises for
    29 February 2023, and the command [birthdays] answers with the message
    of that error. *)
Theorem C1_leap_day_birthday_raises :
  let today := datetime.mkdate 2023 6 10 in
  session [add_contact [py "Bob"; py "1234567890"];
           add_birthday [py "Bob"; py "15.06.2020"];
           add_contact [py "Ann"; py "0987654321"];
           add_birthday [py "Ann"; py "29.02.2020"]] empty_book =
    Some book_bob_ann /\
  wf book_bob_ann /\
  values book_bob_ann = [record_bob; record_ann] /\
  Spec.birthday_of record_bob = Some (datetime.mkdate 2020 6 15) /\
  Spec.thisYearBirthday today (datetime.mkdate 2020 6 15) =
    datetime.mkdate 2023 6 15 /\
  Spec.deltaDays today (datetime.mkdate 2020 6 15) = 5 /\
  Spec.included today 7 record_bob = true /\
  AddressBook_get_upcoming_birthdays today None book_bob_ann =
    Some (Raise (ValueError "day is out of range for month"), book_bob_ann) /\
  birthdays today [] book_bob_ann =
    Some (Return (py "day is out of range for month"), book_bob_ann) /\
  ~ Spec.computable today 7 record_ann.
Proof.
  intros today. split; [vm_compute; reflexivity|]. split.
  { split.
    - cbn. apply NoDup_cons. split.
      + intros H. apply list_elem_of_singleton in H. discriminate.
      + apply NoDup_singleton.
    - repeat constructor. }
  do 7 (split; [vm_compute; reflexivity|]).
  intros (bday & Hparse & Hv & _). vm_compute in Hparse.
  injection Hparse as <-. destruct Hv as (_ & _ & _ & Hd).
  vm_compute in Hd. by apply Hd.
Qed.

(** ** Where the query returns *)

Lemma plain_birthday_computable (today : datetime.date) (days : Z)
    (r : record) :
  datetime.valid today -> datetime.year today <= 9997 ->
  plain_birthday r -> Spec.computable today days r.
Proof.
  intros Hv Hy Hplain. unfold Spec.computable.
  destruct (birthday r) as [b|] eqn:Hbr; [|done].
  destruct (Hplain b Hbr) as (bday & Hparse & Hleap).
  pose proof (strptime_valid _ _ Hparse) as Hvb.
  assert (datetime.MINYEAR <= datetime.year today) as Hy1 by apply Hv.
  unfold datetime.MINYEAR in Hy1.
  assert (datetime.valid
            (datetime.mkdate (datetime.year today) (datetime.month bday)
               (datetime.day bday))) as Hthis.
  { apply valid_other_year; [done|done|].
    unfold datetime.MINYEAR, datetime.MAXYEAR. lia. }
  assert (datetime.valid (Spec.thisYearBirthday today bday)) as Hb.
  { unfold Spec.thisYearBirthday. cbv zeta. destruct (datetime.lt _ today).
    - apply valid_other_year; [done|done|].
      unfold datetime.MINYEAR, datetime.MAXYEAR. lia.
    - done. }
  exists bday. do 3 (split; [done|]). intros _.
  assert (datetime.year (Spec.thisYearBirthday today bday) <= 9998) as Hyb.
  { unfold Spec.thisYearBirthday. cbv zeta.
    destruct (datetime.lt _ today); cbn; lia. }
  pose proof (toordinal_room _ Hb Hyb) as Hroom.
  assert (Spec.shift (Spec.thisYearBirthday today bday) <= 2) as Hshift.
  { unfold Spec.shift. destruct (_ =? 5); [lia|]. destruct (_ =? 6); lia. }
  lia.
Qed.

(** The birthday of this year is never before today: the lower bound of
    the window always holds. *)
Lemma deltaDays_nonneg (today bday : datetime.date) :
  datetime.valid today ->
  datetime.valid
    (datetime.mkdate (datetime.year today) (datetime.month bday)
       (datetime.day bday)) ->
  datetime.valid (Spec.thisYearBirthday today bday) ->
  0 <= Spec.deltaDays today bday.
Proof.
  intros Hv Hthis Hb. unfold Spec.deltaDays. revert Hb.
  unfold Spec.thisYearBirthday. cbv zeta.
  destruct (datetime.lt _ today) eqn:Hlt; intros Hb.
  - assert (datetime.lt today
              (datetime.mkdate (datetime.year today + 1) (datetime.month bday)
                 (datetime.day bday)) = true) as Hnext.
    { unfold datetime.lt. cbn.
      destruct (Z.ltb_spec (datetime.year today) (datetime.year today + 1));
        [done|lia]. }
    pose proof (toordinal_lt _ _ Hv Hb Hnext). lia.
  - destruct (Z.lt_ge_cases
                (datetime.toordinal
                   (datetime.mkdate (datetime.year today) (datetime.month bday)
                      (datetime.day bday)))
                (datetime.toordinal today)) as [Hlt'|Hge]; [|lia].
    apply (lt_toordinal _ _ Hthis Hv) in Hlt'. congruence.
Qed.

(** On a book without birthdays on 29 February, and up to the year 9997,
    the query returns; a record is then in the result exactly when its
    birthday of this year is in the window. *)
Theorem upcoming_without_leap_days (today : datetime.date) (days : option Z)
    (s : state) :
  wf s -> datetime.valid today -> datetime.year today <= 9997 ->
  Forall plain_birthday (values s) ->
  AddressBook_get_upcoming_birthdays today days s =
    Some (Return (omap (Spec.item today (default 7 days)) (values s)), s) /\
  Forall2 (fun r e => Spec.item today (default 7 days) r = Some e)
    (filter (fun r => Spec.included today (default 7 days) r = true) (values s))
    (omap (Spec.item today (default 7 days)) (values s)).
Proof.
  intros Hwf Hv Hy Hall. split; [|apply items_Forall2].
  apply get_upcoming_birthdays_Return. split; [done|].
  split; [by apply wf_alive|]. split; [|done].
  eapply Forall_impl; [exact Hall|]. intros r Hr.
  by apply plain_birthday_computable.
Qed.

(** * Further properties of the program *)

(** ** The phones of a record *)

Lemma py_list_remove_first (p : Field) (l : list Field) (i : nat) :
  l !! i = Some p ->
  (forall k q, (k < i)%nat -> l !! k = Some q -> q <> p) ->
  py_list_remove p l = delete i l.
Proof.
  revert i. induction l as [|y l IH]; intros i Hi Hfirst; [done|].
  destruct i as [|i]; cbn in Hi |- *.
  - injection Hi as ->. by rewrite bool_decide_true.
  - rewrite bool_decide_false by (by apply (Hfirst 0%nat); [lia|]).
    f_equal. apply IH; [done|].
    intros k q Hk Hq. apply (Hfirst (S k)); [lia|done].
Qed.

Lemma remove_phone_loop_found (phone : pystr) (self : record) :
  forall rest j p,
    rest !! j = Some p -> value p = phone ->
    (forall k q, (k < j)%nat -> rest !! k = Some q -> value q <> phone) ->
    remove_phone_loop phone rest self =
      (Return tt, set_phones (py_list_remove p (phones self)) self).
Proof.
  induction rest as [|p0 rest IH]; intros j p Hj Hp Hfirst; [done|].
  destruct j as [|j]; cbn in Hj |- *.
  - injection Hj as ->. by rewrite (proj2 (str_eqb_true _ _) Hp).
  - assert (value p0 <> phone) as Hne by (apply (Hfirst 0%nat); [lia|done]).
    rewrite (proj2 (str_eqb_false _ _) Hne).
    apply (IH j p Hj Hp). intros k q Hk Hq.
    apply (Hfirst (S k)); [lia|done].
Qed.

Lemma remove_phone_loop_absent (phone : pystr) (self : record) :
  forall rest,
    (forall p, p ∈ rest -> value p <> phone) ->
    remove_phone_loop phone rest self =
      (Raise (ValueError "Phone not found."), self).
Proof.
  induction rest as [|p0 rest IH]; intros Hall; [done|].
  cbn. rewrite (proj2 (str_eqb_false _ _) (Hall p0 ltac:(left))).
  apply IH. intros p Hp. apply Hall. by right.
Qed.

Lemma remove_phone_first (self : record) (phone : pystr) (i : nat)
    (p : Field) :
  phones self !! i = Some p -> value p = phone ->
  (forall k q, (k < i)%nat -> phones self !! k = Some q -> value q <> phone) ->
  Record_remove_phone phone self =
    (Return tt, set_phones (delete i (phones self)) self).
Proof.
  intros Hi Hp Hfirst. unfold Record_remove_phone.
  rewrite (remove_phone_loop_found _ _ _ i p Hi Hp Hfirst).
  rewrite (py_list_remove_first p _ i Hi); [done|].
  intros k q Hk Hq ->. by apply (Hfirst k p).
Qed.

(** X1: [remove_phone] takes out the first phone that stores [phone], and
    that one only: the record afterwards has the name and the birthday of
    before and one phone less, the phones before the removed one at their
    positions and the phones after it one position earlier.  When no phone
    stores [phone] it raises [ValueError("Phone not found.")] and the
    record is as before. *)
Theorem remove_phone_spec (self : record) (phone : pystr) :
  (forall i p,
     phones self !! i = Some p -> value p = phone ->
     (forall k q, (k < i)%nat -> phones self !! k = Some q ->
                  value q <> phone) ->
     Record_remove_phone phone self =
       (Return tt,
        mkRecord (name self) (delete i (phones self)) (birthday self)) /\
     forall self',
       Record_remove_phone phone self = (Return tt, self') ->
       name self' = name self /\ birthday self' = birthday self /\
       S (length (phones self')) = length (phones self) /\
       (forall k, (k < i)%nat -> phones self' !! k = phones self !! k) /\
       (forall k, (i <= k)%nat -> phones self' !! k = phones self !! S k)) /\
  ((forall p, p ∈ phones self -> value p <> phone) ->
   Record_remove_phone phone self =
     (Raise (ValueError "Phone not found."), self)).
Proof.
  split.
  - intros i p Hi Hp Hfirst.
    rewrite (remove_phone_first self phone i p Hi Hp Hfirst).
    split; [done|]. intros self' [= <-].
    cbn [name phones birthday set_phones].
    split; [done|]. split; [done|].
    pose proof (lookup_lt_Some _ _ _ Hi) as Hlt. split.
    + rewrite length_delete by eauto. lia.
    + split.
      * intros k Hk. by apply list_lookup_delete_lt.
      * intros k Hk. by apply list_lookup_delete_ge.
  - intros Hall. by apply remove_phone_loop_absent.
Qed.

Lemma remove_phone_spec_witness :
  Record_remove_phone (py "1111111111") record_three_phones =
    (Return tt,
     mkRecord (mkField (py "Ann"))
       [mkField (py "2222222222"); mkField (py "1111111111")] None) /\
  Record_remove_phone (py "3333333333") record_three_phones =
    (Raise (ValueError "Phone not found."), record_three_phones).
Proof.
  split.
  - apply (proj1 (remove_phone_spec record_three_phones (py "1111111111"))
             0%nat (mkField (py "1111111111"))); try reflexivity.
    intros k q Hk. lia.
  - apply (proj2 (remove_phone_spec record_three_phones (py "3333333333"))).
    intros p Hp. unfold record_three_phones in Hp. cbn [phones] in Hp.
    repeat (apply elem_of_cons in Hp as [->|Hp]);
      [vm_compute; discriminate..|by apply not_elem_of_nil in Hp].
Defined.

(** X2: [find_phone] returns the first phone that stores [phone], and
    [None] exactly when no phone of the record stores it. *)
Theorem find_phone_spec (self : record) (phone : pystr) :
  (forall p, Record_find_phone phone self = Some p <->
     exists i, phones self !! i = Some p /\ value p = phone /\
       forall k q, (k < i)%nat -> phones self !! k = Some q ->
                   value q <> phone) /\
  (Record_find_phone phone self = None <->
   forall p, p ∈ phones self -> value p <> phone).
Proof.
  unfold Record_find_phone. induction (phones self) as [|p0 l [IH1 IH2]].
  - split.
    + intros p. split; [done|]. by intros (i & Hi & _).
    + split; [|done]. intros _ p Hp. by apply not_elem_of_nil in Hp.
  - cbn [find]. destruct (str_eqb (value p0) phone) eqn:E.
    + apply str_eqb_true in E. split.
      * intros p. split.
        -- intros [= <-]. exists 0%nat. split; [done|]. split; [done|].
           intros k q Hk. lia.
        -- intros (i & Hi & Hp & Hfirst). destruct i as [|i].
           ++ by injection Hi as ->.
           ++ exfalso. by apply (Hfirst 0%nat p0); [lia| |].
      * split; [done|]. intros Hall. exfalso.
        by apply (Hall p0); [left|].
    + apply str_eqb_false in E. split.
      * intros p. rewrite IH1. split.
        -- intros (i & Hi & Hp & Hfirst). exists (S i).
           split; [done|]. split; [done|].
           intros [|k] q Hk Hq; [by injection Hq as <-|].
           apply (Hfirst k); [lia|done].
        -- intros (i & Hi & Hp & Hfirst). destruct i as [|i].
           ++ injection Hi as ->. done.
           ++ exists i. split; [done|]. split; [done|].
              intros k q Hk Hq. apply (Hfirst (S k)); [lia|done].
      * rewrite IH2. split.
        -- intros Hall p Hp. apply elem_of_cons in Hp as [->|Hp];
             [done|by apply Hall].
        -- intros Hall p Hp. apply Hall. by right.
Qed.

Lemma find_phone_spec_witness :
  Record_find_phone (py "3333333333") record_three_phones = None.
Proof.
  apply (proj2 (find_phone_spec record_three_phones (py "3333333333"))).
  intros p Hp. unfold record_three_phones in Hp. cbn [phones] in Hp.
  repeat (apply elem_of_cons in Hp as [->|Hp]);
    [vm_compute; discriminate..|by apply not_elem_of_nil in Hp].
Defined.

Lemma set_phones_same (self : record) : set_phones (phones self) self = self.
Proof. by destruct self. Qed.

Lemma find_app_Some (phone : pystr) (l : list Field) (p : Field) :
  value p = phone ->
  exists q, find (fun x => str_eqb (value x) phone) (l ++ [p]) = Some q /\
            value q = phone /\
            ((forall x, x ∈ l -> value x <> phone) -> q = p).
Proof.
  intros Hp. induction l as [|y l IH]; cbn.
  - rewrite (proj2 (str_eqb_true _ _) Hp). by exists p.
  - destruct (str_eqb (value y) phone) eqn:E.
    + apply str_eqb_true in E. exists y. split; [done|]. split; [done|].
      intros Hall. exfalso. by apply (Hall y); [left|].
    + destruct IH as (q & Hq & Hv & Hfresh). exists q.
      split; [done|]. split; [done|]. intros Hall. apply Hfresh.
      intros x Hx. apply Hall. by right.
Qed.

(** X3: after [add_phone] has accepted a phone, [find_phone] finds a phone
    that stores it, and [remove_phone] takes the first such phone out:
    when the record did not hold the phone before, the added phone is
    found and removing it gives the record back; when it did, at index
    [i], the older phone goes and the added one stays last. *)
Theorem add_phone_then_find_remove (self : record) (phone : pystr) (p : Field) :
  Phone_init phone = Return p ->
  let self' := set_phones (phones self ++ [p]) self in
  Record_add_phone phone self = (Return tt, self') /\
  (exists q, Record_find_phone phone self' = Some q /\ value q = phone) /\
  ((forall x, x ∈ phones self -> value x <> phone) ->
   Record_find_phone phone self' = Some p /\
   Record_remove_phone phone self' = (Return tt, self)) /\
  (forall i x,
     phones self !! i = Some x -> value x = phone ->
     (forall k q, (k < i)%nat -> phones self !! k = Some q ->
                  value q <> phone) ->
     Record_remove_phone phone self' =
       (Return tt, set_phones (delete i (phones self) ++ [p]) self)).
Proof.
  intros Hp self'. pose proof (Phone_init_inv _ _ Hp) as [Hpeq _].
  assert (value p = phone) as Hv by (by subst p).
  split; [unfold Record_add_phone; by rewrite Hp|].
  destruct (find_app_Some phone (phones self) p Hv) as (q & Hq & Hqv & Hfresh).
  split; [by exists q|]. split.
  - intros Hall. split.
    + unfold Record_find_phone. cbn [self' phones set_phones].
      by rewrite Hq, (Hfresh Hall).
    + rewrite (remove_phone_first self' phone (length (phones self)) p).
      * cbn [self' phones set_phones name birthday].
        rewrite delete_middle, app_nil_r. unfold set_phones.
        cbn [name birthday]. by destruct self.
      * cbn [self' phones set_phones]. by apply list_lookup_middle.
      * done.
      * cbn [self' phones set_phones]. intros k x Hk Hx.
        rewrite lookup_app_l in Hx by done.
        apply Hall. apply list_elem_of_lookup. eauto.
  - intros i x Hi Hx Hfirst.
    rewrite (remove_phone_first self' phone i x).
    + cbn [self' phones set_phones name birthday]. unfold set_phones.
      cbn [name birthday]. f_equal. f_equal.
      pose proof (lookup_lt_Some _ _ _ Hi) as Hlt.
      clear -Hlt. revert i Hlt.
      induction (phones self) as [|y l IH]; intros i Hlt; [cbn in Hlt; lia|].
      destruct i as [|i]; [done|]. cbn. f_equal. apply IH. cbn in Hlt. lia.
    + cbn [self' phones set_phones].
      rewrite lookup_app_l by (by eapply lookup_lt_Some). done.
    + done.
    + cbn [self' phones set_phones]. intros k y Hk Hy.
      rewrite lookup_app_l in Hy
        by (pose proof (lookup_lt_Some _ _ _ Hi); lia).
      by apply (Hfirst k).
Qed.

Lemma add_phone_then_find_remove_witness :
  Record_remove_phone (py "2222222222")
    (set_phones (phones record_1111 ++ [mkField (py "2222222222")])
       record_1111) = (Return tt, record_1111).
Proof.
  apply (add_phone_then_find_remove record_1111 (py "2222222222")
           (mkField (py "2222222222")) eq_refl).
  intros x Hx. unfold record_1111 in Hx. cbn [phones] in Hx.
  apply list_elem_of_singleton in Hx as ->. vm_compute. discriminate.
Defined.

Lemma find_insert_first (P : Field -> bool) (l : list Field) (i : nat)
    (q : Field) :
  (i < length l)%nat -> P q = true ->
  (forall k x, (k < i)%nat -> l !! k = Some x -> P x = false) ->
  find P (<[i := q]> l) = Some q.
Proof.
  revert i. induction l as [|y l IH]; intros i Hi Hq Hfirst; [cbn in Hi; lia|].
  destruct i as [|i]; cbn.
  - by rewrite Hq.
  - rewrite (Hfirst 0%nat y) by (done || lia).
    apply IH; [cbn in Hi; lia|done|].
    intros k x Hk Hx. apply (Hfirst (S k)); [lia|done].
Qed.

Lemma find_insert_none (P : Field -> bool) (l : list Field) (i : nat)
    (q : Field) :
  P q = false ->
  (forall k x, k <> i -> l !! k = Some x -> P x = false) ->
  find P (<[i := q]> l) = None.
Proof.
  revert i. induction l as [|y l IH]; intros i Hq Hall; [done|].
  destruct i as [|i]; cbn.
  - rewrite Hq. clear IH.
    assert (forall k x, l !! k = Some x -> P x = false) as Hl
        by (intros k x Hx; apply (Hall (S k)); [lia|done]).
    clear Hall. induction l as [|z l IH]; [done|]. cbn.
    rewrite (Hl 0%nat z) by done. apply IH.
    intros k x Hx. by apply (Hl (S k)).
  - rewrite (Hall 0%nat y) by (done || lia).
    apply IH; [done|]. intros k x Hk Hx. apply (Hall (S k)); [lia|done].
Qed.

(** X4: after [edit_phone] has replaced the first phone that stores
    [old_phone] by the phone validated from a different [new_phone], the
    record has as many phones as before, [find_phone] finds the new phone
    where no earlier phone stores [new_phone], and it finds nothing for
    [old_phone] when no other phone stores it. *)
Theorem edit_phone_then_find (self : record) (old_phone new_phone : pystr)
    (i : nat) (p q : Field) :
  phones self !! i = Some p -> value p = old_phone ->
  (forall k x, (k < i)%nat -> phones self !! k = Some x ->
               value x <> old_phone) ->
  Phone_init new_phone = Return q ->
  exists self',
    Record_edit_phone old_phone new_phone self = (Return tt, self') /\
    length (phones self') = length (phones self) /\
    ((forall k x, (k < i)%nat -> phones self !! k = Some x ->
                  value x <> new_phone) ->
     Record_find_phone new_phone self' = Some q) /\
    (old_phone <> new_phone ->
     (forall k x, k <> i -> phones self !! k = Some x ->
                  value x <> old_phone) ->
     Record_find_phone old_phone self' = None).
Proof.
  intros Hi Hp Hfirst Hq.
  pose proof (Phone_init_inv _ _ Hq) as [Hqeq _].
  assert (value q = new_phone) as Hqv by (by subst q).
  exists (set_phones (<[i := q]> (phones self)) self).
  split.
  { unfold Record_edit_phone.
    by rewrite (edit_phone_loop_found _ _ _ _ 0%nat i p Hi Hp Hfirst), Hq. }
  cbn [phones set_phones]. split; [apply length_insert|].
  unfold Record_find_phone. cbn [phones set_phones]. split.
  - intros Hnew. apply find_insert_first.
    + by eapply lookup_lt_Some.
    + by apply str_eqb_true.
    + intros k x Hk Hx. apply str_eqb_false. by apply (Hnew k).
  - intros Hne Hother. apply find_insert_none.
    + apply str_eqb_false. congruence.
    + intros k x Hk Hx. apply str_eqb_false. by apply (Hother k).
Qed.

Lemma edit_phone_then_find_witness :
  exists self',
    Record_edit_phone (py "1111111111") (py "2222222222") record_1111 =
      (Return tt, self') /\
    Record_find_phone (py "2222222222") self' =
      Some (mkField (py "2222222222")) /\
    Record_find_phone (py "1111111111") self' = None.
Proof.
  destruct (edit_phone_then_find record_1111 (py "1111111111")
              (py "2222222222") 0%nat (mkField (py "1111111111"))
              (mkField (py "2222222222")) eq_refl eq_refl
              ltac:(intros k x Hk; lia) eq_refl)
    as (self' & Hrun & _ & Hnew & Hold).
  exists self'. split; [done|]. split.
  - apply Hnew. intros k x Hk. lia.
  - apply Hold; [vm_compute; discriminate|].
    intros [|k] x Hk Hx; [done|]. by destruct k.
Defined.

(** ** The invariant of a record *)



Lemma edit_phone_loop_cases (old_phone new_phone : pystr) (self : record) :
  forall rest i,
    (exists e, edit_phone_loop old_phone new_phone i rest self = (Raise e, self))
    \/ exists j q, Phone_init new_phone = Return q /\
         edit_phone_loop old_phone new_phone i rest self =
           (Return tt, set_phones (<[j := q]> (phones self)) self).
Proof.
  induction rest as [|p rest IH]; intros i; cbn; [left; eauto|].
  destruct (str_eqb (value p) old_phone); [|apply IH].
  destruct (Phone_init new_phone) as [q|e] eqn:Hq; [right|left]; eauto.
Qed.

Lemma Record_init_ok (n : pystr) : record_ok (Record_init n).
Proof. split; [constructor|done]. Qed.

Lemma Record_add_phone_ok (phone : pystr) (self : record) :
  record_ok self ->
  record_ok (snd (Record_add_phone phone self)) /\
  name (snd (Record_add_phone phone self)) = name self.
Proof.
  intros [Hph Hbd]. unfold Record_add_phone.
  destruct (Phone_init phone) as [p|e] eqn:Hp; cbn; [|by split].
  apply Phone_init_inv in Hp as [-> Hd]. split; [|done]. split; [|done].
  cbn. apply Forall_app. split; [done|]. by constructor.
Qed.


Lemma Record_edit_phone_ok (old_phone new_phone : pystr) (self : record) :
  record_ok self ->
  record_ok (snd (Record_edit_phone old_phone new_phone self)) /\
  name (snd (Record_edit_phone old_phone new_phone self)) = name self.
Proof.
  intros [Hph Hbd]. unfold Record_edit_phone.
  destruct (edit_phone_loop_cases old_phone new_phone self (phones self) 0%nat)
    as [[e ->]|(j & q & Hq & ->)]; cbn; [by split|].
  apply Phone_init_inv in Hq as [-> Hd].
  split; [|done]. split; [|done]. by apply Forall_insert.
Qed.

Lemma Record_add_birthday_ok (birthday_str : pystr) (self : record) :
  record_ok self ->
  record_ok (snd (Record_add_birthday birthday_str self)) /\
  name (snd (Record_add_birthday birthday_str self)) = name self.
Proof.
  intros [Hph Hbd]. unfold Record_add_birthday.
  destruct (Birthday_init birthday_str) as [f|e] eqn:Hb; cbn; [|by split].
  apply Birthday_init_Return in Hb as [-> [d Hd]].
  split; [|done]. split; [done|]. cbn. intros b' [= <-]. by exists d.
Qed.



(** ** Storing and finding records *)

Lemma dict_get_set_eq (k : pystr) (v : loc) (d : dict) :
  dict_get k (dict_set k v d) = Some v.
Proof.
  induction d as [|[k' v'] d IH]; cbn.
  - by rewrite (proj2 (str_eqb_true k k) eq_refl).
  - destruct (str_eqb k' k) eqn:E; cbn; by rewrite E.
Qed.

Lemma dict_get_set_ne (k k0 : pystr) (v : loc) (d : dict) :
  k0 <> k -> dict_get k0 (dict_set k v d) = dict_get k0 d.
Proof.
  intros Hne. induction d as [|[k' v'] d IH]; cbn.
  - by rewrite (proj2 (str_eqb_false k k0)) by congruence.
  - destruct (str_eqb k' k) eqn:E; cbn.
    + apply str_eqb_true in E. subst k'.
      by rewrite (proj2 (str_eqb_false k k0)) by congruence.
    + by rewrite IH.
Qed.

Lemma dict_set_present (k : pystr) (v : loc) (d : dict) :
  k ∈ map fst d -> map fst (dict_set k v d) = map fst d.
Proof.
  induction d as [|[k' v'] d IH]; cbn; [by intros ?%not_elem_of_nil|].
  destruct (str_eqb k' k) eqn:E; [done|]. apply str_eqb_false in E.
  intros [?|Hin]%elem_of_cons; [congruence|]. cbn. by rewrite IH.
Qed.

Lemma dict_del_app_last (k : pystr) (v : loc) (d : dict) :
  dict_get k d = None -> dict_del k (d ++ [(k, v)]) = d.
Proof.
  induction d as [|[k' v'] d IH]; cbn.
  - by rewrite (proj2 (str_eqb_true k k) eq_refl).
  - destruct (str_eqb k' k); [done|]. intros H. by rewrite IH.
Qed.

(** X6: after [add_record] of a record, [find] with the name of the record
    returns that record and [find] with any other name returns what it
    returned before; a record with a new name comes last in the book,
    while a record with a name that the book has takes the place of the
    record of that name, the number and the order of the names being as
    before. *)
Theorem add_record_then_find (s : state) (rec : loc) (r : record) :
  heap s !! rec = Some r ->
  let n := value (name r) in
  let s' := mkState (heap s) (dict_set n rec (data s)) in
  AddressBook_add_record rec s = Some (Return tt, s') /\
  AddressBook_find n s' = Some (Return (Some rec), s') /\
  (forall k, k <> n ->
     AddressBook_find k s' = Some (Return (dict_get k (data s)), s')) /\
  (dict_get n (data s) = None -> data s' = data s ++ [(n, rec)]) /\
  (n ∈ names s -> names s' = names s).
Proof.
  intros Hr n s'.
  unfold AddressBook_add_record, AddressBook_find, deref, get_data, put_data,
    ret, bind.
  rewrite Hr. cbn [heap data]. split; [done|].
  subst s'. cbn [data]. rewrite dict_get_set_eq. split; [done|]. split.
  - intros k Hk. by rewrite dict_get_set_ne.
  - split; [apply dict_set_absent|apply dict_set_present].
Qed.

Lemma add_record_then_find_witness :
  AddressBook_find (py "Ann")
    (mkState (heap book_ann_bob) (dict_set (py "Ann") 0%nat (data book_ann_bob)))
  = Some (Return (Some 0%nat),
          mkState (heap book_ann_bob)
            (dict_set (py "Ann") 0%nat (data book_ann_bob))).
Proof.
  destruct (add_record_then_find book_ann_bob 0%nat (Record_init (py "Ann"))
              eq_refl) as (_ & H & _).
  exact H.
Defined.

(** X7: storing a record under a name that the book does not have and
    deleting that name gives the book back. *)
Theorem add_record_then_delete (s : state) (rec : loc) (r : record) :
  heap s !! rec = Some r ->
  dict_get (value (name r)) (data s) = None ->
  (AddressBook_add_record rec ;;; AddressBook_delete (value (name r)))%prog s
  = Some (Return tt, s).
Proof.
  intros Hr Hn.
  unfold AddressBook_add_record, AddressBook_delete, deref, get_data,
    put_data, raise, bind, dict_in.
  rewrite Hr. cbn [heap data].
  rewrite dict_get_set_eq, (dict_set_absent _ _ _ Hn), dict_del_app_last by done.
  by destruct s.
Qed.

Lemma add_record_then_delete_witness :
  (AddressBook_add_record 0%nat ;;; AddressBook_delete (py "Ann"))%prog
    (mkState [Record_init (py "Ann")] []) =
  Some (Return tt, mkState [Record_init (py "Ann")] []).
Proof.
  apply (add_record_then_delete (mkState [Record_init (py "Ann")] []) 0%nat
           (Record_init (py "Ann"))); reflexivity.
Defined.

(** ** The invariant of the book *)

Lemma good_wf (s : state) : good s -> wf s.
Proof.
  intros [Hnd Hall]. split; [done|].
  eapply Forall_impl; [exact Hall|]. intros kl (r & Hr & _).
  by eapply lookup_lt_Some.
Qed.

Lemma good_empty : good empty_book.
Proof. split; [apply NoDup_nil_2|apply Forall_nil_2]. Defined.

Lemma good_lookup (s : state) (n : pystr) (l : loc) :
  good s -> dict_get n (data s) = Some l ->
  exists r, heap s !! l = Some r /\ value (name r) = n /\ record_ok r.
Proof.
  intros [_ Hall] Hn. apply dict_get_Some_elem in Hn.
  rewrite Forall_forall in Hall. apply (Hall _ Hn).
Qed.

Lemma good_update (s : state) (l : loc) (r r' : record) :
  good s -> heap s !! l = Some r -> name r' = name r -> record_ok r' ->
  good (mkState (<[l := r']> (heap s)) (data s)).
Proof.
  intros [Hnd Hall] Hl Hname Hok. split; [done|]. cbn [heap data].
  eapply Forall_impl; [exact Hall|]. intros [k l0] (r0 & Hr0 & Hk & Hok0).
  cbn [fst snd] in *. destruct (decide (l0 = l)) as [->|Hne].
  - exists r'. rewrite list_lookup_insert_eq by (by eapply lookup_lt_Some).
    split; [done|]. split; [|done]. rewrite Hname.
    by replace r with r0 by congruence.
  - exists r0. by rewrite list_lookup_insert_ne.
Qed.

Lemma good_new (s : state) (n : pystr) (r : record) :
  good s -> dict_get n (data s) = None -> value (name r) = n -> record_ok r ->
  good (with_new_record n r s).
Proof.
  intros [Hnd Hall] Hn Hname Hok. unfold with_new_record. split; cbn [heap data].
  - rewrite map_app. cbn. apply NoDup_app. split; [done|]. split.
    + intros k Hk Hk'. apply list_elem_of_singleton in Hk' as ->.
      by apply dict_get_None in Hn.
    + apply NoDup_singleton.
  - apply Forall_app. split.
    + eapply Forall_impl; [exact Hall|]. intros kl (r0 & Hr0 & Hk & Hok0).
      exists r0. by rewrite lookup_app_l by (by eapply lookup_lt_Some).
    + constructor; [|constructor]. exists r. cbn.
      by rewrite lookup_last_alloc.
Qed.

(** ** The answers of the command handlers *)

Lemma call_run {A} (l : loc) (r : record)
    (method : record -> result A * record) (s : state) :
  heap s !! l = Some r ->
  call l method s =
    Some (fst (method r), mkState (<[l := snd (method r)]> (heap s)) (data s)).
Proof. intros H. unfold call. rewrite H. by destruct (method r). Qed.

Lemma state_same (s : state) (l : loc) (r : record) :
  heap s !! l = Some r -> mkState (<[l := r]> (heap s)) (data s) = s.
Proof. intros H. rewrite (list_insert_id _ _ _ H). by destruct s. Qed.

(** X8: a handler that is given fewer arguments than it reads answers
    "Not enough arguments." and leaves the book as it is. *)
Theorem not_enough_arguments (args : list pystr) (s : state) :
  ((length args < 2)%nat ->
   add_contact args s = Some (Return (py "Not enough arguments."), s)) /\
  ((length args < 3)%nat ->
   change_contact args s = Some (Return (py "Not enough arguments."), s)) /\
  ((length args < 1)%nat ->
   show_phone args s = Some (Return (py "Not enough arguments."), s)) /\
  ((length args < 2)%nat ->
   add_birthday args s = Some (Return (py "Not enough arguments."), s)) /\
  ((length args < 1)%nat ->
   show_birthday args s = Some (Return (py "Not enough arguments."), s)).
Proof.
  repeat split; intros Hlen;
    destruct args as [|a [|b [|c args]]]; cbn in Hlen; try lia; reflexivity.
Qed.

Lemma not_enough_arguments_witness :
  change_contact [py "Ann"; py "1111111111"] book_ann_bob =
    Some (Return (py "Not enough arguments."), book_ann_bob).
Proof.
  apply (not_enough_arguments [py "Ann"; py "1111111111"] book_ann_bob).
  cbn. lia.
Defined.

(** X9: [change_contact], [show_phone], [add_birthday] and
    [show_birthday], asked about a name that is not in the book, answer
    with the message of the [KeyError] between single quotes, as [str]
    gives it, and leave the book as it is. *)
Theorem unknown_contact (s : state) (n a b : pystr) (rest : list pystr) :
  dict_get n (data s) = None ->
  change_contact (n :: a :: b :: rest) s =
    Some (Return contact_not_found_answer, s) /\
  show_phone (n :: rest) s = Some (Return contact_not_found_answer, s) /\
  add_birthday (n :: a :: rest) s = Some (Return contact_not_found_answer, s) /\
  show_birthday (n :: rest) s = Some (Return contact_not_found_answer, s).
Proof.
  intros Hn.
  unfold change_contact, show_phone, add_birthday, show_birthday, input_error,
    change_contact_body, show_phone_body, add_birthday_body,
    show_birthday_body, index, AddressBook_find, get_data, ret, raise, bind.
  cbn [lookup list_lookup]. cbn beta iota. rewrite Hn.
  repeat split.
Qed.

Lemma unknown_contact_witness :
  show_phone [py "Eve"] book_ann_bob =
    Some (Return contact_not_found_answer, book_ann_bob).
Proof.
  apply (unknown_contact book_ann_bob (py "Eve") [] [] []). reflexivity.
Defined.

Lemma change_contact_present (s : state) (n o nw : pystr) (rest : list pystr)
    (l : loc) (r : record) :
  dict_get n (data s) = Some l -> heap s !! l = Some r ->
  change_contact_body (n :: o :: nw :: rest) s =
    match Record_edit_phone o nw r with
    | (Return _, r') =>
        Some (Return (py "Phone changed."),
              mkState (<[l := r']> (heap s)) (data s))
    | (Raise e, r') => Some (Raise e, mkState (<[l := r']> (heap s)) (data s))
    end.
Proof.
  intros Hn Hl.
  unfold change_contact_body, index, AddressBook_find, get_data, ret, bind.
  cbn [lookup list_lookup]. cbn beta iota. rewrite Hn.
  rewrite (call_run _ _ _ _ Hl).
  by destruct (Record_edit_phone o nw r) as [[[]|e] r'].
Qed.

(** X10: [change_contact] on a contact of the book answers "Phone
    changed." and has put the validated new phone at the place of the
    first phone equal to the old one; it answers "Old phone not found."
    when the contact has no such phone, and the message of the phone
    validation when the new phone is refused, and the book is then as
    before. *)
Theorem change_contact_spec (s : state) (n o nw : pystr) (rest : list pystr)
    (l : loc) (r : record) :
  dict_get n (data s) = Some l -> heap s !! l = Some r ->
  (forall i p,
     phones r !! i = Some p -> value p = o ->
     (forall k q, (k < i)%nat -> phones r !! k = Some q -> value q <> o) ->
     (forall q, Phone_init nw = Return q ->
        change_contact (n :: o :: nw :: rest) s =
          Some (Return (py "Phone changed."),
                mkState (<[l := set_phones (<[i := q]> (phones r)) r]> (heap s))
                  (data s))) /\
     (forall e, Phone_init nw = Raise e ->
        change_contact (n :: o :: nw :: rest) s =
          Some (Return (py "Phone number must contain exactly 10 digits."), s)))
  /\
  ((forall p, p ∈ phones r -> value p <> o) ->
   change_contact (n :: o :: nw :: rest) s =
     Some (Return (py "Old phone not found."), s)).
Proof.
  intros Hn Hl. unfold change_contact, input_error.
  rewrite (change_contact_present _ _ _ _ _ _ _ Hn Hl).
  unfold Record_edit_phone. split.
  - intros i p Hi Hp Hfirst.
    rewrite (edit_phone_loop_found _ _ _ _ 0%nat i p Hi Hp Hfirst). cbn [Nat.add].
    split.
    + by intros q ->.
    + intros e He. rewrite He. rewrite (state_same _ _ _ Hl).
      destruct (ten_digits_dec nw) as [Hd|Hd].
      * rewrite (Phone_init_accepts _ Hd) in He. discriminate.
      * rewrite (Phone_init_rejects _ Hd) in He. by injection He as <-.
  - intros Hall. rewrite (edit_phone_loop_absent _ _ _ _ 0%nat Hall).
    by rewrite (state_same _ _ _ Hl).
Qed.

Lemma change_contact_spec_witness :
  change_contact [py "Alice"; py "1234567890"; py "5555555555"] book_alice =
    Some (Return (py "Phone changed."),
          mkState [mkRecord (mkField (py "Alice"))
                     [mkField (py "5555555555")] None]
                  [(py "Alice", 0%nat)]) /\
  change_contact [py "Alice"; py "0000000000"; py "5555555555"] book_alice =
    Some (Return (py "Old phone not found."), book_alice).
Proof.
  split.
  - destruct (proj1 (change_contact_spec book_alice (py "Alice")
                       (py "1234567890") (py "5555555555") [] 0%nat _
                       eq_refl eq_refl)
                0%nat (mkField (py "1234567890")) eq_refl eq_refl
                ltac:(intros k q Hk; lia)) as [Hok _].
    apply (Hok (mkField (py "5555555555")) eq_refl).
  - apply (proj2 (change_contact_spec book_alice (py "Alice") (py "0000000000")
                    (py "5555555555") [] 0%nat _ eq_refl eq_refl)).
    intros p Hp. cbn [phones] in Hp.
    apply list_elem_of_singleton in Hp as ->. vm_compute. discriminate.
Defined.

Lemma show_phone_present (s : state) (n : pystr) (rest : list pystr)
    (l : loc) (r : record) :
  dict_get n (data s) = Some l -> heap s !! l = Some r ->
  show_phone (n :: rest) s =
    Some (Return match phones r with
                 | [] => py "No phones for this contact."
                 | _ => str_join (py "; ") (map value (phones r))
                 end, s).
Proof.
  intros Hn Hl.
  unfold show_phone, input_error, show_phone_body, index, AddressBook_find,
    get_data, deref, ret, bind.
  cbn [lookup list_lookup]. cbn beta iota. rewrite Hn, Hl.
  by destruct (phones r).
Qed.

Lemma add_contact_args (n phone : pystr) (rest : list pystr) (s : state) :
  add_contact_body (n :: phone :: rest) s = add_contact_body [n; phone] s.
Proof. reflexivity. Qed.

(** X11: after [add_contact] for a name that the book did not have,
    [show_phone] for that name answers the phone when it was accepted and
    "No phones for this contact." when it was refused (the contact exists
    all the same); after a second accepted phone it answers the two
    phones, joined by "; ", in the order in which they came. *)
Theorem add_contact_then_show_phone (s : state) (n phone : pystr) :
  dict_get n (data s) = None ->
  exists answer s1,
    add_contact [n; phone] s = Some (Return answer, s1) /\
    (forall p, Phone_init phone = Return p ->
       answer = py "Contact added." /\
       show_phone [n] s1 = Some (Return phone, s1) /\
       forall phone2 p2, Phone_init phone2 = Return p2 ->
         exists s2,
           add_contact [n; phone2] s1 =
             Some (Return (py "Contact updated."), s2) /\
           show_phone [n] s2 =
             Some (Return (phone ++ py "; " ++ phone2), s2)) /\
    (forall e, Phone_init phone = Raise e ->
       show_phone [n] s1 =
         Some (Return (py "No phones for this contact."), s1)).
Proof.
  intros Hn. unfold add_contact, input_error.
  rewrite (add_contact_body_absent _ _ _ Hn).
  destruct (Phone_init phone) as [p|e] eqn:Hp.
  - eexists _, _. split; [reflexivity|]. split; [|done].
    intros p0 [= <-]. split; [done|].
    pose proof (Phone_init_inv _ _ Hp) as [-> _].
    assert (dict_get n (data (with_new_record n
              (mkRecord (mkField n) [mkField phone] None) s)) =
            Some (length (heap s))) as Hget
        by (by apply dict_get_app_last).
    split.
    + erewrite show_phone_present; [|exact Hget|apply lookup_last_alloc]. done.
    + intros phone2 p2 Hp2. pose proof (Phone_init_inv _ _ Hp2) as [-> _].
      rewrite (add_contact_body_present _ _ _ _ _ Hget (lookup_last_alloc _ _)).
      rewrite Hp2. eexists. split; [reflexivity|].
      rewrite (show_phone_present _ n [] (length (heap s))
                 (mkRecord (mkField n) [mkField phone; mkField phone2] None)).
      * reflexivity.
      * exact Hget.
      * unfold with_new_record. cbn [heap]. rewrite insert_last_alloc.
        apply lookup_last_alloc.
  - assert (exists msg, e = ValueError msg) as [msg ->].
    { destruct (ten_digits_dec phone) as [Hd|Hd].
      - rewrite (Phone_init_accepts _ Hd) in Hp. discriminate.
      - rewrite (Phone_init_rejects _ Hd) in Hp. injection Hp as <-. eauto. }
    eexists _, _. split; [reflexivity|]. split; [done|].
    intros e _.
    rewrite (show_phone_present _ n [] (length (heap s)) (Record_init n)).
    + reflexivity.
    + by apply dict_get_app_last.
    + apply lookup_last_alloc.
Qed.

Lemma add_contact_then_show_phone_witness :
  exists answer s1,
    add_contact [py "Alice"; py "1234567890"] empty_book =
      Some (Return answer, s1) /\
    show_phone [py "Alice"] s1 = Some (Return (py "1234567890"), s1).
Proof.
  destruct (add_contact_then_show_phone empty_book (py "Alice")
              (py "1234567890") eq_refl) as (answer & s1 & Hrun & Hok & _).
  exists answer, s1. split; [done|].
  apply (Hok (mkField (py "1234567890")) eq_refl).
Defined.

Lemma show_birthday_present (s : state) (n : pystr) (rest : list pystr)
    (l : loc) (r : record) :
  dict_get n (data s) = Some l -> heap s !! l = Some r ->
  show_birthday (n :: rest) s =
    Some (Return match birthday r with
                 | None => py "Birthday is not set."
                 | Some b => value b
                 end, s).
Proof.
  intros Hn Hl.
  unfold show_birthday, input_error, show_birthday_body, index,
    AddressBook_find, get_data, deref, ret, bind.
  cbn [lookup list_lookup]. cbn beta iota. rewrite Hn, Hl.
  by destruct (birthday r).
Qed.

Lemma add_birthday_present (s : state) (n b : pystr) (rest : list pystr)
    (l : loc) (r : record) :
  dict_get n (data s) = Some l -> heap s !! l = Some r ->
  add_birthday (n :: b :: rest) s =
    match Birthday_init b with
    | Return f =>
        Some (Return (py "Birthday added."),
              mkState (<[l := set_birthday (Some f) r]> (heap s)) (data s))
    | Raise _ =>
        Some (Return (py "Invalid date format. Use DD.MM.YYYY"), s)
    end.
Proof.
  intros Hn Hl.
  unfold add_birthday, input_error, add_birthday_body, index,
    AddressBook_find, get_data, ret, bind.
  cbn [lookup list_lookup]. cbn beta iota. rewrite Hn.
  rewrite (call_run _ _ _ _ Hl). unfold Record_add_birthday.
  destruct (Birthday_init b) as [f|e] eqn:Hb; cbn [fst snd]; [done|].
  rewrite (Birthday_init_Raise _ _ Hb). unfold invalid_date_format.
  by rewrite (state_same _ _ _ Hl).
Qed.

(** X12: for a contact of the book, [add_birthday] with a string that
    [Birthday] accepts answers "Birthday added.", and [show_birthday] then
    answers that very string, whatever birthday was set before; with a
    string that [Birthday] refuses it answers "Invalid date format. Use
    DD.MM.YYYY" and the book is as before.  Without a birthday,
    [show_birthday] answers "Birthday is not set.". *)
Theorem add_birthday_then_show (s : state) (n b : pystr) (l : loc)
    (r : record) :
  dict_get n (data s) = Some l -> heap s !! l = Some r ->
  (forall f, Birthday_init b = Return f ->
     exists s1,
       add_birthday [n; b] s = Some (Return (py "Birthday added."), s1) /\
       show_birthday [n] s1 = Some (Return b, s1)) /\
  (forall e, Birthday_init b = Raise e ->
     add_birthday [n; b] s =
       Some (Return (py "Invalid date format. Use DD.MM.YYYY"), s)) /\
  (birthday r = None ->
   show_birthday [n] s = Some (Return (py "Birthday is not set."), s)).
Proof.
  intros Hn Hl. rewrite (add_birthday_present _ _ _ _ _ _ Hn Hl).
  split; [|split].
  - intros f Hf. rewrite Hf. eexists. split; [reflexivity|].
    apply Birthday_init_Return in Hf as [-> _].
    rewrite (show_birthday_present _ n [] l
               (set_birthday (Some (mkField b)) r)); [done|done|].
    cbn [heap]. apply list_lookup_insert_eq. by eapply lookup_lt_Some.
  - by intros e ->.
  - intros Hnone. rewrite (show_birthday_present _ _ _ _ _ Hn Hl).
    by rewrite Hnone.
Qed.

Lemma add_birthday_then_show_witness :
  exists s1,
    add_birthday [py "Alice"; py "1.2.2024"] book_alice =
      Some (Return (py "Birthday added."), s1) /\
    show_birthday [py "Alice"] s1 = Some (Return (py "1.2.2024"), s1).
Proof.
  apply (proj1 (add_birthday_then_show book_alice (py "Alice") (py "1.2.2024")
                  0%nat _ eq_refl eq_refl) (mkField (py "1.2.2024"))).
  vm_compute. reflexivity.
Defined.

(** ** Commands that only read *)

Lemma deref_all_state (s : state) :
  forall (ls : list loc) res (s' : state),
    deref_all ls s = Some (res, s') -> s' = s.
Proof.
  induction ls as [|l ls IH]; intros res s'.
  - cbn. by intros [= _ <-].
  - cbn [deref_all]. unfold bind, deref, ret.
    destruct (heap s !! l) as [r|]; [|done].
    destruct (deref_all ls s) as [[[rs|e] s1]|]; [| |done];
      specialize (IH _ _ eq_refl) as ->; by intros [= _ <-].
Qed.

Lemma deref_all_values (s : state) :
  alive s -> deref_all (map snd (data s)) s = Some (Return (values s), s).
Proof.
  unfold alive, values. induction (data s) as [|[k l] d IH]; [done|].
  intros Hal. apply Forall_cons in Hal as [[r Hr] Hal]. cbn in Hr.
  cbn [map snd deref_all omap list_omap]. unfold bind, deref, ret in *.
  rewrite Hr. by rewrite (IH Hal).
Qed.

Lemma input_error_state (func : Prog pystr) (s s' : state) res :
  input_error func s = Some (res, s') -> exists res0, func s = Some (res0, s').
Proof.
  unfold input_error.
  destruct (func s) as [[[a|[]] s1]|]; intros [= _ <-]; eauto.
Qed.

(** X13: [show_phone], [show_birthday], [show_all] and [birthdays] only
    read: whatever their arguments and whatever they answer, the book and
    its records are afterwards as they were. *)
Theorem reading_commands_keep_book (today : datetime.date)
    (args : list pystr) (s s' : state) (res : result pystr) :
  show_phone args s = Some (res, s') \/
  show_birthday args s = Some (res, s') \/
  show_all s = Some (res, s') \/
  birthdays today args s = Some (res, s') ->
  s' = s.
Proof.
  intros [H|[H|[H|H]]]; apply input_error_state in H as [res0 H].
  - revert H.
    unfold show_phone_body, index, AddressBook_find, get_data, deref, ret,
      raise, bind.
    destruct (args !! 0%nat) as [n|]; [|by intros [= _ <-]].
    destruct (dict_get n (data s)) as [l|]; [|by intros [= _ <-]].
    destruct (heap s !! l) as [r|]; [|done].
    by destruct (phones r); intros [= _ <-].
  - revert H.
    unfold show_birthday_body, index, AddressBook_find, get_data, deref, ret,
      raise, bind.
    destruct (args !! 0%nat) as [n|]; [|by intros [= _ <-]].
    destruct (dict_get n (data s)) as [l|]; [|by intros [= _ <-]].
    destruct (heap s !! l) as [r|]; [|done].
    by destruct (birthday r); intros [= _ <-].
  - revert H. unfold show_all_body, get_data, ret, bind.
    destruct (data s) as [|kl d] eqn:Hd; [by intros [= _ <-]|].
    destruct (deref_all (map snd (kl :: d)) s) as [[[rs|e] s1]|] eqn:Hall;
      [| |done].
    + apply deref_all_state in Hall as ->. by intros [= _ <-].
    + apply deref_all_state in Hall as ->. by intros [= _ <-].
  - revert H. unfold birthdays_body, bind.
    destruct (AddressBook_get_upcoming_birthdays today None s)
      as [[[out|e] s1]|] eqn:Hq; [| |done].
    + apply get_upcoming_birthdays_state in Hq as ->.
      by destruct out; intros [= _ <-].
    + apply get_upcoming_birthdays_state in Hq as ->. by intros [= _ <-].
Qed.

Lemma reading_commands_keep_book_witness :
  show_phone [py "Zed"] book_zed_bob =
    Some (Return (py "5550000001"), book_zed_bob) /\
  book_zed_bob = book_zed_bob.
Proof.
  assert (show_phone [py "Zed"] book_zed_bob =
            Some (Return (py "5550000001"), book_zed_bob)) as H
      by (vm_compute; reflexivity).
  split; [exact H|].
  apply (reading_commands_keep_book (datetime.mkdate 2024 6 10) [py "Zed"]
           book_zed_bob book_zed_bob (Return (py "5550000001"))).
  left. exact H.
Defined.

(** ** The outcomes of the query *)

(** The last day of the calendar, 31 December 9999, is a Friday: the move
    of a greeting from a weekend to the Monday never leaves the
    calendar. *)
Lemma shift_room (b : datetime.date) :
  datetime.valid b ->
  datetime.toordinal b + Spec.shift b <= datetime.MAXORDINAL.
Proof.
  intros Hv. pose proof (toordinal_bounds b Hv) as Hb.
  unfold Spec.shift, datetime.weekday, datetime.MAXORDINAL in *.
  destruct (Z.eqb_spec ((datetime.toordinal b + 6) mod 7) 5) as [E|E];
    [|destruct (Z.eqb_spec ((datetime.toordinal b + 6) mod 7) 6) as [E'|E']];
    Z.div_mod_to_equations; lia.
Qed.

Lemma computable_window (today : datetime.date) (d1 d2 : Z) (r : record) :
  Spec.computable today d1 r -> Spec.computable today d2 r.
Proof.
  unfold Spec.computable. destruct (birthday r) as [b|]; [|done].
  intros (bday & Hp & Hv & Hb & _). exists bday.
  do 3 (split; [done|]). intros _. by apply shift_room.
Qed.

Lemma upcoming_body_Raise (today : datetime.date) (days : Z) (r : record)
    (acc : list entry) (e : exn) :
  upcoming_body today days r acc = Raise e -> exists msg, e = ValueError msg.
Proof.
  unfold upcoming_body. destruct (birthday r) as [b|]; [|done].
  destruct (strptime.strptime_dmY (value b)) as [bd|e0] eqn:Hp; cbn [rbind].
  2:{ intros [= <-]. by eapply strptime_raises. }
  destruct (datetime.replace_year bd (datetime.year today)) as [t1|e0] eqn:H1;
    cbn [rbind].
  2:{ intros [= <-]. unfold datetime.replace_year in H1. by eapply new_raises. }
  match goal with
  | |- context [rbind ?c _] => destruct c as [t2|e0] eqn:H2
  end; cbn [rbind].
  2:{ intros [= <-]. destruct (datetime.lt t1 today); [|done].
      unfold datetime.replace_year in H2. by eapply new_raises. }
  assert (datetime.valid t2) as Hv.
  { apply replace_year_Return in H1 as [-> Hv1].
    destruct (datetime.lt _ today).
    - by apply replace_year_Return in H2 as [_ ?].
    - by injection H2 as <-. }
  cbv zeta. destruct (_ && _); [|done].
  match goal with
  | |- context [rbind ?c _] => destruct c as [g|e0] eqn:H3
  end; cbn [rbind]; [done|].
  pose proof (proj2 (congrat_Return t2 _ Hv) (conj eq_refl (shift_room _ Hv))).
  congruence.
Qed.

Lemma upcoming_loop_Raise (today : datetime.date) (days : Z) (s : state) :
  forall (locs : list loc) (acc : list entry) (e : exn) (s' : state),
    upcoming_loop today days locs acc s = Some (Raise e, s') ->
    exists msg, e = ValueError msg.
Proof.
  induction locs as [|l locs IH]; intros acc e s'; [done|].
  cbn [upcoming_loop]. unfold bind, deref.
  destruct (heap s !! l) as [r|]; [|done].
  destruct (upcoming_body today days r acc) as [acc1|e0] eqn:Hb; [apply IH|].
  unfold raise. intros [= <- _]. by eapply upcoming_body_Raise.
Qed.

Lemma upcoming_loop_alive (today : datetime.date) (days : Z) (s : state) :
  forall (locs : list loc),
    Forall (fun l => is_Some (heap s !! l)) locs ->
    forall acc, exists res, upcoming_loop today days locs acc s = Some (res, s).
Proof.
  induction 1 as [|l locs [r Hr] _ IH]; intros acc; [by eexists|].
  cbn [upcoming_loop]. unfold bind, deref. rewrite Hr.
  destruct (upcoming_body today days r acc); [apply IH|by eexists].
Qed.

(** On a book without dangling references the query returns the items of
    the records when every record is computable, and raises a
    [ValueError] when one is not; the book stays as it is. *)
Lemma query_outcome (today : datetime.date) (days : option Z) (s : state) :
  alive s ->
  (Forall (Spec.computable today (default 7 days)) (values s) /\
   AddressBook_get_upcoming_birthdays today days s =
     Some (Return (omap (Spec.item today (default 7 days)) (values s)), s)) \/
  (~ Forall (Spec.computable today (default 7 days)) (values s) /\
   exists msg,
     AddressBook_get_upcoming_birthdays today days s =
       Some (Raise (ValueError msg), s)).
Proof.
  intros Hal.
  destruct (AddressBook_get_upcoming_birthdays today days s)
    as [[[out|e] s1]|] eqn:Hq.
  - left. apply get_upcoming_birthdays_Return in Hq as (-> & _ & Hall & ->).
    by split.
  - right. split.
    + intros Hall.
      assert (AddressBook_get_upcoming_birthdays today days s =
                Some (Return (omap (Spec.item today (default 7 days))
                                (values s)), s)) as Hret
          by (by apply get_upcoming_birthdays_Return).
      congruence.
    + pose proof (get_upcoming_birthdays_state _ _ _ _ _ Hq) as ->.
      revert Hq. unfold AddressBook_get_upcoming_birthdays, bind, get_data.
      cbv zeta. intros Hq. apply upcoming_loop_Raise in Hq as [msg ->].
      by exists msg.
  - exfalso. revert Hq.
    unfold AddressBook_get_upcoming_birthdays, bind, get_data. cbv zeta.
    destruct (upcoming_loop_alive today (default 7 days) s (map snd (data s)))
      with (acc := @nil entry) as [res ->]; [|done].
    apply Forall_fmap. eapply Forall_impl; [exact Hal|]. by intros kl.
Qed.

(** X14: the query raises nothing but a [ValueError]: the move of a
    greeting from a weekend to the Monday cannot leave the calendar, whose
    last day is a Friday.  The command [birthdays], on a book without
    dangling references, therefore always answers, and leaves the book as
    it is. *)
Theorem birthdays_always_answers (today : datetime.date) (s : state) :
  (forall days e s',
     AddressBook_get_upcoming_birthdays today days s = Some (Raise e, s') ->
     exists msg, e = ValueError msg) /\
  (alive s ->
   forall args, exists answer,
     birthdays today args s = Some (Return answer, s)).
Proof.
  split.
  - intros days e s'. unfold AddressBook_get_upcoming_birthdays, bind, get_data.
    cbv zeta. apply upcoming_loop_Raise.
  - intros Hal args. unfold birthdays, input_error, birthdays_body, bind.
    destruct (query_outcome today None s Hal) as [[_ ->]|[_ [msg ->]]].
    + destruct (omap _ _); by eexists.
    + by eexists.
Qed.

Lemma birthdays_always_answers_witness :
  exists answer,
    birthdays (datetime.mkdate 2023 6 10) [] book_bob_ann =
      Some (Return answer, book_bob_ann).
Proof.
  apply (proj2 (birthdays_always_answers (datetime.mkdate 2023 6 10)
                  book_bob_ann)).
  repeat constructor; by eexists.
Defined.

(** ** Birthdays on 29 February *)

Lemma is_leap_next (y : Z) :
  datetime.is_leap y = true -> datetime.is_leap (y + 1) = false.
Proof.
  unfold datetime.is_leap. intros H. apply andb_true_iff in H as [H4 _].
  apply Z.eqb_eq in H4. apply andb_false_iff. left. apply Z.eqb_neq.
  Z.div_mod_to_equations. lia.
Qed.

Lemma valid_feb29 (y : Z) :
  datetime.valid (datetime.mkdate y 2 29) <->
  datetime.MINYEAR <= y <= datetime.MAXYEAR /\ datetime.is_leap y = true.
Proof.
  unfold datetime.valid, datetime.days_in_month. cbn [datetime.year
    datetime.month datetime.day]. change (2 =? 2) with true. cbn [andb].
  destruct (datetime.is_leap y); eval_tables; intuition (try lia; try done).
Qed.

Lemma computable_leap_day (today : datetime.date) (days : Z) (r : record) :
  datetime.valid today -> datetime.year today <= 9998 -> record_ok r ->
  Spec.computable today days r <-> leap_day_ok today r.
Proof.
  intros Hv Hy [_ Hbd]. unfold Spec.computable, leap_day_ok, Spec.birthday_of.
  assert (datetime.MINYEAR <= datetime.year today) as Hy1 by apply Hv.
  unfold datetime.MINYEAR in Hy1.
  destruct (birthday r) as [b|]; [|done].
  destruct (Hbd b eq_refl) as [d Hd]. rewrite Hd.
  pose proof (strptime_valid _ _ Hd) as Hvd. split.
  - intros (bday & [= <-] & Hthis & Hnext & _) bday' [= <-] Hm Hday.
    rewrite Hm, Hday in Hthis. apply valid_feb29 in Hthis as [_ Hleap].
    split; [done|].
    revert Hnext. unfold Spec.thisYearBirthday. cbv zeta. rewrite Hm, Hday.
    destruct (datetime.lt _ today); [|done].
    intros [_ Hl]%valid_feb29. by rewrite (is_leap_next _ Hleap) in Hl.
  - intros Hok. exists d. split; [done|].
    destruct (decide (datetime.month d = 2 /\ datetime.day d = 29))
      as [[Hm Hday]|Hplain].
    + destruct (Hok d eq_refl Hm Hday) as [Hleap Hlt].
      assert (datetime.valid (datetime.mkdate (datetime.year today) 2 29))
        as Hthis.
      { apply valid_feb29. unfold datetime.MINYEAR, datetime.MAXYEAR.
        split; [lia|done]. }
      unfold Spec.thisYearBirthday. cbv zeta. rewrite Hm, Hday, Hlt.
      do 2 (split; [done|]). intros _. by apply shift_room.
    + assert (datetime.valid
                (datetime.mkdate (datetime.year today) (datetime.month d)
                   (datetime.day d))) as Hthis.
      { apply valid_other_year; [done|done|].
        unfold datetime.MINYEAR, datetime.MAXYEAR. lia. }
      assert (datetime.valid (Spec.thisYearBirthday today d)) as Hb.
      { clear Hok. unfold Spec.thisYearBirthday. cbv zeta.
        destruct (datetime.lt _ today).
        - apply valid_other_year; [done|done|].
          unfold datetime.MINYEAR, datetime.MAXYEAR. lia.
        - done. }
      do 2 (split; [done|]). intros _. by apply shift_room.
Qed.

Lemma good_alive (s : state) : good s -> alive s.
Proof. intros H. by apply wf_alive, good_wf. Qed.

Lemma good_values (s : state) : good s -> Forall record_ok (values s).
Proof.
  intros [_ Hall]. unfold values.
  induction Hall as [|[k l] d (r & Hr & _ & Hok) _ IH]; [constructor|].
  cbn in Hr |- *. rewrite Hr. by constructor.
Qed.

Lemma Forall_computable_leap_day (today : datetime.date) (days : Z)
    (rs : list record) :
  datetime.valid today -> datetime.year today <= 9998 ->
  Forall record_ok rs ->
  Forall (Spec.computable today days) rs <-> Forall (leap_day_ok today) rs.
Proof.
  intros Hv Hy Hall. induction Hall as [|r rs Hr _ IH]; [done|].
  rewrite !Forall_cons, IH. by rewrite (computable_leap_day _ _ _ Hv Hy Hr).
Qed.

(** X15: up to the year 9998, on a book that the commands have built, the
    query returns exactly when no birthday on 29 February stands in its
    way: today's year is a leap year whose 29 February has not passed.
    With such a record in the book it raises a [ValueError] whatever the
    window and whatever the other records, and [birthdays] answers with
    the message of that error instead of a list. *)
Theorem leap_day_birthdays (today : datetime.date) (s : state) :
  good s -> datetime.valid today -> datetime.year today <= 9998 ->
  (Forall (leap_day_ok today) (values s) ->
   forall days,
     AddressBook_get_upcoming_birthdays today days s =
       Some (Return (omap (Spec.item today (default 7 days)) (values s)), s))
  /\
  (~ Forall (leap_day_ok today) (values s) ->
   (forall days, exists msg,
      AddressBook_get_upcoming_birthdays today days s =
        Some (Raise (ValueError msg), s)) /\
   forall args, exists msg,
     AddressBook_get_upcoming_birthdays today None s =
       Some (Raise (ValueError msg), s) /\
     birthdays today args s = Some (Return (py msg), s)).
Proof.
  intros Hgood Hv Hy.
  pose proof (good_alive _ Hgood) as Hal.
  pose proof (good_values _ Hgood) as Hoks.
  split.
  - intros Hok days.
    destruct (query_outcome today days s Hal) as [[_ ->]|[Hn _]]; [done|].
    exfalso. apply Hn. by apply Forall_computable_leap_day.
  - intros Hnok.
    assert (forall days, exists msg,
              AddressBook_get_upcoming_birthdays today days s =
                Some (Raise (ValueError msg), s)) as Hraise.
    { intros days.
      destruct (query_outcome today days s Hal) as [[Hall _]|[_ Hmsg]]; [|done].
      exfalso. apply Hnok. by eapply Forall_computable_leap_day. }
    split; [done|]. intros args. destruct (Hraise None) as [msg Hmsg].
    exists msg. split; [done|].
    unfold birthdays, input_error, birthdays_body, bind. by rewrite Hmsg.
Qed.

Lemma good_book_bob_ann : good book_bob_ann.
Proof.
  split.
  - cbn. apply NoDup_cons. split.
    + intros H. apply list_elem_of_singleton in H. discriminate.
    + apply NoDup_singleton.
  - repeat constructor; eexists; (split; [reflexivity|]); (split; [done|]);
      (split; [by repeat constructor|]); intros b [= <-]; eexists;
      vm_compute; reflexivity.
Qed.

Lemma leap_day_birthdays_witness :
  exists msg,
    AddressBook_get_upcoming_birthdays (datetime.mkdate 2023 6 10) None
      book_bob_ann = Some (Raise (ValueError msg), book_bob_ann) /\
    birthdays (datetime.mkdate 2023 6 10) [] book_bob_ann =
      Some (Return (py msg), book_bob_ann).
Proof.
  destruct (leap_day_birthdays (datetime.mkdate 2023 6 10) book_bob_ann
              good_book_bob_ann) as [_ H].
  - unfold datetime.valid. vm_compute. repeat split; discriminate.
  - cbn. lia.
  - apply H. intros Hall.
    change (values book_bob_ann) with [record_bob; record_ann] in Hall.
    apply Forall_cons in Hall as [_ Hall].
    apply Forall_cons in Hall as [Hann _].
    destruct (Hann (datetime.mkdate 2020 2 29)) as [Hleap _];
      [vm_compute; reflexivity|reflexivity|reflexivity|].
    vm_compute in Hleap. discriminate.
Defined.

(** ** The window *)

Lemma in_window_negative (today bday : datetime.date) (d : Z) :
  d < 0 -> Spec.in_window today d bday = false.
Proof.
  intros Hd. unfold Spec.in_window.
  destruct (Z.leb_spec 0 (Spec.deltaDays today bday));
    destruct (Z.leb_spec (Spec.deltaDays today bday) d); cbn; [lia|done..].
Qed.

Lemma in_window_mono (today bday : datetime.date) (d1 d2 : Z) :
  d1 <= d2 ->
  Spec.in_window today d1 bday = true -> Spec.in_window today d2 bday = true.
Proof.
  intros Hd. unfold Spec.in_window. rewrite !andb_true_iff, !Z.leb_le. lia.
Qed.

Lemma item_negative (today : datetime.date) (d : Z) (r : record) :
  d < 0 -> Spec.item today d r = None.
Proof.
  intros Hd. unfold Spec.item. destruct (Spec.birthday_of r); [|done].
  by rewrite in_window_negative.
Qed.

Lemma item_mono (today : datetime.date) (d1 d2 : Z) (r : record) (e : entry) :
  d1 <= d2 -> Spec.item today d1 r = Some e -> Spec.item today d2 r = Some e.
Proof.
  intros Hd. unfold Spec.item. destruct (Spec.birthday_of r) as [b|]; [|done].
  destruct (Spec.in_window today d1 b) eqn:Hw; [|done].
  by rewrite (in_window_mono _ _ _ _ Hd Hw).
Qed.

Lemma omap_sublist {A B} (f g : A -> option B) (l : list A) :
  (forall a b, f a = Some b -> g a = Some b) ->
  sublist (omap f l) (omap g l).
Proof.
  intros Hfg. induction l as [|a l IH]; [constructor|].
  cbn. destruct (f a) as [b|] eqn:Hf.
  - rewrite (Hfg _ _ Hf). by constructor.
  - destruct (g a); [by constructor|done].
Qed.

(** X16: the window only selects: when the query returns for one number of
    days it returns for every other, a wider window keeps the items of a
    narrower one, in their order, and a negative number of days gives the
    empty list. *)
Theorem window_grows (today : datetime.date) (d1 d2 : Z) (s s1 : state)
    (out1 : list entry) :
  AddressBook_get_upcoming_birthdays today (Some d1) s = Some (Return out1, s1) ->
  (exists out2,
     AddressBook_get_upcoming_birthdays today (Some d2) s =
       Some (Return out2, s) /\
     (d1 <= d2 -> sublist out1 out2)) /\
  (d1 < 0 -> out1 = []).
Proof.
  intros H. apply get_upcoming_birthdays_Return in H as (-> & Hal & Hall & ->).
  cbn [default] in *. split.
  - exists (omap (Spec.item today d2) (values s)). split.
    + apply get_upcoming_birthdays_Return. do 2 (split; [done|]).
      split; [|done]. eapply Forall_impl; [exact Hall|].
      intros r. apply computable_window.
    + intros Hd. apply omap_sublist. intros r e. by apply item_mono.
  - intros Hd. induction (values s) as [|r rs IH]; [done|].
    cbn. rewrite (item_negative _ _ _ Hd). apply IH.
    by apply Forall_cons in Hall as [_ ?].
Qed.

Lemma window_grows_witness :
  exists out2,
    AddressBook_get_upcoming_birthdays (datetime.mkdate 2024 6 10) (Some 30)
      book_zed_bob = Some (Return out2, book_zed_bob) /\
    (3 <= 30 ->
     sublist [mkEntry (py "Bob") (py "12.06.2024")] out2).
Proof.
  apply (window_grows (datetime.mkdate 2024 6 10) 3 30 book_zed_bob
           book_zed_bob [mkEntry (py "Bob") (py "12.06.2024")]).
  vm_compute. reflexivity.
Defined.

(** ** The day of the greeting *)

Lemma item_greeting (today : datetime.date) (days : Z) (r : record) (e : entry) :
  Spec.computable today days r -> Spec.item today days r = Some e ->
  exists g,
    strptime.strptime_dmY (entry_birthday e) = Return g /\
    0 <= datetime.weekday g <= 4 /\
    datetime.toordinal today <= datetime.toordinal g
      <= datetime.toordinal today + days + 2.
Proof.
  intros Hc He. destruct (item_emitted _ _ _ _ Hc He)
    as (_ & bday & g & Hb & (_ & H5 & H6 & Hother) & _ & _ & Hg).
  exists g. split; [done|].
  revert He. unfold Spec.item. rewrite Hb.
  destruct (Spec.in_window today days bday) eqn:Hw; [|done]. intros _.
  unfold Spec.in_window, Spec.deltaDays in Hw.
  apply andb_true_iff in Hw as [H0 H1]. apply Z.leb_le in H0, H1.
  set (b := Spec.thisYearBirthday today bday) in *.
  assert (0 <= datetime.weekday b < 7) as Hwd
      by (apply Z.mod_pos_bound; lia).
  destruct (decide (datetime.weekday b = 5)) as [E5|E5];
    [|destruct (decide (datetime.weekday b = 6)) as [E6|E6]].
  - destruct (H5 E5) as [-> ->]. lia.
  - destruct (H6 E6) as [-> ->]. lia.
  - rewrite (Hother E5 E6). lia.
Qed.

(** X17: for a system date from the year 1000 on, every date that the
    query returns reads back as a date that is a working day, Monday to
    Friday, not before today and at most two days after the end of the
    window. *)
Theorem greeting_on_working_day (today : datetime.date) (days : option Z)
    (s s' : state) (out : list entry) :
  1000 <= datetime.year today ->
  AddressBook_get_upcoming_birthdays today days s = Some (Return out, s') ->
  Forall (fun e =>
            exists g,
              strptime.strptime_dmY (entry_birthday e) = Return g /\
              0 <= datetime.weekday g <= 4 /\
              datetime.toordinal today <= datetime.toordinal g
                <= datetime.toordinal today + default 7 days + 2) out.
Proof.
  intros _ H. apply get_upcoming_birthdays_Return in H as (-> & _ & Hall & ->).
  induction Hall as [|r rs Hr _ IH]; [constructor|].
  cbn. destruct (Spec.item today (default 7 days) r) as [e|] eqn:He; [|done].
  constructor; [by eapply item_greeting|done].
Qed.

Lemma greeting_on_working_day_witness :
  Forall (fun e =>
            exists g,
              strptime.strptime_dmY (entry_birthday e) = Return g /\
              0 <= datetime.weekday g <= 4 /\
              datetime.toordinal (datetime.mkdate 2024 6 10)
                <= datetime.toordinal g
                <= datetime.toordinal (datetime.mkdate 2024 6 10) + 7 + 2)
    [mkEntry (py "Bob") (py "17.06.2024")].
Proof.
  apply (greeting_on_working_day (datetime.mkdate 2024 6 10) None
           book_bob book_bob).
  - vm_compute. discriminate.
  - vm_compute. reflexivity.
Defined.

(** ** The commands keep the book good *)

Lemma Phone_init_Raise (raw : pystr) (e : exn) :
  Phone_init raw = Raise e ->
  e = ValueError "Phone number must contain exactly 10 digits.".
Proof.
  intros H. destruct (ten_digits_dec raw) as [Hd|Hd].
  - rewrite (Phone_init_accepts _ Hd) in H. discriminate.
  - rewrite (Phone_init_rejects _ Hd) in H. by injection H as <-.
Qed.

Lemma edit_phone_loop_raises (old_phone new_phone : pystr) (self : record) :
  forall rest i e r',
    edit_phone_loop old_phone new_phone i rest self = (Raise e, r') ->
    exists msg, e = ValueError msg.
Proof.
  induction rest as [|p rest IH]; intros i e r'; cbn.
  - intros [= <- _]. eauto.
  - destruct (str_eqb (value p) old_phone); [|apply IH].
    destruct (Phone_init new_phone) as [q|e0] eqn:Hq; [done|].
    intros [= <- _]. apply Phone_init_Raise in Hq as ->. eauto.
Qed.

Lemma add_contact_good (args : list pystr) (s : state) :
  good s ->
  exists answer s',
    add_contact args s = Some (Return answer, s') /\ good s' /\
    keeps_contacts s s'.
Proof.
  intros Hg. destruct args as [|n [|phone rest]].
  - exists (py "Not enough arguments."), s. split; [done|]. split; [done|by left].
  - exists (py "Not enough arguments."), s. split; [done|]. split; [done|by left].
  - unfold add_contact, input_error. rewrite add_contact_args.
    destruct (dict_get n (data s)) as [l|] eqn:Hn.
    + destruct (good_lookup _ _ _ Hg Hn) as (r & Hl & Hname & Hok).
      rewrite (add_contact_body_present _ _ _ _ _ Hn Hl).
      pose proof (Record_add_phone_ok phone r Hok) as [Hok' Hname'].
      unfold Record_add_phone in Hok', Hname'.
      destruct (Phone_init phone) as [p|e] eqn:Hp.
      * eexists _, _. split; [reflexivity|]. split; [|by left].
        by eapply good_update.
      * apply Phone_init_Raise in Hp as ->. eexists _, _.
        split; [reflexivity|]. split; [done|by left].
    + rewrite (add_contact_body_absent _ _ _ Hn).
      assert (keeps_contacts s (with_new_record n (Record_init n) s)) as Hk.
      { right. exists n. split; [by apply dict_get_None|].
        unfold names, with_new_record. cbn [data]. by rewrite map_app. }
      destruct (Phone_init phone) as [p|e] eqn:Hp.
      * eexists _, _. split; [reflexivity|]. split; [|exact Hk].
        apply good_new; [done|done|done|].
        apply Phone_init_inv in Hp as [-> Hd]. split; [|done].
        constructor; [exact Hd|constructor].
      * apply Phone_init_Raise in Hp as ->. eexists _, _.
        split; [reflexivity|]. split; [|exact Hk].
        apply good_new; [done|done|done|apply Record_init_ok].
Qed.

Lemma change_contact_good (args : list pystr) (s : state) :
  good s ->
  exists answer s',
    change_contact args s = Some (Return answer, s') /\ good s' /\
    keeps_contacts s s'.
Proof.
  intros Hg. destruct args as [|n [|o [|nw rest]]];
    try (exists (py "Not enough arguments."), s; split; [done|];
         split; [done|by left]).
  destruct (dict_get n (data s)) as [l|] eqn:Hn.
  - destruct (good_lookup _ _ _ Hg Hn) as (r & Hl & Hname & Hok).
    unfold change_contact, input_error.
    rewrite (change_contact_present _ _ _ _ _ _ _ Hn Hl).
    pose proof (Record_edit_phone_ok o nw r Hok) as [Hok' Hname'].
    destruct (Record_edit_phone o nw r) as [[[]|e] r'] eqn:He;
      cbn [snd] in Hok', Hname'.
    + eexists _, _. split; [reflexivity|]. split; [|by left].
      by eapply good_update.
    + apply edit_phone_loop_raises in He as [msg ->]. eexists _, _.
      split; [reflexivity|]. split; [|by left]. by eapply good_update.
  - exists (py "'Contact not found.'"), s. split; [|split; [done|by left]].
    unfold change_contact, input_error, change_contact_body, index,
      AddressBook_find, get_data, ret, raise, bind.
    cbn [lookup list_lookup]. cbn beta iota. by rewrite Hn.
Qed.

Lemma add_birthday_good (args : list pystr) (s : state) :
  good s ->
  exists answer s',
    add_birthday args s = Some (Return answer, s') /\ good s' /\
    keeps_contacts s s'.
Proof.
  intros Hg. destruct args as [|n [|b rest]];
    try (exists (py "Not enough arguments."), s; split; [done|];
         split; [done|by left]).
  destruct (dict_get n (data s)) as [l|] eqn:Hn.
  - destruct (good_lookup _ _ _ Hg Hn) as (r & Hl & Hname & Hok).
    rewrite (add_birthday_present _ _ _ _ _ _ Hn Hl).
    pose proof (Record_add_birthday_ok b r Hok) as [Hok' Hname'].
    unfold Record_add_birthday in Hok', Hname'.
    destruct (Birthday_init b) as [f|e].
    + eexists _, _. split; [reflexivity|]. split; [|by left].
      by eapply good_update.
    + eexists _, _. split; [reflexivity|]. split; [done|by left].
  - exists (py "'Contact not found.'"), s. split; [|split; [done|by left]].
    unfold add_birthday, input_error, add_birthday_body, index,
      AddressBook_find, get_data, ret, raise, bind.
    cbn [lookup list_lookup]. cbn beta iota. by rewrite Hn.
Qed.

Lemma show_phone_good (args : list pystr) (s : state) :
  good s -> exists answer, show_phone args s = Some (Return answer, s).
Proof.
  intros Hg. destruct args as [|n rest]; [by eexists|].
  destruct (dict_get n (data s)) as [l|] eqn:Hn.
  - destruct (good_lookup _ _ _ Hg Hn) as (r & Hl & _).
    rewrite (show_phone_present _ _ _ _ _ Hn Hl). by eexists.
  - exists (py "'Contact not found.'").
    unfold show_phone, input_error, show_phone_body, index,
      AddressBook_find, get_data, ret, raise, bind.
    cbn [lookup list_lookup]. cbn beta iota. by rewrite Hn.
Qed.

Lemma show_birthday_good (args : list pystr) (s : state) :
  good s -> exists answer, show_birthday args s = Some (Return answer, s).
Proof.
  intros Hg. destruct args as [|n rest]; [by eexists|].
  destruct (dict_get n (data s)) as [l|] eqn:Hn.
  - destruct (good_lookup _ _ _ Hg Hn) as (r & Hl & _).
    rewrite (show_birthday_present _ _ _ _ _ Hn Hl). by eexists.
  - exists (py "'Contact not found.'").
    unfold show_birthday, input_error, show_birthday_body, index,
      AddressBook_find, get_data, ret, raise, bind.
    cbn [lookup list_lookup]. cbn beta iota. by rewrite Hn.
Qed.

Lemma show_all_alive (s : state) :
  alive s ->
  show_all s =
    Some (Return match data s with
                 | [] => py "AddressBook is empty."
                 | _ => str_join [10%N] (map Record_str (values s))
                 end, s).
Proof.
  intros Hal. unfold show_all, input_error, show_all_body, get_data, ret, bind.
  pose proof (deref_all_values s Hal) as Hd.
  destruct (data s) as [|kl d] eqn:E; [done|]. by rewrite Hd.
Qed.

Lemma main_command_good (today : datetime.date) (command : pystr)
    (args : list pystr) (s : state) :
  good s ->
  exists answer s',
    main_command today command args s = Some (Return answer, s') /\
    good s' /\ keeps_contacts s s'.
Proof.
  intros Hg. unfold main_command.
  repeat match goal with
         | |- context [if str_eqb ?a ?b then _ else _] =>
             destruct (str_eqb a b)
         end.
  - by exists (py "How can I help you?"), s; split; [|split; [|left]].
  - by apply add_contact_good.
  - by apply change_contact_good.
  - destruct (show_phone_good args s Hg) as [answer H].
    by exists answer, s; split; [|split; [|left]].
  - rewrite (show_all_alive s (good_alive _ Hg)).
    by eexists _, s; split; [|split; [|left]].
  - by apply add_birthday_good.
  - destruct (show_birthday_good args s Hg) as [answer H].
    by exists answer, s; split; [|split; [|left]].
  - unfold birthdays, input_error, birthdays_body, bind.
    destruct (query_outcome today None s (good_alive _ Hg))
      as [[_ ->]|[_ [msg ->]]].
    + destruct (omap _ _); by eexists _, s; split; [|split; [|left]].
    + by eexists _, s; split; [|split; [|left]].
  - by exists (py "Invalid command."), s; split; [|split; [|left]].
Qed.

(** X18: on a good book every command handler answers: no exception
    leaves it and no reference dangles.  The handlers that write leave a
    good book, in which no contact is lost and at most one has come, at
    the end; the handlers that read leave the book as it is. *)
Theorem handlers_keep_book_good (today : datetime.date) (args : list pystr)
    (s : state) :
  good s ->
  (forall handler,
     handler = add_contact \/ handler = change_contact \/
     handler = add_birthday ->
     exists answer s',
       handler args s = Some (Return answer, s') /\ good s' /\
       keeps_contacts s s') /\
  (forall handler,
     handler = show_phone \/ handler = show_birthday \/
     handler = (fun _ => show_all) \/ handler = birthdays today ->
     exists answer, handler args s = Some (Return answer, s)).
Proof.
  intros Hg. split.
  - intros handler [-> | [-> | ->]].
    + by apply add_contact_good.
    + by apply change_contact_good.
    + by apply add_birthday_good.
  - intros handler [-> | [-> | [-> | ->]]].
    + by apply show_phone_good.
    + by apply show_birthday_good.
    + rewrite (show_all_alive s (good_alive _ Hg)). by eexists.
    + unfold birthdays, input_error, birthdays_body, bind.
      destruct (query_outcome today None s (good_alive _ Hg))
        as [[_ ->]|[_ [msg ->]]]; [destruct (omap _ _)|]; by eexists.
Qed.

Lemma handlers_keep_book_good_witness :
  exists answer s',
    add_contact [py "Alice"; py "123"] empty_book = Some (Return answer, s') /\
    good s' /\ keeps_contacts empty_book s'.
Proof.
  apply (proj1 (handlers_keep_book_good (datetime.mkdate 2024 6 10)
                  [py "Alice"; py "123"] empty_book good_empty) add_contact).
  by left.
Defined.

(** ** The list of all contacts *)

Lemma str_join_snoc (sep x : pystr) (l : list pystr) :
  str_join sep (l ++ [x]) =
    match l with [] => x | _ => str_join sep l ++ sep ++ x end.
Proof.
  induction l as [|y l IH]; [done|].
  cbn [app str_join]. rewrite IH.
  destruct l as [|z l]; [done|]. cbn [app]. by rewrite <- !app_assoc.
Qed.

Lemma good_values_names (s : state) :
  good s -> map (fun r => value (name r)) (values s) = names s.
Proof.
  intros [_ Hall]. unfold values, names.
  induction Hall as [|[k l] d (r & Hr & Hk & _) _ IH]; [done|].
  cbn in Hr, Hk |- *. rewrite Hr. cbn. by rewrite Hk, IH.
Qed.

(** X19: on a good book [show_all] answers "AddressBook is empty." when
    there is no contact, and otherwise the texts of the records, one line
    for each contact, in the order of the book.  After [add_contact] with
    a new name and an accepted phone the answer is the answer of before
    with one more line, the line of the new contact. *)
Theorem show_all_lists_book (s : state) (n phone : pystr) :
  good s ->
  let line :=
    py "Contact name: " ++ n ++ py ", phones: " ++ phone
    ++ py ", birthday: No birthday" in
  (names s = [] -> show_all s = Some (Return (py "AddressBook is empty."), s))
  /\
  (names s <> [] ->
   show_all s = Some (Return (str_join [10%N] (map Record_str (values s))), s))
  /\
  map (fun r => value (name r)) (values s) = names s /\
  (dict_get n (data s) = None -> ten_digits phone ->
   exists s1,
     add_contact [n; phone] s = Some (Return (py "Contact added."), s1) /\
     (names s = [] -> show_all s1 = Some (Return line, s1)) /\
     (forall old,
        names s <> [] -> show_all s = Some (Return old, s) ->
        show_all s1 = Some (Return (old ++ [10%N] ++ line), s1))).
Proof.
  intros Hg line. pose proof (good_alive _ Hg) as Hal.
  rewrite (show_all_alive s Hal). unfold names.
  split; [by destruct (data s)|]. split; [by destruct (data s)|].
  split; [by apply good_values_names|].
  intros Hn Hd. unfold add_contact, input_error.
  rewrite (add_contact_body_absent _ _ _ Hn), (Phone_init_accepts _ Hd).
  eexists. split; [reflexivity|].
  set (r := mkRecord (mkField n) [mkField phone] None).
  assert (alive (with_new_record n r s)) as Hal1.
  { apply good_alive, good_new; [done|done|done|].
    split; [|done]. constructor; [exact Hd|constructor]. }
  rewrite (show_all_alive _ Hal1), (values_with_new_record _ _ _ Hal).
  rewrite map_app. cbn [map]. rewrite str_join_snoc.
  change (Record_str r) with line.
  unfold with_new_record. cbn [data].
  assert (length (values s) = length (data s)) as Hlen.
  { rewrite <- (length_map (fun r => value (name r))),
      (good_values_names _ Hg). apply length_map. }
  destruct (data s) as [|kl d] eqn:Hdata.
  - destruct (values s); [|done]. by split.
  - destruct (values s) as [|r0 rs] eqn:Hvs; [done|].
    split; [done|]. by intros old _ [= <-].
Qed.

Lemma show_all_lists_book_witness :
  show_all empty_book =
    Some (Return (py "AddressBook is empty."), empty_book).
Proof.
  apply (show_all_lists_book empty_book [] [] good_empty). reflexivity.
Defined.

(** ** Words and lines *)

Lemma split_from_words (s : pystr) :
  forall w, w = [] \/ word w -> Forall word (split_from w s).
Proof.
  induction s as [|c r IH]; intros w Hw; cbn [split_from].
  - destruct w; [constructor|]. destruct Hw as [?|Hw]; [done|].
    constructor; [done|constructor].
  - destruct (isspace c) eqn:Hc.
    + destruct w as [|a w]; [apply IH; by left|].
      destruct Hw as [?|Hw]; [done|].
      constructor; [done|apply IH; by left].
    + apply IH. right. split; [by destruct w|].
      apply Forall_app. split; [|by repeat constructor].
      destruct Hw as [->|[_ ?]]; [constructor|done].
Qed.

Lemma split_from_blank (ws : pystr) :
  blank ws ->
  forall w, split_from w ws = match w with [] => [] | _ => [w] end.
Proof.
  induction 1 as [|c ws Hc _ IH]; intros w; [done|].
  cbn [split_from]. rewrite Hc, (IH []). by destruct w.
Qed.

Lemma split_from_app_blank (ws : pystr) :
  blank ws -> forall s w, split_from w (s ++ ws) = split_from w s.
Proof.
  intros Hws. induction s as [|c r IH]; intros w.
  - cbn [app]. by rewrite (split_from_blank _ Hws).
  - cbn [app split_from]. destruct (isspace c); [destruct w|]; by rewrite IH.
Qed.

Lemma lstrip_blank (s : pystr) :
  exists ws, s = ws ++ str_lstrip s /\ blank ws.
Proof.
  induction s as [|c r (ws & Hr & Hws)];
    [exists []; split; [done|constructor]|].
  cbn [str_lstrip]. destruct (isspace c) eqn:Hc.
  - exists (c :: ws). split; [by rewrite <- app_comm_cons, <- Hr|].
    by constructor.
  - exists []. split; [done|constructor].
Qed.

Lemma split_lstrip (s : pystr) :
  split_from [] (str_lstrip s) = split_from [] s.
Proof.
  induction s as [|c r IH]; [done|]. cbn [str_lstrip].
  destruct (isspace c) eqn:Hc; [|done]. cbn [split_from]. by rewrite Hc.
Qed.

Lemma split_strip (s : pystr) : str_split (str_strip s) = str_split s.
Proof.
  unfold str_split, str_strip. rewrite <- (split_lstrip s).
  destruct (lstrip_blank (reverse (str_lstrip s))) as (ws & Hr & Hws).
  rewrite <- (reverse_involutive (str_lstrip s)) at 2.
  rewrite Hr at 2. rewrite reverse_app.
  rewrite split_from_app_blank; [done|].
  unfold blank. by apply Forall_reverse.
Qed.

Lemma split_from_word (x : pystr) :
  Forall (fun c => isspace c = false) x ->
  forall w r, split_from w (x ++ r) = split_from (w ++ x) r.
Proof.
  induction 1 as [|c x Hc _ IH]; intros w r.
  - by rewrite app_nil_r.
  - cbn [app split_from]. rewrite Hc, IH. by rewrite <- app_assoc.
Qed.

Lemma split_join (ws : list pystr) :
  Forall word ws -> str_split (str_join [32%N] ws) = ws.
Proof.
  unfold str_split. induction 1 as [|x ws [Hx Hsp] _ IH]; [done|].
  cbn [str_join]. destruct ws as [|y ws].
  - rewrite <- (app_nil_r x) at 1. rewrite (split_from_word _ Hsp).
    cbn [app split_from]. by destruct x.
  - rewrite (split_from_word _ Hsp). cbn [app split_from].
    change (isspace 32) with true. cbn beta iota. rewrite IH.
    by destruct x.
Qed.

(** X20: [parse_input] gives the words of the line: the arguments are not
    empty and have no white space; stripping the line, as [main] does,
    changes nothing; a line of white space only gives the empty command;
    and a command and arguments that are words, joined by spaces, are read
    back as they are, the command in lower case. *)
Theorem parse_input_words (lower : pystr -> pystr) (user_input : pystr) :
  Forall word (snd (parse_input lower user_input)) /\
  parse_input lower (str_strip user_input) = parse_input lower user_input /\
  (blank user_input -> parse_input lower user_input = ([], [])) /\
  (forall cmd args,
     Forall word (cmd :: args) ->
     parse_input lower (str_join [32%N] (cmd :: args)) = (lower cmd, args)).
Proof.
  unfold parse_input. cbv zeta. cbn [snd]. split; [|split; [|split]].
  - apply Forall_drop. apply split_from_words. by left.
  - by rewrite split_strip.
  - intros Hb. unfold str_split. by rewrite (split_from_blank _ Hb).
  - intros cmd args Hw. by rewrite (split_join _ Hw).
Qed.

Lemma parse_input_words_witness :
  parse_input ascii_lower
    (str_join [32%N] [py "ADD"; py "Ann"; py "1234567890"]) =
    (py "add", [py "Ann"; py "1234567890"]).
Proof.
  apply (parse_input_words ascii_lower []).
  repeat (constructor; [split; [discriminate|vm_compute; by repeat constructor]|]).
  constructor.
Defined.

(** ** The interactive loop *)

Section loop.

Variable lower : pystr -> pystr.

Lemma main_loop_close (line : pystr) (today : datetime.date)
    (rest : list (pystr * datetime.date)) (printed : list pystr)
    (book : state) :
  closes lower line ->
  main_loop lower ((line, today) :: rest) printed book =
    Some (printed ++ [py "Good bye!"], Closed book).
Proof.
  unfold closes, command_of. cbn [main_loop].
  destruct (parse_input lower (str_strip line)) as [command args].
  cbn [fst]. intros [->| ->]; reflexivity.
Qed.

Lemma main_loop_open (line : pystr) (today : datetime.date)
    (rest : list (pystr * datetime.date)) (printed : list pystr)
    (book : state) :
  ~ closes lower line ->
  main_loop lower ((line, today) :: rest) printed book =
    match main_command today (command_of lower line)
            (snd (parse_input lower (str_strip line))) book with
    | Some (Return answer, book') =>
        main_loop lower rest (printed ++ [answer]) book'
    | Some (Raise e, book') => Some (printed, Uncaught e book')
    | None => None
    end.
Proof.
  unfold closes, command_of. cbn [main_loop].
  destruct (parse_input lower (str_strip line)) as [command args].
  cbn [fst snd]. intros Hn.
  rewrite (proj2 (str_eqb_false command (py "close"))) by tauto.
  by rewrite (proj2 (str_eqb_false command (py "exit"))) by tauto.
Qed.

Lemma closes_dec (line : pystr) : {closes lower line} + {~ closes lower line}.
Proof.
  unfold closes.
  destruct (decide (command_of lower line = py "close"));
    destruct (decide (command_of lower line = py "exit")); tauto.
Defined.

Lemma main_loop_app (post : list (pystr * datetime.date)) :
  forall pre printed book printed' book',
    main_loop lower pre printed book = Some (printed', EndOfInput book') ->
    main_loop lower (pre ++ post) printed book =
      main_loop lower post printed' book'.
Proof.
  induction pre as [|[line today] pre IH]; intros printed book printed' book'.
  - cbn. by intros [= <- <-].
  - cbn [app]. destruct (closes_dec line) as [Hc|Hc].
    + by rewrite !(main_loop_close _ _ _ _ _ Hc).
    + rewrite !(main_loop_open _ _ _ _ _ Hc).
      destruct (main_command _ _ _ _) as [[[answer|e] book1]|]; [|done..].
      apply IH.
Qed.

Lemma keeps_contacts_prefix (s s' : state) :
  keeps_contacts s s' -> names s `prefix_of` names s'.
Proof. intros [->|(n & _ & ->)]; [done|by apply prefix_app_r]. Qed.

End loop.

(** X21: started on a good book and given lines none of which is [close]
    or [exit], [main] answers every line, one text for each after the
    welcome, and stops only at the end of the input: no exception leaves
    the loop and the book is not saved.  The book is then good and has
    every contact that it had, in the same order. *)
Theorem main_without_close (lower : pystr -> pystr) (book : state)
    (inputs : list (pystr * datetime.date)) :
  good book -> Forall (fun i => ~ closes lower (fst i)) inputs ->
  exists answers book',
    main lower book inputs =
      Some (py "Welcome to the assistant bot!" :: answers, EndOfInput book') /\
    length answers = length inputs /\ good book' /\
    names book `prefix_of` names book'.
Proof.
  intros Hg Hall. unfold main.
  enough (forall printed, exists answers book',
            main_loop lower inputs printed book =
              Some (printed ++ answers, EndOfInput book') /\
            length answers = length inputs /\ good book' /\
            names book `prefix_of` names book') as H by apply (H [_]).
  revert book Hg.
  induction Hall as [|[line today] inputs Hc _ IH]; intros book Hg printed.
  - exists [], book. cbn. by rewrite app_nil_r.
  - cbn [fst] in Hc. rewrite (main_loop_open _ _ _ _ _ _ Hc).
    destruct (main_command_good today (command_of lower line)
                (snd (parse_input lower (str_strip line))) book Hg)
      as (answer & book1 & -> & Hg1 & Hk).
    destruct (IH book1 Hg1 (printed ++ [answer]))
      as (answers & book' & -> & Hlen & Hg' & Hpre).
    exists (answer :: answers), book'. rewrite <- app_assoc. cbn [app length].
    split; [done|]. split; [by rewrite Hlen|]. split; [done|].
    etrans; [by apply keeps_contacts_prefix|done].
Qed.

Lemma main_without_close_witness :
  exists answers book',
    main ascii_lower empty_book
      [(py "add Ann 1234567890", datetime.mkdate 2024 6 10)] =
      Some (py "Welcome to the assistant bot!" :: answers, EndOfInput book') /\
    length answers = 1%nat /\ good book' /\
    names empty_book `prefix_of` names book'.
Proof.
  apply (main_without_close ascii_lower empty_book
           [(py "add Ann 1234567890", datetime.mkdate 2024 6 10)] good_empty).
  constructor; [|constructor]. vm_compute. intros [H|H]; discriminate.
Defined.

(** X22: [main] stops at the first [close] or [exit]: when it has read the
    lines before it to their end, it prints "Good bye!" after what they
    gave, saves the book as they left it, and reads none of the lines
    that follow. *)
Theorem main_stops_at_close (lower : pystr -> pystr) (book book' : state)
    (pre post : list (pystr * datetime.date)) (line : pystr)
    (today : datetime.date) (printed : list pystr) :
  main lower book pre = Some (printed, EndOfInput book') ->
  closes lower line ->
  main lower book (pre ++ (line, today) :: post) =
    Some (printed ++ [py "Good bye!"], Closed book').
Proof.
  unfold main. intros Hpre Hc.
  rewrite (main_loop_app _ _ _ _ _ _ _ Hpre). by apply main_loop_close.
Qed.

Lemma main_stops_at_close_witness :
  main ascii_lower empty_book
    ([(py "hello", datetime.mkdate 2024 6 10)]
     ++ (py "  EXIT ", datetime.mkdate 2024 6 10)
        :: [(py "add Ann 1234567890", datetime.mkdate 2024 6 10)]) =
    Some ([py "Welcome to the assistant bot!"; py "How can I help you?"]
          ++ [py "Good bye!"], Closed empty_book).
Proof.
  apply (main_stops_at_close ascii_lower empty_book empty_book
           [(py "hello", datetime.mkdate 2024 6 10)]).
  - vm_compute. reflexivity.
  - right. vm_compute. reflexivity.
Defined.

(** X23: a line of white space only, and a line whose first word, in lower
    case, is none of the commands, are answered with "Invalid command.",
    and the book stays as it is. *)
Theorem main_invalid_command (lower : pystr -> pystr) (book : state)
    (line : pystr)
    (today : datetime.date) :
  blank line \/ command_of lower line ∉ commands ->
  main lower book [(line, today)] =
    Some ([py "Welcome to the assistant bot!"; py "Invalid command."],
          EndOfInput book).
Proof.
  intros H.
  assert (command_of lower line ∉ commands) as Hn.
  { destruct H as [Hb|H]; [|done]. unfold command_of, parse_input.
    cbv zeta. rewrite split_strip. unfold str_split.
    rewrite (split_from_blank _ Hb). cbn [fst].
    unfold commands. rewrite !not_elem_of_cons.
    repeat split; try discriminate. apply not_elem_of_nil. }
  clear H. unfold commands in Hn. rewrite !not_elem_of_cons in Hn.
  destruct Hn as (H1 & H2 & H3 & H4 & H5 & H6 & H7 & H8 & H9 & H10 & _).
  unfold main. rewrite main_loop_open by (unfold closes; tauto).
  unfold main_command.
  rewrite !(proj2 (str_eqb_false (command_of lower line) _)) by done.
  reflexivity.
Qed.

Lemma main_invalid_command_witness :
  main ascii_lower book_alice [(py "   ", datetime.mkdate 2024 6 10)] =
    Some ([py "Welcome to the assistant bot!"; py "Invalid command."],
          EndOfInput book_alice).
Proof.
  apply (main_invalid_command ascii_lower book_alice (py "   ")).
  left. repeat constructor.
Defined.

(** ** A command about one contact leaves the others alone *)

Lemma dict_get_app_ne (k n : pystr) (l : loc) (d : dict) :
  k <> n -> dict_get k (d ++ [(n, l)]) = dict_get k d.
Proof.
  intros Hne. induction d as [|[k' v'] d IH]; cbn.
  - by rewrite (proj2 (str_eqb_false n k)) by congruence.
  - by rewrite IH.
Qed.

Lemma touches_frame (s s' : state) (n k : pystr) :
  good s -> touches n s s' -> k <> n ->
  dict_get k (data s') = dict_get k (data s) /\
  forall lk, dict_get k (data s) = Some lk -> heap s' !! lk = heap s !! lk.
Proof.
  intros Hg Ht Hne. destruct Ht as [|l r' Hn|r Hn].
  - done.
  - split; [done|]. intros lk Hk. cbn [heap].
    apply list_lookup_insert_ne. intros <-.
    destruct (good_lookup _ _ _ Hg Hn) as (r1 & Hr1 & Hn1 & _).
    destruct (good_lookup _ _ _ Hg Hk) as (r2 & Hr2 & Hn2 & _).
    congruence.
  - unfold with_new_record. cbn [heap data]. split.
    + by apply dict_get_app_ne.
    + intros lk Hk. destruct (good_lookup _ _ _ Hg Hk) as (r2 & Hr2 & _).
      apply lookup_app_l. by eapply lookup_lt_Some.
Qed.

Lemma writing_handler_touches (handler : list pystr -> Prog pystr)
    (n : pystr) (rest : list pystr) (s s' : state) (res : result pystr) :
  good s ->
  handler = add_contact \/ handler = change_contact \/
  handler = add_birthday ->
  handler (n :: rest) s = Some (res, s') -> touches n s s'.
Proof.
  intros Hg [-> | [-> | ->]].
  - destruct rest as [|phone rest]; [intros [= _ <-]; constructor|].
    intros H. apply input_error_state in H as [res0 H]. revert H.
    rewrite add_contact_args. destruct (dict_get n (data s)) as [l|] eqn:Hn.
    + destruct (good_lookup _ _ _ Hg Hn) as (r & Hl & _).
      rewrite (add_contact_body_present _ _ _ _ _ Hn Hl).
      destruct (Phone_init phone); intros [= _ <-]; by constructor.
    + rewrite (add_contact_body_absent _ _ _ Hn).
      destruct (Phone_init phone); intros [= _ <-]; by constructor.
  - destruct rest as [|o [|nw rest]]; try (intros [= _ <-]; constructor).
    intros H. apply input_error_state in H as [res0 H]. revert H.
    destruct (dict_get n (data s)) as [l|] eqn:Hn.
    + destruct (good_lookup _ _ _ Hg Hn) as (r & Hl & _).
      rewrite (change_contact_present _ _ _ _ _ _ _ Hn Hl).
      destruct (Record_edit_phone o nw r) as [[[]|e] r'];
        intros [= _ <-]; by constructor.
    + unfold change_contact_body, index, AddressBook_find, get_data, ret,
        raise, bind.
      cbn [lookup list_lookup]. cbn beta iota. rewrite Hn.
      intros [= _ <-]. constructor.
  - destruct rest as [|b rest]; [intros [= _ <-]; constructor|].
    destruct (dict_get n (data s)) as [l|] eqn:Hn.
    + destruct (good_lookup _ _ _ Hg Hn) as (r & Hl & _).
      rewrite (add_birthday_present _ _ _ _ _ _ Hn Hl).
      destruct (Birthday_init b); intros [= _ <-]; by constructor.
    + unfold add_birthday, input_error, add_birthday_body, index,
        AddressBook_find, get_data, ret, raise, bind.
      cbn [lookup list_lookup]. cbn beta iota. rewrite Hn.
      intros [= _ <-]. constructor.
Qed.

Lemma show_absent (s : state) (n : pystr) (rest : list pystr) :
  dict_get n (data s) = None ->
  show_phone (n :: rest) s = Some (Return (py "'Contact not found.'"), s) /\
  show_birthday (n :: rest) s = Some (Return (py "'Contact not found.'"), s).
Proof.
  intros Hn.
  unfold show_phone, show_birthday, input_error, show_phone_body,
    show_birthday_body, index, AddressBook_find, get_data, ret, raise, bind.
  cbn [lookup list_lookup]. cbn beta iota. by rewrite Hn.
Qed.

(** X24: a command that writes, given the name of one contact, changes
    nothing for a contact of another name: [show_phone] and
    [show_birthday] answer for that contact after the command what they
    answered before it. *)
Theorem other_contacts_untouched (handler : list pystr -> Prog pystr)
    (n k : pystr) (rest : list pystr) (s s' : state) (res : result pystr) :
  good s -> k <> n ->
  handler = add_contact \/ handler = change_contact \/
  handler = add_birthday ->
  handler (n :: rest) s = Some (res, s') ->
  forall args, exists phones_text birthday_text,
    show_phone (k :: args) s = Some (Return phones_text, s) /\
    show_phone (k :: args) s' = Some (Return phones_text, s') /\
    show_birthday (k :: args) s = Some (Return birthday_text, s) /\
    show_birthday (k :: args) s' = Some (Return birthday_text, s').
Proof.
  intros Hg Hne Hh Hrun args.
  pose proof (writing_handler_touches _ _ _ _ _ _ Hg Hh Hrun) as Ht.
  destruct (touches_frame _ _ _ _ Hg Ht Hne) as [Hdata Hheap].
  destruct (dict_get k (data s)) as [lk|] eqn:Hk.
  - destruct (good_lookup _ _ _ Hg Hk) as (r & Hr & _).
    assert (heap s' !! lk = Some r) as Hr' by (by rewrite (Hheap lk eq_refl)).
    rewrite (show_phone_present _ _ _ _ _ Hk Hr),
      (show_phone_present _ _ _ _ _ Hdata Hr'),
      (show_birthday_present _ _ _ _ _ Hk Hr),
      (show_birthday_present _ _ _ _ _ Hdata Hr').
    by eexists _, _.
  - destruct (show_absent s k args Hk) as [-> ->].
    destruct (show_absent s' k args Hdata) as [-> ->].
    by eexists _, _.
Qed.

Lemma good_book_zed_bob : good book_zed_bob.
Proof.
  split.
  - cbn. rewrite !NoDup_cons, !not_elem_of_cons.
    repeat split; try discriminate; try apply not_elem_of_nil.
    apply NoDup_nil_2.
  - repeat constructor; eexists; (split; [reflexivity|]); (split; [done|]);
      (split; [repeat (constructor; [by split; [repeat constructor|]|]);
               constructor|]);
      intros b [= <-] || done; eexists; vm_compute; reflexivity.
Qed.

Lemma other_contacts_untouched_witness :
  let s' :=
    mkState
      (<[2%nat := mkRecord (mkField (py "Bob")) [mkField (py "5550000003")]
                    (Some (mkField (py "01.01.2000")))]> (heap book_zed_bob))
      (data book_zed_bob) in
  exists phones_text birthday_text,
    show_phone [py "Zed"] book_zed_bob =
      Some (Return phones_text, book_zed_bob) /\
    show_phone [py "Zed"] s' = Some (Return phones_text, s') /\
    show_birthday [py "Zed"] book_zed_bob =
      Some (Return birthday_text, book_zed_bob) /\
    show_birthday [py "Zed"] s' = Some (Return birthday_text, s').
Proof.
  apply (other_contacts_untouched add_birthday (py "Bob") (py "Zed")
           [py "01.01.2000"] book_zed_bob _ (Return (py "Birthday added."))
           good_book_zed_bob).
  - discriminate.
  - right. by right.
  - vm_compute. reflexivity.
Defined.

(** ** Deleting a contact *)

Lemma dict_get_del_ne (k n : pystr) (d : dict) :
  k <> n -> dict_get k (dict_del n d) = dict_get k d.
Proof.
  intros Hne. induction d as [|[k' v'] d IH]; [done|].
  cbn [dict_del dict_get]. destruct (str_eqb k' n) eqn:E.
  - apply str_eqb_true in E. subst k'.
    by rewrite (proj2 (str_eqb_false n k)) by congruence.
  - cbn [dict_get]. by rewrite IH.
Qed.

Lemma names_filter (n : pystr) (d : dict) :
  map fst (filter (fun kl => fst kl <> n) d) =
    filter (fun k => k <> n) (map fst d).
Proof.
  induction d as [|[k v] d IH]; [done|].
  change (map fst ((k, v) :: d)) with (k :: map fst d).
  destruct (decide (k = n)) as [->|Hne].
  - by rewrite !filter_cons_False by (cbn; tauto).
  - rewrite !filter_cons_True by (cbn; congruence). cbn. by rewrite IH.
Qed.

(** X25: [delete] of a contact of a good book leaves a good book without
    that contact: [find] returns [None] for the name and what it returned
    before for every other name, the other names keep their order, and
    the handlers answer 'Contact not found.' for the name. *)
Theorem delete_then_find (s : state) (n : pystr) (l : loc) :
  good s -> dict_get n (data s) = Some l ->
  exists s',
    AddressBook_delete n s = Some (Return tt, s') /\
    good s' /\
    AddressBook_find n s' = Some (Return None, s') /\
    (forall k, k <> n ->
       AddressBook_find k s' = Some (Return (dict_get k (data s)), s')) /\
    names s' = filter (fun k => k <> n) (names s) /\
    forall args,
      show_phone (n :: args) s' =
        Some (Return (py "'Contact not found.'"), s').
Proof.
  intros [Hnd Hall] Hn. exists (mkState (heap s) (dict_del n (data s))).
  assert (dict_get n (dict_del n (data s)) = None) as Hgone.
  { rewrite dict_del_filter by done. apply dict_get_filter_ne. }
  split.
  { unfold AddressBook_delete, bind, get_data, put_data, dict_in.
    by rewrite Hn. }
  split.
  { split; cbn [heap data]; rewrite dict_del_filter by done.
    - rewrite names_filter. by apply NoDup_filter.
    - apply Forall_forall. intros kl [_ Hkl]%list_elem_of_filter.
      rewrite Forall_forall in Hall. by apply Hall. }
  unfold AddressBook_find, bind, get_data, ret. cbn [data].
  split; [by rewrite Hgone|]. split.
  { intros k Hk. by rewrite dict_get_del_ne. }
  split.
  { unfold names. cbn [data]. rewrite dict_del_filter by done.
    apply names_filter. }
  intros args. by apply show_absent.
Qed.

Lemma delete_then_find_witness :
  exists s',
    AddressBook_delete (py "Zed") book_zed_bob = Some (Return tt, s') /\
    good s' /\ names s' = [py "Eve"; py "Bob"].
Proof.
  destruct (delete_then_find book_zed_bob (py "Zed") 0%nat good_book_zed_bob
              eq_refl) as (s' & Hrun & Hg & _ & _ & Hnames & _).
  exists s'. split; [done|]. split; [done|]. rewrite Hnames.
  vm_compute. reflexivity.
Defined.
